(** * langtrainer: the quiz client's progress ledger, word identity,
      countdown timer and answer submission

    The development embeds the client-side session engine of the vocabulary
    trainer (the browser script behind the quiz page): the mastery ledger
    kept in [localStorage], the word-identity key, the per-question
    countdown built on [setInterval], the submission handler and the summary
    screen.  Every definition follows the JavaScript function of the same
    name; an [async] function is split where it awaits a reply, the part
    after the [await] being the [_resolved] definition and its [catch]
    clause the [_rejected] one. *)

From Stdlib Require Import ZArith NArith Lia Ascii String.
From stdpp Require Import gmap list strings pretty.

Set Warnings "-register-all".

Local Open Scope N_scope.

(** ** JavaScript strings

    A JavaScript string is a sequence of UTF-16 code units.  The regular
    expressions of the program carry no [u] flag, so they work on code units
    too. *)

Abbreviation jsstring := (list N).

(** An ASCII literal as a JavaScript string. *)
Definition u16 (s : string) : jsstring :=
  map N_of_ascii (list_ascii_of_string s).

(** The separator of the template literals, [_]. *)
Definition underscore : N := 95.

(** ** JavaScript numbers used as identifiers

    Lesson identifiers are JSON numbers (integers or decimals).  The program
    compares them ([===], [Array.prototype.includes]), tests them for
    truthiness ([!lesson]) and prints them inside template literals; these
    primitives, and the number a literal such as [1] denotes, are the
    interface. *)

Class JsNumber (num : Type) := {
  num_eq_dec :: EqDecision num;
  num_truthy : num → bool;
  num_to_string : num → jsstring;
  num_of_nat : nat → num
}.

(** Integer-valued numbers: [0] is the falsy one, printing is decimal. *)
#[export] Instance Z_JsNumber : JsNumber Z := {
  num_truthy z := negb (Z.eqb z 0);
  num_to_string z := u16 (pretty z);
  num_of_nat := Z.of_nat
}.

(** ** Word identity: [createWordKey] *)

Definition in_range (lo hi c : N) : bool := (lo <=? c) && (c <=? hi).

(** [\w] without the [u] and [i] flags: [[A-Za-z0-9_]]. *)
Definition word_char (c : N) : bool :=
  in_range 65 90 c || in_range 97 122 c || in_range 48 57 c || (c =? underscore).

(** The class kept by [/[^\wα-ωΑ-Ω]/g]: [\w], U+03B1..U+03C9, U+0391..U+03A9. *)
Definition greek_kept (c : N) : bool :=
  word_char c || in_range 945 969 c || in_range 913 937 c.

(** The class kept by [/[^\wа-яА-Я]/g]: [\w], U+0430..U+044F, U+0410..U+042F. *)
Definition bulgarian_kept (c : N) : bool :=
  word_char c || in_range 1072 1103 c || in_range 1040 1071 c.

(** [s.replace(/[^...]/g, '')]: every code unit outside the class is deleted. *)
Definition replace_outside (kept : N → bool) (s : jsstring) : jsstring :=
  filter (λ c, kept c = true) s.

(** [String.prototype.toLowerCase] on the code units the two replaces can
    leave behind (ASCII word characters, the two Greek ranges, the two
    Cyrillic ranges).  Capital letters move to the small letter 32 code
    units above; U+03A2 is unassigned and stays.  Capital sigma (U+03A3)
    follows Unicode's Final_Sigma rule: it becomes the final form U+03C2
    when a cased letter precedes it and no cased letter follows it, and
    U+03C3 otherwise.  None of the surviving code units is case-ignorable,
    so the rule only looks at the direct neighbours. *)

Definition capital_sigma : N := 931.
Definition small_sigma : N := 963.
Definition final_sigma : N := 962.

Definition is_capital (c : N) : bool :=
  in_range 65 90 c
  || (in_range 913 937 c && negb (c =? 930))
  || in_range 1040 1071 c.

Definition is_cased (c : N) : bool :=
  is_capital c || in_range 97 122 c || in_range 945 969 c || in_range 1072 1103 c.

Definition lower_unit (c : N) : N := if is_capital c then c + 32 else c.

Definition next_cased (rest : jsstring) : bool :=
  match rest with
  | [] => false
  | d :: _ => is_cased d
  end.

Fixpoint lower_from (prev_cased : bool) (s : jsstring) : jsstring :=
  match s with
  | [] => []
  | c :: rest =>
      (if c =? capital_sigma
       then (if prev_cased && negb (next_cased rest) then final_sigma else small_sigma)
       else lower_unit c)
      :: lower_from (is_cased c) rest
  end.

Definition toLowerCase (s : jsstring) : jsstring := lower_from false s.

(** [createWordKey(greek, bulgarian, lesson)] *)
Definition createWordKey `{JsNumber num}
    (greek bulgarian : jsstring) (lesson : num) : jsstring :=
  let cleanGreek := toLowerCase (replace_outside greek_kept greek) in
  let cleanBulgarian := toLowerCase (replace_outside bulgarian_kept bulgarian) in
  num_to_string lesson ++ [underscore] ++ cleanGreek ++ [underscore] ++ cleanBulgarian.

(** [`${direction}_${lesson}_${wordKey}`], the ledger key built by
    [markWordCorrect], [isWordCorrect] and [saveQuizProgress]. *)
Definition progressKey `{JsNumber num}
    (direction greek bulgarian : jsstring) (lesson : num) : jsstring :=
  direction ++ [underscore] ++ num_to_string lesson ++ [underscore]
    ++ createWordKey greek bulgarian lesson.

(** *** When two spellings are the same word

    Letter case: [u] is a capital letter other than sigma and [l] is its
    small letter. *)
Definition case_pair (u l : N) : Prop :=
  is_capital u = true ∧ u ≠ capital_sigma ∧ l = u + 32.

(** Two strings that differ only in the case of letters (capital sigma
    aside) and in code units the class [kept] rejects: punctuation, spaces
    and everything else the replace deletes. *)
Inductive same_spelling (kept : N → bool) : jsstring → jsstring → Prop :=
  | same_end : same_spelling kept [] []
  | same_unit c s t : same_spelling kept s t → same_spelling kept (c :: s) (c :: t)
  | capital_left u l s t :
      case_pair u l → same_spelling kept s t → same_spelling kept (u :: s) (l :: t)
  | capital_right u l s t :
      case_pair u l → same_spelling kept s t → same_spelling kept (l :: s) (u :: t)
  | dropped_left c s t :
      kept c = false → same_spelling kept s t → same_spelling kept (c :: s) t
  | dropped_right c s t :
      kept c = false → same_spelling kept s t → same_spelling kept s (c :: t).

(** The same with capital sigma taken in.  Its small form depends on where
    it stands in the cleaned string: the final form [ς] at the end of a
    word, that is after a cased letter and not before one, and [σ]
    elsewhere.  [prev_cased] tells whether the last code unit the class
    kept so far is a cased letter; [followed_by_cased] whether the next one
    it keeps is. *)
Fixpoint followed_by_cased (kept : N → bool) (s : jsstring) : bool :=
  match s with
  | [] => false
  | c :: rest => if kept c then is_cased c else followed_by_cased kept rest
  end.

Definition word_final (kept : N → bool) (prev_cased : bool) (rest : jsstring) : bool :=
  prev_cased && negb (followed_by_cased kept rest).

Inductive same_word (kept : N → bool) : bool → jsstring → jsstring → Prop :=
  | word_end prev_cased : same_word kept prev_cased [] []
  | word_unit prev_cased c s t :
      kept c = true → same_word kept (is_cased c) s t →
      same_word kept prev_cased (c :: s) (c :: t)
  | word_capital_left prev_cased u l s t :
      case_pair u l → kept u = true → same_word kept true s t →
      same_word kept prev_cased (u :: s) (l :: t)
  | word_capital_right prev_cased u l s t :
      case_pair u l → kept u = true → same_word kept true s t →
      same_word kept prev_cased (l :: s) (u :: t)
  | word_final_sigma_left prev_cased s t :
      kept capital_sigma = true → word_final kept prev_cased s = true →
      same_word kept true s t →
      same_word kept prev_cased (capital_sigma :: s) (final_sigma :: t)
  | word_final_sigma_right prev_cased s t :
      kept capital_sigma = true → word_final kept prev_cased t = true →
      same_word kept true s t →
      same_word kept prev_cased (final_sigma :: s) (capital_sigma :: t)
  | word_small_sigma_left prev_cased s t :
      kept capital_sigma = true → word_final kept prev_cased s = false →
      same_word kept true s t →
      same_word kept prev_cased (capital_sigma :: s) (small_sigma :: t)
  | word_small_sigma_right prev_cased s t :
      kept capital_sigma = true → word_final kept prev_cased t = false →
      same_word kept true s t →
      same_word kept prev_cased (small_sigma :: s) (capital_sigma :: t)
  | word_dropped_left prev_cased c s t :
      kept c = false → same_word kept prev_cased s t →
      same_word kept prev_cased (c :: s) t
  | word_dropped_right prev_cased c s t :
      kept c = false → same_word kept prev_cased s t →
      same_word kept prev_cased s (c :: t).


(** Code units that lower to the same code unit in every context. *)
Definition lowers_alike (c d : N) : Prop := c = d ∨ case_pair c d ∨ case_pair d c.



(** The ASCII punctuation marks, [!] to [/], [:] to [@], [[] to [`] and
    [{] to [~]; the underscore is one of them. *)
Definition is_punctuation (c : N) : bool :=
  in_range 33 47 c || in_range 58 64 c || in_range 91 96 c || in_range 123 126 c.


(** ** Persisted progress as [localStorage] hands it back

    [getProgressData] reads one [localStorage] item and runs [JSON.parse] on
    it.  The item is modelled by the outcome of these two built-ins. *)

Module Json.

Inductive jsval (num : Type) : Type :=
  | JNull
  | JBool (b : bool)
  | JNum (n : num)
  | JStr (s : jsstring)
  | JArr (elems : list (jsval num)) (props : list (jsstring * jsval num))
  | JObj (props : list (jsstring * jsval num)).

Arguments JNull {num}.
Arguments JBool {num} b.
Arguments JNum {num} n.
Arguments JStr {num} s.
Arguments JArr {num} elems props.
Arguments JObj {num} props.

(** What [localStorage.getItem(STORAGE_KEY)] and [JSON.parse] give. *)
Inductive stored (num : Type) : Type :=
  | Absent                      (* [getItem] gives [null] or the empty string *)
  | Malformed                   (* [JSON.parse(data)] throws a SyntaxError *)
  | Parsed (parsed : jsval num).  (* [JSON.parse(data)] returns [parsed] *)

Arguments Absent {num}.
Arguments Malformed {num}.
Arguments Parsed {num} parsed.

Inductive error := SyntaxError | TypeError.

(** The completion of a statement list: normal, or an exception. *)
Inductive completion (A : Type) : Type :=
  | Normal (a : A)
  | Throw (e : error).

Arguments Normal {A} a.
Arguments Throw {A} e.

Section Raw.
Context `{JsNumber num}.

(** Own properties in insertion order. *)
Fixpoint assoc_get (k : jsstring) (l : list (jsstring * jsval num)) : option (jsval num) :=
  match l with
  | [] => None
  | (k', v) :: rest => if decide (k' = k) then Some v else assoc_get k rest
  end.

Fixpoint assoc_set (k : jsstring) (v : jsval num) (l : list (jsstring * jsval num))
    : list (jsstring * jsval num) :=
  match l with
  | [] => [(k, v)]
  | (k', v') :: rest =>
      if decide (k' = k) then (k, v) :: rest else (k', v') :: assoc_set k v rest
  end.

Definition wordProgress_name : jsstring := u16 "wordProgress".
Definition version_name : jsstring := u16 "version".

(** [parsed.wordProgress]: a TypeError on [null], [undefined] ([None]) on a
    primitive or when no such property exists. *)
Definition get_wordProgress (parsed : jsval num) : completion (option (jsval num)) :=
  match parsed with
  | JNull => Throw TypeError
  | JBool _ | JNum _ | JStr _ => Normal None
  | JArr _ props => Normal (assoc_get wordProgress_name props)
  | JObj props => Normal (assoc_get wordProgress_name props)
  end.

(** [parsed.wordProgress = {}]: on a primitive the assignment is dropped in
    sloppy mode and is a TypeError in strict mode. *)
Definition set_wordProgress (strict : bool) (parsed : jsval num) : completion (jsval num) :=
  match parsed with
  | JNull => Throw TypeError
  | JBool _ | JNum _ | JStr _ => if strict then Throw TypeError else Normal parsed
  | JArr elems props => Normal (JArr elems (assoc_set wordProgress_name (JObj []) props))
  | JObj props => Normal (JObj (assoc_set wordProgress_name (JObj []) props))
  end.

(** ToBoolean of a property read. *)
Definition truthy (v : option (jsval num)) : bool :=
  match v with
  | None => false
  | Some JNull => false
  | Some (JBool b) => b
  | Some (JNum n) => num_truthy n
  | Some (JStr s) => negb (bool_decide (s = []))
  | Some (JArr _ _) | Some (JObj _) => true
  end.

(** [{ wordProgress: {}, version: 1 }] *)
Definition default_progress : jsval num :=
  JObj [(wordProgress_name, JObj []); (version_name, JNum (num_of_nat 1))].

(** The [try] block of [getProgressData]. *)
Definition getProgressData_try (strict : bool) (item : stored num) : completion (jsval num) :=
  match item with
  | Absent => Normal default_progress
  | Malformed => Throw SyntaxError
  | Parsed parsed =>
      match get_wordProgress parsed with
      | Throw e => Throw e
      | Normal wp =>
          if negb (truthy wp) then set_wordProgress strict parsed else Normal parsed
      end
  end.

(** [getProgressData()]: the [catch] clause logs and returns the default. *)
Definition getProgressData (strict : bool) (item : stored num) : completion (jsval num) :=
  match getProgressData_try strict item with
  | Normal v => Normal v
  | Throw _ => Normal default_progress
  end.

(** "An object containing a wordProgress map". *)
Definition has_wordProgress_map (v : jsval num) : Prop :=
  ∃ props m, v = JObj props ∧ assoc_get wordProgress_name props = Some (JObj m).

End Raw.
End Json.

(** ** The mastery ledger

    From here on the store holds what the program itself writes: nothing, or
    a progress object whose [wordProgress] maps ledger keys to entries. *)

Module WordPair.
(** An element of [state.wordPairs]; [lesson] is [None] when the property is
    missing or [null]. *)
Record t (num : Type) := mk {
  greek : jsstring;
  bulgarian : jsstring;
  lesson : option num
}.
Arguments mk {num}.
Arguments greek {num}.
Arguments bulgarian {num}.
Arguments lesson {num}.
End WordPair.

Module AnswerResult.
(** The server's reply to a submitted answer, as kept in [state.answers]. *)
Record t := mk {
  correct : bool;
  partial_credit : bool;
  user_answer : jsstring;
  correct_answer : jsstring;
  timed_out : bool
}.
End AnswerResult.

Module Entry.
(** A value of [progress.wordProgress]. *)
Record t (num : Type) := mk {
  greek : jsstring;
  bulgarian : jsstring;
  lesson : num;
  direction : jsstring;
  correct : bool;
  lastSeen : jsstring
}.
Arguments mk {num}.
Arguments greek {num}.
Arguments bulgarian {num}.
Arguments lesson {num}.
Arguments direction {num}.
Arguments correct {num}.
Arguments lastSeen {num}.
End Entry.

Module ProgressData.
Record t (num : Type) := mk {
  wordProgress : gmap jsstring (Entry.t num);
  version : option num
}.
Arguments mk {num}.
Arguments wordProgress {num}.
Arguments version {num}.
End ProgressData.

(** [forEach((x, index) => ...)] with the state the callback updates. *)
Fixpoint forEach_from {A B : Type} (f : B → nat → A → B)
    (index : nat) (l : list A) (acc : B) : B :=
  match l with
  | [] => acc
  | x :: rest => forEach_from f (S index) rest (f acc index x)
  end.

(** The item under [STORAGE_KEY]: [None] when it was never written. *)
Definition Storage (num : Type) : Type := option (ProgressData.t num).

Section Ledger.
Context `{JsNumber num}.

(** [getProgressData()] on such a store. *)
Definition getProgressData (store : Storage num) : ProgressData.t num :=
  match store with
  | None => ProgressData.mk ∅ (Some (num_of_nat 1))
  | Some parsed => parsed
  end.

(** [saveProgressData(data)]: [data] and [data.wordProgress] are objects, so
    the guard passes and the item is replaced. *)
Definition saveProgressData (data : ProgressData.t num) (store : Storage num) : Storage num :=
  Some data.

(** [markWordCorrect(greek, bulgarian, lesson, direction)]; [now] is
    [new Date().toISOString()]. *)
Definition markWordCorrect (greek bulgarian : jsstring) (lesson : num)
    (direction : jsstring) (now : jsstring) (store : Storage num) : Storage num :=
  let progress := getProgressData store in
  let key := progressKey direction greek bulgarian lesson in
  saveProgressData
    (ProgressData.mk
       (<[key := Entry.mk greek bulgarian lesson direction true now]>
          (ProgressData.wordProgress progress))
       (ProgressData.version progress))
    store.

(** [isWordCorrect(greek, bulgarian, lesson, direction)] *)
Definition isWordCorrect (greek bulgarian : jsstring) (lesson : num)
    (direction : jsstring) (store : Storage num) : bool :=
  let progress := getProgressData store in
  let key := progressKey direction greek bulgarian lesson in
  match ProgressData.wordProgress progress !! key with
  | Some entry => Entry.correct entry
  | None => false
  end.

(** [lessons.includes(entry.lesson) && entry.direction === direction] *)
Definition reset_selects (lessons : list num) (direction : jsstring)
    (entry : Entry.t num) : bool :=
  bool_decide (Entry.lesson entry ∈ lessons)
  && bool_decide (Entry.direction entry = direction).

(** [resetProgress(lessons, direction)] *)
Definition resetProgress (lessons : list num) (direction : jsstring)
    (store : Storage num) : Storage num :=
  let progress := getProgressData store in
  let keysToDelete :=
    (filter (λ kv, reset_selects lessons direction kv.2 = true)
       (map_to_list (ProgressData.wordProgress progress))).*1 in
  saveProgressData
    (ProgressData.mk
       (foldl (λ wp key, delete key wp) (ProgressData.wordProgress progress) keysToDelete)
       (ProgressData.version progress))
    store.

(** [entry.correct && entry.direction === direction && lessons.includes(entry.lesson)],
    the test of [getCorrectWordsForLessons]; [getProgressStats] has the same
    three conjuncts in another order. *)
Definition mastered_in (lessons : list num) (direction : jsstring)
    (entry : Entry.t num) : bool :=
  Entry.correct entry
  && bool_decide (Entry.direction entry = direction)
  && bool_decide (Entry.lesson entry ∈ lessons).

(** [getCorrectWordsForLessons(lessons, direction)] *)
Definition getCorrectWordsForLessons (lessons : list num) (direction : jsstring)
    (store : Storage num) : list (WordPair.t num) :=
  let progress := getProgressData store in
  omap (λ kv : jsstring * Entry.t num,
          let entry := kv.2 in
          if mastered_in lessons direction entry
          then Some (WordPair.mk (Entry.greek entry) (Entry.bulgarian entry)
                       (Some (Entry.lesson entry)))
          else None)
       (map_to_list (ProgressData.wordProgress progress)).

(** The callback of [state.wordPairs.forEach] in [saveQuizProgress]; the
    state it updates is [progress.wordProgress], [correctlySavedCount] and
    [skippedCount].  [clock index] is [new Date().toISOString()] as read in
    the iteration for [index]. *)
Definition saveQuizProgress_each (direction : jsstring) (clock : nat → jsstring)
    (answers : list (option AnswerResult.t))
    (acc : gmap jsstring (Entry.t num) * nat * nat)
    (index : nat) (wordPair : WordPair.t num)
    : gmap jsstring (Entry.t num) * nat * nat :=
  let '(wordProgress, correctlySavedCount, skippedCount) := acc in
  match WordPair.lesson wordPair with
  | None => (wordProgress, correctlySavedCount, S skippedCount)
  | Some lesson =>
      if negb (num_truthy lesson)
      then (wordProgress, correctlySavedCount, S skippedCount)
      else
        match answers !! index with
        | None | Some None => (wordProgress, correctlySavedCount, S skippedCount)
        | Some (Some answerResult) =>
            let wasFullyCorrect :=
              AnswerResult.correct answerResult
              && negb (AnswerResult.partial_credit answerResult) in
            let key :=
              progressKey direction (WordPair.greek wordPair)
                (WordPair.bulgarian wordPair) lesson in
            if wasFullyCorrect
            then (<[key := Entry.mk (WordPair.greek wordPair) (WordPair.bulgarian wordPair)
                             lesson direction true (clock index)]> wordProgress,
                  S correctlySavedCount, skippedCount)
            else (wordProgress, correctlySavedCount, skippedCount)
        end
  end.

(** The loop of [saveQuizProgress] on a given ledger. *)
Definition saveQuizProgress_loop (direction : jsstring) (clock : nat → jsstring)
    (wordPairs : list (WordPair.t num)) (answers : list (option AnswerResult.t))
    (wordProgress : gmap jsstring (Entry.t num))
    : gmap jsstring (Entry.t num) * nat * nat :=
  forEach_from (saveQuizProgress_each direction clock answers) 0 wordPairs
    (wordProgress, 0%nat, 0%nat).

(** [saveQuizProgress(summary)]: [direction] is the value of the direction
    select, [wordPairs] and [answers] are [state.wordPairs] and
    [state.answers]; [summary] is only logged. *)
Definition saveQuizProgress (direction : jsstring) (clock : nat → jsstring)
    (wordPairs : list (WordPair.t num)) (answers : list (option AnswerResult.t))
    (store : Storage num) : Storage num :=
  let progress := getProgressData store in
  let wordProgress :=
    (saveQuizProgress_loop direction clock wordPairs answers
       (ProgressData.wordProgress progress)).1.1 in
  saveProgressData (ProgressData.mk wordProgress (ProgressData.version progress)) store.

(** The "full" verdict of an answer: [correct === true] and no
    [partial_credit]. *)
Definition full_verdict (a : AnswerResult.t) : bool :=
  AnswerResult.correct a && negb (AnswerResult.partial_credit a).

(** The word pair at [index] carries the truthy lesson [lesson] and its
    recorded answer has the full verdict. *)
Definition earns_mastery (answers : list (option AnswerResult.t)) (index : nat)
    (wordPair : WordPair.t num) (lesson : num) : Prop :=
  WordPair.lesson wordPair = Some lesson
  ∧ num_truthy lesson = true
  ∧ ∃ a, answers !! index = Some (Some a) ∧ full_verdict a = true.

(** The ledger key of a word pair with lesson [lesson], and the entry
    [saveQuizProgress] stores for it in the iteration for [index]. *)
Definition key_of (direction : jsstring) (wordPair : WordPair.t num) (lesson : num)
    : jsstring :=
  progressKey direction (WordPair.greek wordPair) (WordPair.bulgarian wordPair) lesson.

Definition entry_of (direction : jsstring) (clock : nat → jsstring) (index : nat)
    (wordPair : WordPair.t num) (lesson : num) : Entry.t num :=
  Entry.mk (WordPair.greek wordPair) (WordPair.bulgarian wordPair) lesson direction
    true (clock index).

End Ledger.

(** ** Progress statistics: [getProgressStats]

    [correctCount / totalWords], [* 100], [Math.round] and [> 0] are
    double-precision operations of the language; they stay an interface.
    The one law used is that no number is greater than itself. *)

Class JsArith (num : Type) := {
  num_gtb : num → num → bool;
  num_div : num → num → num;
  num_mul : num → num → num;
  Math_round : num → num;
  num_gtb_irrefl : ∀ x, num_gtb x x = false
}.

Module ProgressStats.
Record t (num : Type) := mk {
  correctCount : nat;
  totalWords : num;
  percentage : num
}.
Arguments mk {num}.
Arguments correctCount {num}.
Arguments totalWords {num}.
Arguments percentage {num}.
End ProgressStats.

Section Stats.
Context `{JsNumber num} `{JsArith num}.

(** [lessons.includes(entry.lesson) && entry.direction === direction && entry.correct] *)
Definition stats_counts (lessons : list num) (direction : jsstring)
    (entry : Entry.t num) : bool :=
  bool_decide (Entry.lesson entry ∈ lessons)
  && bool_decide (Entry.direction entry = direction)
  && Entry.correct entry.

(** [getProgressStats(lessons, direction, totalWords)] *)
Definition getProgressStats (lessons : list num) (direction : jsstring)
    (totalWords : num) (store : Storage num) : ProgressStats.t num :=
  let progress := getProgressData store in
  let correctCount :=
    foldl (λ (count : nat) (kv : jsstring * Entry.t num),
             if stats_counts lessons direction kv.2 then S count else count)
          0%nat (map_to_list (ProgressData.wordProgress progress)) in
  ProgressStats.mk correctCount totalWords
    (if num_gtb totalWords (num_of_nat 0)
     then Math_round (num_mul (num_div (num_of_nat correctCount) totalWords) (num_of_nat 100))
     else num_of_nat 0).

End Stats.

(** ** What the typed store looks like to [JSON.parse] *)

Section Encoding.
Context `{JsNumber num}.

Definition encode_entry (e : Entry.t num) : Json.jsval num :=
  Json.JObj
    [(u16 "greek", Json.JStr (Entry.greek e));
     (u16 "bulgarian", Json.JStr (Entry.bulgarian e));
     (u16 "lesson", Json.JNum (Entry.lesson e));
     (u16 "direction", Json.JStr (Entry.direction e));
     (u16 "correct", Json.JBool (Entry.correct e));
     (u16 "lastSeen", Json.JStr (Entry.lastSeen e))].

Definition encode_progress (p : ProgressData.t num) : Json.jsval num :=
  Json.JObj
    ((Json.wordProgress_name,
      Json.JObj (map (λ kv : jsstring * Entry.t num, (kv.1, encode_entry kv.2))
                   (map_to_list (ProgressData.wordProgress p))))
     :: match ProgressData.version p with
        | Some v => [(Json.version_name, Json.JNum v)]
        | None => []
        end).

Definition encode_storage (store : Storage num) : Json.stored num :=
  match store with
  | None => Json.Absent
  | Some p => Json.Parsed (encode_progress p)
  end.

End Encoding.

(** ** The page: [state], the DOM nodes the engine reads and writes, the
    browser's interval table and the requests sent out *)

Inductive Mode := training | exam.
Inductive Screen := setupScreen | trainingScreen | quizScreen | summaryScreen.

(** The values [submitBtn.onclick] takes. *)
Inductive ClickHandler := onclick_submitAnswer | onclick_nextQuestion.

Module Question.
Record t := mk { prompt : jsstring; prompt_label : jsstring }.
End Question.

(** Body of [POST /quiz/{sessionId}/answer]. *)
Module AnswerRequest.
Record t := mk {
  session : option jsstring;
  question_index : nat;
  answer : jsstring
}.
End AnswerRequest.

(** The path of [GET /quiz/{sessionId}/question/{index}], the request of
    [fetchCorrectAnswer]. *)
Module QuestionRequest.
Record t := mk {
  session : option jsstring;
  question_index : nat
}.
End QuestionRequest.

(** Body of [POST /quiz]; [startQuizAfterTraining] sends [word_pairs] and
    leaves out [use_all_words] and [exclude_correct_words]. *)
Module QuizRequest.
Record t (num : Type) := mk {
  direction : jsstring;
  count : Z;
  time_per_question : Z;
  selected_lessons : list num;
  use_all_words : option bool;
  exclude_correct_words : option (list (WordPair.t num));
  word_pairs : option (list (WordPair.t num))
}.
Arguments mk {num}.
Arguments direction {num}.
Arguments count {num}.
Arguments time_per_question {num}.
Arguments selected_lessons {num}.
Arguments use_all_words {num}.
Arguments exclude_correct_words {num}.
Arguments word_pairs {num}.
End QuizRequest.

(** The reply to [POST /quiz]. *)
Module QuizData.
Record t (num : Type) := mk {
  session_id : jsstring;
  questions : list Question.t;
  word_pairs : list (WordPair.t num);
  time_per_question : Z
}.
Arguments mk {num}.
Arguments session_id {num}.
Arguments questions {num}.
Arguments word_pairs {num}.
Arguments time_per_question {num}.
End QuizData.

(** The reply to [GET /quiz/{sessionId}/summary]; the word lists are only
    rendered. *)
Module Summary.
Record t := mk {
  score_percentage : Z;
  correct_count : nat;
  total_questions : nat
}.
End Summary.

(** The [state] object ([config] and [availableLessons] are not read by the
    functions below). *)
Module State.
Record t (num : Type) := mk {
  sessionId : option jsstring;
  questions : list Question.t;
  currentIndex : nat;
  answers : list (option AnswerResult.t);
  mode : Mode;
  trainingCompleted : bool;
  wordPairs : list (WordPair.t num);
  wasTrainingSession : bool;
  timePerQuestion : Z;
  timeRemaining : Z;
  timerInterval : option positive;
  selectedLessons : list num
}.
Arguments mk {num}.
Arguments sessionId {num}.
Arguments questions {num}.
Arguments currentIndex {num}.
Arguments answers {num}.
Arguments mode {num}.
Arguments trainingCompleted {num}.
Arguments wordPairs {num}.
Arguments wasTrainingSession {num}.
Arguments timePerQuestion {num}.
Arguments timeRemaining {num}.
Arguments timerInterval {num}.
Arguments selectedLessons {num}.
End State.

(** Everything outside [state]: form controls, the quiz screen's nodes, the
    intervals the browser keeps alive ([setInterval] hands out fresh non-zero
    ids), alerts shown, requests issued, and the [localStorage] item. *)
Module Page.
Record t (num : Type) := mk {
  sessionMode : Mode;
  direction : jsstring;
  wordCount : option Z;
  timePerQuestion : Z;
  useAllWords : bool;
  availableWordsCount : Z;
  answerInput : jsstring;
  answerInput_disabled : bool;
  submitBtn_onclick : ClickHandler;
  retakeSection_shown : bool;
  activeScreen : Screen;
  intervals : list positive;
  nextIntervalId : positive;
  alerts : list jsstring;
  answerRequests : list AnswerRequest.t;
  quizRequests : list (QuizRequest.t num);
  summaryRequests : list (option jsstring);
  localStorage : option (ProgressData.t num);
  questionRequests : list QuestionRequest.t
}.
Arguments mk {num}.
Arguments sessionMode {num}.
Arguments direction {num}.
Arguments wordCount {num}.
Arguments timePerQuestion {num}.
Arguments useAllWords {num}.
Arguments availableWordsCount {num}.
Arguments answerInput {num}.
Arguments answerInput_disabled {num}.
Arguments submitBtn_onclick {num}.
Arguments retakeSection_shown {num}.
Arguments activeScreen {num}.
Arguments intervals {num}.
Arguments nextIntervalId {num}.
Arguments alerts {num}.
Arguments answerRequests {num}.
Arguments quizRequests {num}.
Arguments summaryRequests {num}.
Arguments localStorage {num}.
Arguments questionRequests {num}.
End Page.

Module World.
Record t (num : Type) := mk { state : State.t num; page : Page.t num }.
Arguments mk {num}.
Arguments state {num}.
Arguments page {num}.
End World.

(** ** Assignments

    [state.f = v] and the writes to the page, one update per field. *)

Section Assignments.
Context {num : Type}.

Definition set_sessionId (v : option jsstring) (s : State.t num) : State.t num :=
  State.mk
    v (State.questions s) (State.currentIndex s) (State.answers s) (State.mode s)
    (State.trainingCompleted s) (State.wordPairs s) (State.wasTrainingSession s)
    (State.timePerQuestion s) (State.timeRemaining s) (State.timerInterval s)
    (State.selectedLessons s).

Definition set_questions (v : list Question.t) (s : State.t num) : State.t num :=
  State.mk
    (State.sessionId s) v (State.currentIndex s) (State.answers s) (State.mode s)
    (State.trainingCompleted s) (State.wordPairs s) (State.wasTrainingSession s)
    (State.timePerQuestion s) (State.timeRemaining s) (State.timerInterval s)
    (State.selectedLessons s).

Definition set_currentIndex (v : nat) (s : State.t num) : State.t num :=
  State.mk
    (State.sessionId s) (State.questions s) v (State.answers s) (State.mode s)
    (State.trainingCompleted s) (State.wordPairs s) (State.wasTrainingSession s)
    (State.timePerQuestion s) (State.timeRemaining s) (State.timerInterval s)
    (State.selectedLessons s).

Definition set_answers (v : list (option AnswerResult.t)) (s : State.t num) : State.t num :=
  State.mk
    (State.sessionId s) (State.questions s) (State.currentIndex s) v (State.mode s)
    (State.trainingCompleted s) (State.wordPairs s) (State.wasTrainingSession s)
    (State.timePerQuestion s) (State.timeRemaining s) (State.timerInterval s)
    (State.selectedLessons s).

Definition set_mode (v : Mode) (s : State.t num) : State.t num :=
  State.mk
    (State.sessionId s) (State.questions s) (State.currentIndex s) (State.answers s) v
    (State.trainingCompleted s) (State.wordPairs s) (State.wasTrainingSession s)
    (State.timePerQuestion s) (State.timeRemaining s) (State.timerInterval s)
    (State.selectedLessons s).

Definition set_trainingCompleted (v : bool) (s : State.t num) : State.t num :=
  State.mk
    (State.sessionId s) (State.questions s) (State.currentIndex s) (State.answers s)
    (State.mode s) v (State.wordPairs s) (State.wasTrainingSession s)
    (State.timePerQuestion s) (State.timeRemaining s) (State.timerInterval s)
    (State.selectedLessons s).

Definition set_wordPairs (v : list (WordPair.t num)) (s : State.t num) : State.t num :=
  State.mk
    (State.sessionId s) (State.questions s) (State.currentIndex s) (State.answers s)
    (State.mode s) (State.trainingCompleted s) v (State.wasTrainingSession s)
    (State.timePerQuestion s) (State.timeRemaining s) (State.timerInterval s)
    (State.selectedLessons s).

Definition set_wasTrainingSession (v : bool) (s : State.t num) : State.t num :=
  State.mk
    (State.sessionId s) (State.questions s) (State.currentIndex s) (State.answers s)
    (State.mode s) (State.trainingCompleted s) (State.wordPairs s) v
    (State.timePerQuestion s) (State.timeRemaining s) (State.timerInterval s)
    (State.selectedLessons s).

Definition set_timePerQuestion (v : Z) (s : State.t num) : State.t num :=
  State.mk
    (State.sessionId s) (State.questions s) (State.currentIndex s) (State.answers s)
    (State.mode s) (State.trainingCompleted s) (State.wordPairs s)
    (State.wasTrainingSession s) v (State.timeRemaining s) (State.timerInterval s)
    (State.selectedLessons s).

Definition set_timeRemaining (v : Z) (s : State.t num) : State.t num :=
  State.mk
    (State.sessionId s) (State.questions s) (State.currentIndex s) (State.answers s)
    (State.mode s) (State.trainingCompleted s) (State.wordPairs s)
    (State.wasTrainingSession s) (State.timePerQuestion s) v (State.timerInterval s)
    (State.selectedLessons s).

Definition set_timerInterval (v : option positive) (s : State.t num) : State.t num :=
  State.mk
    (State.sessionId s) (State.questions s) (State.currentIndex s) (State.answers s)
    (State.mode s) (State.trainingCompleted s) (State.wordPairs s)
    (State.wasTrainingSession s) (State.timePerQuestion s) (State.timeRemaining s) v
    (State.selectedLessons s).

Definition set_selectedLessons (v : list num) (s : State.t num) : State.t num :=
  State.mk
    (State.sessionId s) (State.questions s) (State.currentIndex s) (State.answers s)
    (State.mode s) (State.trainingCompleted s) (State.wordPairs s)
    (State.wasTrainingSession s) (State.timePerQuestion s) (State.timeRemaining s)
    (State.timerInterval s) v.

Definition put_wordCount (v : option Z) (s : Page.t num) : Page.t num :=
  Page.mk
    (Page.sessionMode s) (Page.direction s) v (Page.timePerQuestion s)
    (Page.useAllWords s) (Page.availableWordsCount s) (Page.answerInput s)
    (Page.answerInput_disabled s) (Page.submitBtn_onclick s)
    (Page.retakeSection_shown s) (Page.activeScreen s) (Page.intervals s)
    (Page.nextIntervalId s) (Page.alerts s) (Page.answerRequests s)
    (Page.quizRequests s) (Page.summaryRequests s) (Page.localStorage s)
    (Page.questionRequests s).

Definition put_answerInput (v : jsstring) (s : Page.t num) : Page.t num :=
  Page.mk
    (Page.sessionMode s) (Page.direction s) (Page.wordCount s) (Page.timePerQuestion s)
    (Page.useAllWords s) (Page.availableWordsCount s) v (Page.answerInput_disabled s)
    (Page.submitBtn_onclick s) (Page.retakeSection_shown s) (Page.activeScreen s)
    (Page.intervals s) (Page.nextIntervalId s) (Page.alerts s) (Page.answerRequests s)
    (Page.quizRequests s) (Page.summaryRequests s) (Page.localStorage s)
    (Page.questionRequests s).

Definition put_answerInput_disabled (v : bool) (s : Page.t num) : Page.t num :=
  Page.mk
    (Page.sessionMode s) (Page.direction s) (Page.wordCount s) (Page.timePerQuestion s)
    (Page.useAllWords s) (Page.availableWordsCount s) (Page.answerInput s) v
    (Page.submitBtn_onclick s) (Page.retakeSection_shown s) (Page.activeScreen s)
    (Page.intervals s) (Page.nextIntervalId s) (Page.alerts s) (Page.answerRequests s)
    (Page.quizRequests s) (Page.summaryRequests s) (Page.localStorage s)
    (Page.questionRequests s).

Definition put_submitBtn_onclick (v : ClickHandler) (s : Page.t num) : Page.t num :=
  Page.mk
    (Page.sessionMode s) (Page.direction s) (Page.wordCount s) (Page.timePerQuestion s)
    (Page.useAllWords s) (Page.availableWordsCount s) (Page.answerInput s)
    (Page.answerInput_disabled s) v (Page.retakeSection_shown s) (Page.activeScreen s)
    (Page.intervals s) (Page.nextIntervalId s) (Page.alerts s) (Page.answerRequests s)
    (Page.quizRequests s) (Page.summaryRequests s) (Page.localStorage s)
    (Page.questionRequests s).

Definition put_retakeSection_shown (v : bool) (s : Page.t num) : Page.t num :=
  Page.mk
    (Page.sessionMode s) (Page.direction s) (Page.wordCount s) (Page.timePerQuestion s)
    (Page.useAllWords s) (Page.availableWordsCount s) (Page.answerInput s)
    (Page.answerInput_disabled s) (Page.submitBtn_onclick s) v (Page.activeScreen s)
    (Page.intervals s) (Page.nextIntervalId s) (Page.alerts s) (Page.answerRequests s)
    (Page.quizRequests s) (Page.summaryRequests s) (Page.localStorage s)
    (Page.questionRequests s).

Definition put_activeScreen (v : Screen) (s : Page.t num) : Page.t num :=
  Page.mk
    (Page.sessionMode s) (Page.direction s) (Page.wordCount s) (Page.timePerQuestion s)
    (Page.useAllWords s) (Page.availableWordsCount s) (Page.answerInput s)
    (Page.answerInput_disabled s) (Page.submitBtn_onclick s)
    (Page.retakeSection_shown s) v (Page.intervals s) (Page.nextIntervalId s)
    (Page.alerts s) (Page.answerRequests s) (Page.quizRequests s)
    (Page.summaryRequests s) (Page.localStorage s)
    (Page.questionRequests s).

Definition put_intervals (v : list positive) (s : Page.t num) : Page.t num :=
  Page.mk
    (Page.sessionMode s) (Page.direction s) (Page.wordCount s) (Page.timePerQuestion s)
    (Page.useAllWords s) (Page.availableWordsCount s) (Page.answerInput s)
    (Page.answerInput_disabled s) (Page.submitBtn_onclick s)
    (Page.retakeSection_shown s) (Page.activeScreen s) v (Page.nextIntervalId s)
    (Page.alerts s) (Page.answerRequests s) (Page.quizRequests s)
    (Page.summaryRequests s) (Page.localStorage s)
    (Page.questionRequests s).

Definition put_nextIntervalId (v : positive) (s : Page.t num) : Page.t num :=
  Page.mk
    (Page.sessionMode s) (Page.direction s) (Page.wordCount s) (Page.timePerQuestion s)
    (Page.useAllWords s) (Page.availableWordsCount s) (Page.answerInput s)
    (Page.answerInput_disabled s) (Page.submitBtn_onclick s)
    (Page.retakeSection_shown s) (Page.activeScreen s) (Page.intervals s) v
    (Page.alerts s) (Page.answerRequests s) (Page.quizRequests s)
    (Page.summaryRequests s) (Page.localStorage s)
    (Page.questionRequests s).

Definition put_alerts (v : list jsstring) (s : Page.t num) : Page.t num :=
  Page.mk
    (Page.sessionMode s) (Page.direction s) (Page.wordCount s) (Page.timePerQuestion s)
    (Page.useAllWords s) (Page.availableWordsCount s) (Page.answerInput s)
    (Page.answerInput_disabled s) (Page.submitBtn_onclick s)
    (Page.retakeSection_shown s) (Page.activeScreen s) (Page.intervals s)
    (Page.nextIntervalId s) v (Page.answerRequests s) (Page.quizRequests s)
    (Page.summaryRequests s) (Page.localStorage s)
    (Page.questionRequests s).

Definition put_answerRequests (v : list AnswerRequest.t) (s : Page.t num) : Page.t num :=
  Page.mk
    (Page.sessionMode s) (Page.direction s) (Page.wordCount s) (Page.timePerQuestion s)
    (Page.useAllWords s) (Page.availableWordsCount s) (Page.answerInput s)
    (Page.answerInput_disabled s) (Page.submitBtn_onclick s)
    (Page.retakeSection_shown s) (Page.activeScreen s) (Page.intervals s)
    (Page.nextIntervalId s) (Page.alerts s) v (Page.quizRequests s)
    (Page.summaryRequests s) (Page.localStorage s)
    (Page.questionRequests s).

Definition put_quizRequests (v : list (QuizRequest.t num)) (s : Page.t num) : Page.t num :=
  Page.mk
    (Page.sessionMode s) (Page.direction s) (Page.wordCount s) (Page.timePerQuestion s)
    (Page.useAllWords s) (Page.availableWordsCount s) (Page.answerInput s)
    (Page.answerInput_disabled s) (Page.submitBtn_onclick s)
    (Page.retakeSection_shown s) (Page.activeScreen s) (Page.intervals s)
    (Page.nextIntervalId s) (Page.alerts s) (Page.answerRequests s) v
    (Page.summaryRequests s) (Page.localStorage s)
    (Page.questionRequests s).

Definition put_summaryRequests (v : list (option jsstring)) (s : Page.t num) : Page.t num :=
  Page.mk
    (Page.sessionMode s) (Page.direction s) (Page.wordCount s) (Page.timePerQuestion s)
    (Page.useAllWords s) (Page.availableWordsCount s) (Page.answerInput s)
    (Page.answerInput_disabled s) (Page.submitBtn_onclick s)
    (Page.retakeSection_shown s) (Page.activeScreen s) (Page.intervals s)
    (Page.nextIntervalId s) (Page.alerts s) (Page.answerRequests s)
    (Page.quizRequests s) v (Page.localStorage s)
    (Page.questionRequests s).

Definition put_localStorage (v : option (ProgressData.t num)) (s : Page.t num) : Page.t num :=
  Page.mk
    (Page.sessionMode s) (Page.direction s) (Page.wordCount s) (Page.timePerQuestion s)
    (Page.useAllWords s) (Page.availableWordsCount s) (Page.answerInput s)
    (Page.answerInput_disabled s) (Page.submitBtn_onclick s)
    (Page.retakeSection_shown s) (Page.activeScreen s) (Page.intervals s)
    (Page.nextIntervalId s) (Page.alerts s) (Page.answerRequests s)
    (Page.quizRequests s) (Page.summaryRequests s) v (Page.questionRequests s).

Definition put_questionRequests (v : list QuestionRequest.t) (s : Page.t num) : Page.t num :=
  Page.mk
    (Page.sessionMode s) (Page.direction s) (Page.wordCount s) (Page.timePerQuestion s)
    (Page.useAllWords s) (Page.availableWordsCount s) (Page.answerInput s)
    (Page.answerInput_disabled s) (Page.submitBtn_onclick s)
    (Page.retakeSection_shown s) (Page.activeScreen s) (Page.intervals s)
    (Page.nextIntervalId s) (Page.alerts s) (Page.answerRequests s)
    (Page.quizRequests s) (Page.summaryRequests s) (Page.localStorage s) v.

(** An assignment to a field of [state], a write to the page. *)
Definition on_state (f : State.t num → State.t num) (w : World.t num) : World.t num :=
  World.mk (f (World.state w)) (World.page w).

Definition on_page (f : Page.t num → Page.t num) (w : World.t num) : World.t num :=
  World.mk (World.state w) (f (World.page w)).

End Assignments.

(** ** The countdown and the question driver *)

(** WhiteSpace and LineTerminator code units, the ones [trim] removes. *)
Definition is_space (c : N) : bool :=
  in_range 9 13 c || (c =? 32) || (c =? 160) || (c =? 5760) || in_range 8192 8202 c
  || (c =? 8232) || (c =? 8233) || (c =? 8239) || (c =? 8287) || (c =? 12288)
  || (c =? 65279).

Fixpoint trimStart (s : jsstring) : jsstring :=
  match s with
  | [] => []
  | c :: rest => if is_space c then trimStart rest else s
  end.

(** [String.prototype.trim] *)
Definition trim (s : jsstring) : jsstring :=
  reverse (trimStart (reverse (trimStart s))).

Definition MAX_WORDS : Z := 200.
Definition MIN_WORDS : Z := 1.

Section Driver.
Context `{JsNumber num}.
Implicit Types w : World.t num.

Definition alert (message : jsstring) w : World.t num :=
  on_page (λ p, put_alerts (Page.alerts p ++ [message]) p) w.

(** [clearInterval(id)] *)
Definition clearInterval (id : positive) w : World.t num :=
  on_page (λ p, put_intervals (filter (λ i, i ≠ id) (Page.intervals p)) p) w.

(** [setInterval(callback, 1000)]; the program has a single interval
    callback, [timerCallback] below. *)
Definition setInterval w : positive * World.t num :=
  let id := Page.nextIntervalId (World.page w) in
  (id, on_page (λ p, put_nextIntervalId (Pos.succ id)
                       (put_intervals (Page.intervals p ++ [id]) p)) w).

(** [startTimer()] ([updateTimerDisplay] only renders [state.timeRemaining]) *)
Definition startTimer w : World.t num :=
  let w1 :=
    match State.timerInterval (World.state w) with
    | Some id => clearInterval id w
    | None => w
    end in
  let w2 := on_state (λ s, set_timeRemaining (State.timePerQuestion s) s) w1 in
  let '(id, w3) := setInterval w2 in
  on_state (set_timerInterval (Some id)) w3.

(** [stopTimer()] *)
Definition stopTimer w : World.t num :=
  match State.timerInterval (World.state w) with
  | Some id => on_state (set_timerInterval None) (clearInterval id w)
  | None => w
  end.

(** [submitAnswer(isTimeout)] up to the [fetch]: the request is recorded,
    the rest of the function runs when the reply arrives. *)
Definition submitAnswer (isTimeout : bool) w : World.t num :=
  let w1 := stopTimer w in
  let answer := if isTimeout then [] else trim (Page.answerInput (World.page w1)) in
  if bool_decide (answer = []) && negb isTimeout
  then startTimer (alert (u16 "Please enter an answer") w1)
  else
    on_page (λ p, put_answerRequests
                    (Page.answerRequests p
                     ++ [AnswerRequest.mk (State.sessionId (World.state w1))
                           (State.currentIndex (World.state w1)) answer]) p) w1.

(** [submitAnswer] after [await response.json()]: [displayFeedback] disables
    the input, the result is pushed, the button becomes "next". *)
Definition submitAnswer_resolved (result : AnswerResult.t) w : World.t num :=
  let w1 := on_page (put_answerInput_disabled true) w in
  let w2 := on_state (λ s, set_answers (State.answers s ++ [Some result]) s) w1 in
  on_page (put_submitBtn_onclick onclick_nextQuestion) w2.

(** The [catch] clause of [submitAnswer]. *)
Definition submitAnswer_rejected w : World.t num :=
  alert (u16 "Failed to submit answer") w.

(** [handleTimeout()] *)
Definition handleTimeout w : World.t num :=
  submitAnswer true (stopTimer w).

(** The arrow function given to [setInterval]. *)
Definition timerCallback w : World.t num :=
  let w1 := on_state (λ s, set_timeRemaining (State.timeRemaining s - 1)%Z s) w in
  if (State.timeRemaining (World.state w1) <=? 0)%Z then handleTimeout w1 else w1.

(** The browser runs the callback of an interval only while the interval is
    in its table. *)
Definition interval_fires (id : positive) w : World.t num :=
  if bool_decide (id ∈ Page.intervals (World.page w)) then timerCallback w else w.

(** [displayQuestion()]: [None] is the TypeError of [question.prompt_label]
    when [state.questions] has no element at [state.currentIndex]. *)
Definition displayQuestion w : option (World.t num) :=
  match State.questions (World.state w) !! State.currentIndex (World.state w) with
  | None => None
  | Some question =>
      let w1 := on_page (put_answerInput []) w in
      let w2 := on_page (put_submitBtn_onclick onclick_submitAnswer) w1 in
      Some (startTimer w2)
  end.

(** [fetchCorrectAnswer()] up to the [fetch].  What follows the [await],
    and the [catch] clause, only write the text of the answer node. *)
Definition fetchCorrectAnswer w : World.t num :=
  on_page (λ p, put_questionRequests
                  (Page.questionRequests p
                   ++ [QuestionRequest.mk (State.sessionId (World.state w))
                         (State.currentIndex (World.state w))]) p) w.

(** [displayTrainingWord()]: it throws like [displayQuestion], and
    otherwise fetches the answer of the word it shows. *)
Definition displayTrainingWord w : option (World.t num) :=
  match State.questions (World.state w) !! State.currentIndex (World.state w) with
  | None => None
  | Some question => Some (fetchCorrectAnswer w)
  end.

(** [showSummary()] up to the [fetch]. *)
Definition showSummary w : World.t num :=
  on_page (λ p, put_summaryRequests
                  (Page.summaryRequests p ++ [State.sessionId (World.state w)]) p) w.

(** The retake condition of [showSummary]. *)
Definition retake_offered (s : State.t num) (summary : Summary.t) : bool :=
  State.wasTrainingSession s
  && (Summary.score_percentage summary <? 100)%Z
  && (0 <? length (State.wordPairs s))%nat.

(** [showSummary] once the summary has arrived: [saveQuizProgress], the
    retake section, the summary screen. *)
Definition showSummary_resolved (summary : Summary.t) (clock : nat → jsstring) w
    : World.t num :=
  let s := World.state w in
  let w1 :=
    on_page (λ p, put_localStorage
                    (saveQuizProgress (Page.direction p) clock (State.wordPairs s)
                       (State.answers s) (Page.localStorage p)) p) w in
  let w2 := on_page (put_retakeSection_shown (retake_offered s summary)) w1 in
  on_page (put_activeScreen summaryScreen) w2.

Definition showSummary_rejected w : World.t num :=
  alert (u16 "Failed to load summary") w.

(** [nextQuestion()] *)
Definition nextQuestion w : World.t num :=
  let w1 := on_page (put_answerInput_disabled false) w in
  let w2 := on_state (λ s, set_currentIndex (S (State.currentIndex s)) s) w1 in
  if (State.currentIndex (World.state w2) <? length (State.questions (World.state w2)))%nat
  then match displayQuestion w2 with Some w3 => w3 | None => w2 end
  else showSummary w2.

(** [startQuizAfterTraining()] up to the [fetch]. *)
Definition startQuizAfterTraining w : World.t num :=
  let s := World.state w in
  on_page (λ p, put_quizRequests
                  (Page.quizRequests p
                   ++ [QuizRequest.mk (Page.direction p)
                         (Z.of_nat (length (State.wordPairs s)))
                         (State.timePerQuestion s) (State.selectedLessons s)
                         None None (Some (State.wordPairs s))]) p) w.

(** The session fields both reply handlers assign. *)
Definition load_session (data : QuizData.t num) (s : State.t num) : State.t num :=
  set_answers []
    (set_currentIndex 0%nat
       (set_timePerQuestion (QuizData.time_per_question data)
          (set_wordPairs (QuizData.word_pairs data)
             (set_questions (QuizData.questions data)
                (set_sessionId (Some (QuizData.session_id data)) s))))).

(** [startQuizAfterTraining] once the reply has arrived; a throwing
    [displayQuestion] ends in the [catch] clause. *)
Definition startQuizAfterTraining_resolved (data : QuizData.t num) w : World.t num :=
  let w1 := on_state (load_session data) w in
  let w2 := on_page (put_activeScreen quizScreen) w1 in
  match displayQuestion w2 with
  | Some w3 => w3
  | None => alert (u16 "Failed to start exam") w2
  end.

(** [startExam()] *)
Definition startExam w : World.t num :=
  let w1 := on_state (λ s, set_answers [] (set_currentIndex 0%nat
                              (set_trainingCompleted true s))) w in
  startQuizAfterTraining w1.

(** [skipToExam()]; [confirmed] is the answer to [confirm(...)]. *)
Definition skipToExam (confirmed : bool) w : World.t num :=
  if confirmed then startExam w else w.

(** [nextTrainingWord()] *)
Definition nextTrainingWord w : World.t num :=
  let w1 := on_state (λ s, set_currentIndex (S (State.currentIndex s)) s) w in
  if (State.currentIndex (World.state w1) <? length (State.questions (World.state w1)))%nat
  then match displayTrainingWord w1 with Some w2 => w2 | None => w1 end
  else startExam w1.

(** [retakeExam()] *)
Definition retakeExam w : World.t num :=
  let w1 := on_state (λ s, set_wasTrainingSession true
                              (set_answers (replicate (length (State.wordPairs s)) None) s)) w in
  startQuizAfterTraining w1.

(** [restartQuiz()] *)
Definition restartQuiz w : World.t num :=
  let w1 := stopTimer w in
  let w2 := on_page (put_activeScreen setupScreen) w1 in
  on_state (λ s, set_wordPairs []
                   (set_mode exam
                      (set_trainingCompleted false
                         (set_answers []
                            (set_currentIndex 0%nat
                               (set_questions [] (set_sessionId None s))))))) w2.

End Driver.

(** ** Starting a session *)

Section Sessions.
Context `{JsNumber num}.
Implicit Types w : World.t num.

(** The word-count checks of [startSession] when "use all words" is off:
    the left case is an early [return], the right case carries the count
    that goes on. *)
Definition check_wordCount (count : option Z) (availableWords : Z) w
    : World.t num + Z * World.t num :=
  match count with
  | None => inl (alert (u16 "Please enter a valid number of words") w)
  | Some c =>
      if (c <? MIN_WORDS)%Z
      then inl (alert (u16 "Please enter a valid number of words") w)
      else
        let '(c1, w1) :=
          if (MAX_WORDS <? c)%Z
          then (MAX_WORDS,
                on_page (put_wordCount (Some MAX_WORDS))
                  (alert (u16 "The maximum number of words is 200") w))
          else (c, w) in
        let '(c2, w2) :=
          if (availableWords <? c1)%Z
          then (availableWords,
                on_page (put_wordCount (Some availableWords))
                  (alert (u16 "Only some words are available in the selected lessons") w1))
          else (c1, w1) in
        if (availableWords =? 0)%Z
        then inl (alert (u16 "No words available in the selected lessons.") w2)
        else inr (c2, w2)
  end.

(** The request [startSession] sends once the checks have passed. *)
Definition startSession_request (count : Z) w : World.t num :=
  let p := World.page w in
  let direction := Page.direction p in
  let timePerQuestion := Page.timePerQuestion p in
  let w1 := on_state (set_timePerQuestion timePerQuestion) w in
  let excludeWords :=
    getCorrectWordsForLessons (State.selectedLessons (World.state w1)) direction
      (Page.localStorage p) in
  on_page (λ p, put_quizRequests
                  (Page.quizRequests p
                   ++ [QuizRequest.mk direction count timePerQuestion
                         (State.selectedLessons (World.state w1))
                         (Some (Page.useAllWords p)) (Some excludeWords) None]) p) w1.

(** [startSession()] up to the [fetch].  With "use all words" on, a count
    that is [NaN], zero or below one is replaced by the placeholder 1. *)
Definition startSession w : World.t num :=
  let p := World.page w in
  if bool_decide (State.selectedLessons (World.state w) = [])
  then alert (u16 "Please select at least one lesson") w
  else if Page.useAllWords p
  then
    let count :=
      match Page.wordCount p with
      | None => 1%Z
      | Some c => if (c <? 1)%Z then 1%Z else c
      end in
    startSession_request count w
  else
    match check_wordCount (Page.wordCount p) (Page.availableWordsCount p) w with
    | inl w1 => w1
    | inr (count, w1) => startSession_request count w1
    end.

(** [startSession] once the reply has arrived; [sessionMode] is the value
    read when the function started. *)
Definition startSession_resolved (sessionMode : Mode) (data : QuizData.t num) w
    : World.t num :=
  let w1 :=
    on_state (λ s, set_wasTrainingSession
                     (match sessionMode with training => true | exam => false end)
                     (set_trainingCompleted false (load_session data s))) w in
  let w2 :=
    match sessionMode with
    | training =>
        displayTrainingWord
          (on_page (put_activeScreen trainingScreen) (on_state (set_mode training) w1))
    | exam =>
        displayQuestion
          (on_page (put_activeScreen quizScreen) (on_state (set_mode exam) w1))
    end in
  match w2 with
  | Some w3 => w3
  | None =>
      alert (u16 "Failed to start session")
        (match sessionMode with
         | training => on_page (put_activeScreen trainingScreen) (on_state (set_mode training) w1)
         | exam => on_page (put_activeScreen quizScreen) (on_state (set_mode exam) w1)
         end)
  end.

(** The [!response.ok] branch of [startSession] and the [catch] clauses of
    the two session requests. *)
Definition startSession_rejected w : World.t num :=
  alert (u16 "Unable to start session") w.

Definition startQuizAfterTraining_rejected w : World.t num :=
  alert (u16 "Failed to start exam") w.

(** [updateSelectedLessons()]: [state.selectedLessons] becomes the list of
    ticked lessons. *)
Definition updateSelectedLessons (ticked : list num) w : World.t num :=
  on_state (set_selectedLessons ticked) w.

(** [resetAllProgress()]; [confirmed] is the answer to [confirm(...)]. *)
Definition resetAllProgress (confirmed : bool) w : World.t num :=
  if confirmed
  then alert (u16 "Progress has been reset!") (on_page (put_localStorage None) w)
  else w.

(** ** Everything that can happen to the page *)

Inductive Event : Type :=
  | IntervalFires (id : positive)
  | Types (text : jsstring)
  | ClicksSubmit
  | AnswerArrives (result : AnswerResult.t)
  | AnswerFails
  | ClicksStart
  | SessionArrives (sessionMode : Mode) (data : QuizData.t num)
  | SessionFails
  | ClicksNextWord
  | ClicksSkip (confirmed : bool)
  | ExamArrives (data : QuizData.t num)
  | ExamFails
  | SummaryArrives (summary : Summary.t) (clock : nat → jsstring)
  | SummaryFails
  | ClicksRetake
  | ClicksRestart
  | TicksLessons (ticked : list num)
  | ClicksResetAll (confirmed : bool).

Definition handle (e : Event) w : World.t num :=
  match e with
  | IntervalFires id => interval_fires id w
  | Types text => on_page (put_answerInput text) w
  | ClicksSubmit =>
      match Page.submitBtn_onclick (World.page w) with
      | onclick_submitAnswer => submitAnswer false w
      | onclick_nextQuestion => nextQuestion w
      end
  | AnswerArrives result => submitAnswer_resolved result w
  | AnswerFails => submitAnswer_rejected w
  | ClicksStart => startSession w
  | SessionArrives sessionMode data => startSession_resolved sessionMode data w
  | SessionFails => startSession_rejected w
  | ClicksNextWord => nextTrainingWord w
  | ClicksSkip confirmed => skipToExam confirmed w
  | ExamArrives data => startQuizAfterTraining_resolved data w
  | ExamFails => startQuizAfterTraining_rejected w
  | SummaryArrives summary clock => showSummary_resolved summary clock w
  | SummaryFails => showSummary_rejected w
  | ClicksRetake => retakeExam w
  | ClicksRestart => restartQuiz w
  | TicksLessons ticked => updateSelectedLessons ticked w
  | ClicksResetAll confirmed => resetAllProgress confirmed w
  end.

(** The page after a sequence of events. *)
Definition run (events : list Event) w : World.t num := foldl (λ w e, handle e w) w events.

(** The page as loaded: no interval is running and [state.timerInterval] is [null]. *)
Definition fresh_page (s : State.t num) (p : Page.t num) : World.t num :=
  World.mk (set_timerInterval None s) (put_intervals [] p).

(** The invariant of the countdown: the intervals alive in the browser are
    exactly the one recorded in [state.timerInterval]. *)
Definition one_timer w : Prop :=
  Page.intervals (World.page w)
  = match State.timerInterval (World.state w) with
    | Some id => [id]
    | None => []
    end.

(** Interval ids in use are below the next id the browser hands out. *)
Definition timer_fresh w : Prop :=
  ∀ id, State.timerInterval (World.state w) = Some id →
        (id < Page.nextIntervalId (World.page w))%positive.

(** The page while the countdown started by [startTimer w] is running:
    [n] seconds have gone by. *)
Definition counting (n : nat) w : World.t num :=
  on_state (set_timeRemaining (State.timePerQuestion (World.state w) - Z.of_nat n)%Z)
    (startTimer w).

(** The page once that countdown has run out after [n] seconds: the timer
    is stopped and the empty answer is on its way. *)
Definition timed_out (n : nat) w : World.t num :=
  let w1 := stopTimer (counting n w) in
  on_page (λ p, put_answerRequests
                  (Page.answerRequests p
                   ++ [AnswerRequest.mk (State.sessionId (World.state w))
                         (State.currentIndex (World.state w)) []]) p) w1.

(** The tick on which a countdown of [d] seconds runs out. *)
Definition expiry_tick (d : Z) : nat := Z.to_nat (Z.max 1 d).

(** [n] firings of the interval [id], nothing else happening. *)
Definition ticks (id : positive) (n : nat) w : World.t num :=
  Nat.iter n (interval_fires id) w.

End Sessions.

(** ** A one-question exam, for concrete runs *)

Definition sample_state : State.t Z :=
  State.mk None [] 0 [] exam false [] false 60 60 None [1%Z].

Definition sample_page : Page.t Z :=
  Page.mk exam (u16 "greek_to_bulgarian") (Some 10%Z) 5 false 20 [] false
    onclick_submitAnswer false setupScreen [] 1%positive [] [] [] [] None [].

Definition sample_word : WordPair.t Z :=
  WordPair.mk [955; 941; 947; 969] [1075; 1086; 1074; 1086; 1088; 1103] (Some 1%Z).

Definition sample_data : QuizData.t Z :=
  QuizData.mk (u16 "session-1")
    [Question.mk [955; 941; 947; 969] (u16 "Translate")] [sample_word] 5.

Definition sample_timeout_result : AnswerResult.t :=
  AnswerResult.mk false false [] [1075; 1086; 1074; 1086; 1088; 1103] true.

Definition sample_clock : nat → jsstring := λ _, u16 "2025-10-18T10:00:00.000Z".

(** ** Ledger coherence

    Every entry sits under the key built from its own fields and is marked
    correct; this is what [markWordCorrect] and [saveQuizProgress] write. *)

Section Coherence.
Context `{JsNumber num}.

Definition ledger_coherent (store : Storage num) : Prop :=
  ∀ (key : jsstring) (entry : Entry.t num),
    ProgressData.wordProgress (getProgressData store) !! key = Some entry →
    key = progressKey (Entry.direction entry) (Entry.greek entry)
            (Entry.bulgarian entry) (Entry.lesson entry)
    ∧ Entry.correct entry = true.

End Coherence.

(** ** Kinds of events, and the canonical run of an exam *)

Section Runs.
Context `{JsNumber num}.

(** The events whose handlers call [saveQuizProgress] or remove the item. *)
Definition writes_ledger (e : @Event num) : bool :=
  match e with
  | SummaryArrives _ _ => true
  | ClicksResetAll confirmed => confirmed
  | _ => false
  end.

(** The events whose handlers can assign [state.answers] afresh: a session
    is loaded, the exam is started (by the last "next word", or by a
    confirmed skip) or retaken, or the quiz is restarted. *)
Definition resets_answers (e : @Event num) : bool :=
  match e with
  | SessionArrives _ _ | ExamArrives _ | ClicksNextWord | ClicksSkip _
  | ClicksRetake | ClicksRestart => true
  | _ => false
  end.

(** The result an event pushes onto [state.answers], if any. *)
Definition pushed_answer (e : @Event num) : option (option AnswerResult.t) :=
  match e with
  | AnswerArrives result => Some (Some result)
  | _ => None
  end.

(** One question answered in the ordinary way: the user types, submits,
    the reply arrives, the user clicks on. *)
Definition exam_round (text : jsstring) (result : AnswerResult.t) : list (@Event num) :=
  [Types text; ClicksSubmit; AnswerArrives result; ClicksSubmit].

Fixpoint exam_rounds (rounds : list (jsstring * AnswerResult.t)) : list (@Event num) :=
  match rounds with
  | [] => []
  | (text, result) :: rest => exam_round text result ++ exam_rounds rest
  end.

(** The requests such a run is expected to send, from question [index] on. *)
Fixpoint round_requests (session : option jsstring) (index : nat)
    (rounds : list (jsstring * AnswerResult.t)) : list AnswerRequest.t :=
  match rounds with
  | [] => []
  | (text, _) :: rest =>
      AnswerRequest.mk session index (trim text) :: round_requests session (S index) rest
  end.

(** Typing and the firing of one interval, nothing else. *)
Definition types_or_fires (id : positive) (e : @Event num) : bool :=
  match e with
  | Types _ => true
  | IntervalFires id' => bool_decide (id' = id)
  | _ => false
  end.

Definition is_fire (e : @Event num) : bool :=
  match e with
  | IntervalFires _ => true
  | _ => false
  end.

End Runs.

Section SessionKinds.
Context `{JsNumber num}.

(** The events whose handlers assign [state.wordPairs] or
    [state.wasTrainingSession]. *)
Definition loads_session (e : @Event num) : bool :=
  match e with
  | SessionArrives _ _ | ExamArrives _ | ClicksRetake | ClicksRestart => true
  | _ => false
  end.

End SessionKinds.

(** The answers fetched while the training moves on [k] words from the word
    at [index]: one request for each word shown. *)
Definition training_fetches (session : option jsstring) (index k : nat)
    : list QuestionRequest.t :=
  map (QuestionRequest.mk session) (seq (S index) k).

(** ** The list of mastered words of a lesson: [viewMasteredWords] *)

Module MasteredWord.
(** An element of [masteredWords]. *)
Record t := mk {
  greek : jsstring;
  bulgarian : jsstring;
  lastSeen : jsstring
}.
End MasteredWord.

(** What [viewMasteredWords] ends with: the alert "No mastered words
    found" and an early [return], or the modal showing the collected
    words. *)
Inductive MasteredView : Type :=
  | NoMasteredWords
  | MasteredWordsModal (masteredWords : list MasteredWord.t).

Section MasteredWords.
Context `{JsNumber num}.

(** [entry.lesson === lesson && entry.direction === direction && entry.correct] *)
Definition mastered_of (lesson : num) (direction : jsstring) (entry : Entry.t num) : bool :=
  bool_decide (Entry.lesson entry = lesson)
  && bool_decide (Entry.direction entry = direction)
  && Entry.correct entry.

(** The loop of [viewMasteredWords(lesson)] over [progress.wordProgress]. *)
Definition viewMasteredWords_collect (lesson : num) (direction : jsstring)
    (store : Storage num) : list MasteredWord.t :=
  let progress := getProgressData store in
  omap (λ kv : jsstring * Entry.t num,
          let entry := kv.2 in
          if mastered_of lesson direction entry
          then Some (MasteredWord.mk (Entry.greek entry) (Entry.bulgarian entry)
                       (Entry.lastSeen entry))
          else None)
       (map_to_list (ProgressData.wordProgress progress)).

(** [viewMasteredWords(lesson)]; [direction] is the value of the direction
    select.  The modal lists the collected words ordered by date, most
    recent first; the order is left out, so the list stands for the words
    shown and for their number ("Total mastered words"). *)
Definition viewMasteredWords (lesson : num) (direction : jsstring)
    (store : Storage num) : MasteredView :=
  let masteredWords := viewMasteredWords_collect lesson direction store in
  if bool_decide (length masteredWords = 0%nat)
  then NoMasteredWords
  else MasteredWordsModal masteredWords.

End MasteredWords.

(** * The Greek virtual keyboard

    The on-screen keyboard writes into the answer field that [submitAnswer]
    reads.  Its state is the set of active diacritic marks, the shift flag,
    the diacritic-editing flag, and the value and selection of the answer
    field.  Button highlighting, the key preview, the popup and the
    autocomplete dropdown only change how the page looks and are left
    out. *)

Module Keyboard.

(** The property names of [activeDiacritics]. *)
Inductive Diacritic :=
  | smoothBreathing
  | roughBreathing
  | acute
  | grave
  | circumflex
  | iotaSubscript
  | diaeresis.

#[export] Instance Diacritic_eq_dec : EqDecision Diacritic.
Proof. solve_decision. Defined.

Definition name (d : Diacritic) : string :=
  match d with
  | smoothBreathing => "smoothBreathing"
  | roughBreathing => "roughBreathing"
  | acute => "acute"
  | grave => "grave"
  | circumflex => "circumflex"
  | iotaSubscript => "iotaSubscript"
  | diaeresis => "diaeresis"
  end.

(** The object [activeDiacritics]. *)
Module Active.
Record t := mk {
  smoothBreathing : bool;
  roughBreathing : bool;
  acute : bool;
  grave : bool;
  circumflex : bool;
  iotaSubscript : bool;
  diaeresis : bool
}.
End Active.

(** [activeDiacritics[d]] *)
Definition active (d : Diacritic) (a : Active.t) : bool :=
  match d with
  | smoothBreathing => Active.smoothBreathing a
  | roughBreathing => Active.roughBreathing a
  | acute => Active.acute a
  | grave => Active.grave a
  | circumflex => Active.circumflex a
  | iotaSubscript => Active.iotaSubscript a
  | diaeresis => Active.diaeresis a
  end.

(** [activeDiacritics[d] = v] *)
Definition assign (d : Diacritic) (v : bool) (a : Active.t) : Active.t :=
  match d with
  | smoothBreathing =>
      Active.mk v (Active.roughBreathing a) (Active.acute a) (Active.grave a)
        (Active.circumflex a) (Active.iotaSubscript a) (Active.diaeresis a)
  | roughBreathing =>
      Active.mk (Active.smoothBreathing a) v (Active.acute a) (Active.grave a)
        (Active.circumflex a) (Active.iotaSubscript a) (Active.diaeresis a)
  | acute =>
      Active.mk (Active.smoothBreathing a) (Active.roughBreathing a) v (Active.grave a)
        (Active.circumflex a) (Active.iotaSubscript a) (Active.diaeresis a)
  | grave =>
      Active.mk (Active.smoothBreathing a) (Active.roughBreathing a) (Active.acute a) v
        (Active.circumflex a) (Active.iotaSubscript a) (Active.diaeresis a)
  | circumflex =>
      Active.mk (Active.smoothBreathing a) (Active.roughBreathing a) (Active.acute a)
        (Active.grave a) v (Active.iotaSubscript a) (Active.diaeresis a)
  | iotaSubscript =>
      Active.mk (Active.smoothBreathing a) (Active.roughBreathing a) (Active.acute a)
        (Active.grave a) (Active.circumflex a) v (Active.diaeresis a)
  | diaeresis =>
      Active.mk (Active.smoothBreathing a) (Active.roughBreathing a) (Active.acute a)
        (Active.grave a) (Active.circumflex a) (Active.iotaSubscript a) v
  end.

(** The keyboard's variables and the answer field. *)
Record t := mk {
  activeDiacritics : Active.t;
  shiftMode : bool;
  diacriticMode : bool;
  value : jsstring;          (* [answerInput.value] *)
  selectionStart : nat;      (* [answerInput.selectionStart] *)
  selectionEnd : nat         (* [answerInput.selectionEnd] *)
}.

Definition with_activeDiacritics (a : Active.t) (k : t) : t :=
  mk a (shiftMode k) (diacriticMode k) (value k) (selectionStart k) (selectionEnd k).

(** An entry of [diacriticMap]: the two plain letters and the marked ones
    by combination key. *)
Module CharMap.
Record t := mk {
  base : jsstring;
  upper : jsstring;
  combinations : list (string * jsstring)
}.
End CharMap.

Definition combo (key : string) (char : jsstring) : string * jsstring := (key, char).

(** [diacriticMap], keyed by the code unit of the base letter; the marked
    letters are given by their UTF-16 code units. *)
Definition diacriticMap : list (N * CharMap.t) :=
  [
  (945, (* alpha *)
   CharMap.mk [945] [913]
     [ combo "smoothBreathing" [7936]; combo "smoothBreathing+upper" [7944];
       combo "roughBreathing" [7937]; combo "roughBreathing+upper" [7945];
       combo "acute" [940]; combo "acute+upper" [902];
       combo "grave" [8048]; combo "grave+upper" [8122];
       combo "circumflex" [8118]; combo "circumflex+upper" [7950];
       combo "iotaSubscript" [8115]; combo "iotaSubscript+upper" [8124];
       combo "smoothBreathing+acute" [7940]; combo "smoothBreathing+acute+upper" [7948];
       combo "roughBreathing+acute" [7941]; combo "roughBreathing+acute+upper" [7949];
       combo "smoothBreathing+grave" [7938]; combo "smoothBreathing+grave+upper" [7946];
       combo "roughBreathing+grave" [7939]; combo "roughBreathing+grave+upper" [7947];
       combo "smoothBreathing+circumflex" [7942]; combo "smoothBreathing+circumflex+upper" [7950];
       combo "roughBreathing+circumflex" [7943]; combo "roughBreathing+circumflex+upper" [7951];
       combo "acute+iotaSubscript" [8116]; combo "acute+iotaSubscript+upper" [8076];
       combo "grave+iotaSubscript" [8114]; combo "grave+iotaSubscript+upper" [8074];
       combo "circumflex+iotaSubscript" [8119]; combo "circumflex+iotaSubscript+upper" [8078];
       combo "smoothBreathing+iotaSubscript" [8064]; combo "smoothBreathing+iotaSubscript+upper" [8072];
       combo "roughBreathing+iotaSubscript" [8065]; combo "roughBreathing+iotaSubscript+upper" [8073];
       combo "smoothBreathing+acute+iotaSubscript" [8068]; combo "smoothBreathing+acute+iotaSubscript+upper" [8076];
       combo "roughBreathing+acute+iotaSubscript" [8069]; combo "roughBreathing+acute+iotaSubscript+upper" [8077];
       combo "smoothBreathing+grave+iotaSubscript" [8066]; combo "smoothBreathing+grave+iotaSubscript+upper" [8074];
       combo "roughBreathing+grave+iotaSubscript" [8067]; combo "roughBreathing+grave+iotaSubscript+upper" [8075];
       combo "smoothBreathing+circumflex+iotaSubscript" [8070]; combo "smoothBreathing+circumflex+iotaSubscript+upper" [8078];
       combo "roughBreathing+circumflex+iotaSubscript" [8071]; combo "roughBreathing+circumflex+iotaSubscript+upper" [8079] ]);
  (949, (* epsilon *)
   CharMap.mk [949] [917]
     [ combo "smoothBreathing" [7952]; combo "smoothBreathing+upper" [7960];
       combo "roughBreathing" [7953]; combo "roughBreathing+upper" [7961];
       combo "acute" [941]; combo "acute+upper" [904];
       combo "grave" [8050]; combo "grave+upper" [8136];
       combo "smoothBreathing+acute" [7956]; combo "smoothBreathing+acute+upper" [7964];
       combo "roughBreathing+acute" [7957]; combo "roughBreathing+acute+upper" [7965];
       combo "smoothBreathing+grave" [7954]; combo "smoothBreathing+grave+upper" [7962];
       combo "roughBreathing+grave" [7955]; combo "roughBreathing+grave+upper" [7963] ]);
  (951, (* eta *)
   CharMap.mk [951] [919]
     [ combo "smoothBreathing" [7968]; combo "smoothBreathing+upper" [7976];
       combo "roughBreathing" [7969]; combo "roughBreathing+upper" [7977];
       combo "acute" [942]; combo "acute+upper" [905];
       combo "grave" [8052]; combo "grave+upper" [8138];
       combo "circumflex" [8134]; combo "circumflex+upper" [7982];
       combo "iotaSubscript" [8131]; combo "iotaSubscript+upper" [8140];
       combo "smoothBreathing+acute" [7972]; combo "smoothBreathing+acute+upper" [7980];
       combo "roughBreathing+acute" [7973]; combo "roughBreathing+acute+upper" [7981];
       combo "smoothBreathing+grave" [7970]; combo "smoothBreathing+grave+upper" [7978];
       combo "roughBreathing+grave" [7971]; combo "roughBreathing+grave+upper" [7979];
       combo "smoothBreathing+circumflex" [7974]; combo "smoothBreathing+circumflex+upper" [7982];
       combo "roughBreathing+circumflex" [7975]; combo "roughBreathing+circumflex+upper" [7983];
       combo "acute+iotaSubscript" [8132]; combo "acute+iotaSubscript+upper" [8092];
       combo "grave+iotaSubscript" [8130]; combo "grave+iotaSubscript+upper" [8090];
       combo "circumflex+iotaSubscript" [8135]; combo "circumflex+iotaSubscript+upper" [8094];
       combo "smoothBreathing+iotaSubscript" [8080]; combo "smoothBreathing+iotaSubscript+upper" [8088];
       combo "roughBreathing+iotaSubscript" [8081]; combo "roughBreathing+iotaSubscript+upper" [8089];
       combo "smoothBreathing+acute+iotaSubscript" [8084]; combo "smoothBreathing+acute+iotaSubscript+upper" [8092];
       combo "roughBreathing+acute+iotaSubscript" [8085]; combo "roughBreathing+acute+iotaSubscript+upper" [8093];
       combo "smoothBreathing+grave+iotaSubscript" [8082]; combo "smoothBreathing+grave+iotaSubscript+upper" [8090];
       combo "roughBreathing+grave+iotaSubscript" [8083]; combo "roughBreathing+grave+iotaSubscript+upper" [8091];
       combo "smoothBreathing+circumflex+iotaSubscript" [8086]; combo "smoothBreathing+circumflex+iotaSubscript+upper" [8094];
       combo "roughBreathing+circumflex+iotaSubscript" [8087]; combo "roughBreathing+circumflex+iotaSubscript+upper" [8095] ]);
  (953, (* iota *)
   CharMap.mk [953] [921]
     [ combo "smoothBreathing" [7984]; combo "smoothBreathing+upper" [7992];
       combo "roughBreathing" [7985]; combo "roughBreathing+upper" [7993];
       combo "acute" [943]; combo "acute+upper" [906];
       combo "grave" [8054]; combo "grave+upper" [8154];
       combo "circumflex" [8150]; combo "circumflex+upper" [7998];
       combo "diaeresis" [970]; combo "diaeresis+upper" [938];
       combo "smoothBreathing+acute" [7988]; combo "smoothBreathing+acute+upper" [7996];
       combo "roughBreathing+acute" [7989]; combo "roughBreathing+acute+upper" [7997];
       combo "smoothBreathing+grave" [7986]; combo "smoothBreathing+grave+upper" [7994];
       combo "roughBreathing+grave" [7987]; combo "roughBreathing+grave+upper" [7995];
       combo "smoothBreathing+circumflex" [7990]; combo "smoothBreathing+circumflex+upper" [7998];
       combo "roughBreathing+circumflex" [7991]; combo "roughBreathing+circumflex+upper" [7999];
       combo "diaeresis+acute" [912]; combo "diaeresis+acute+upper" [938; 769];
       combo "diaeresis+grave" [8146]; combo "diaeresis+grave+upper" [938; 768] ]);
  (959, (* omicron *)
   CharMap.mk [959] [927]
     [ combo "smoothBreathing" [8000]; combo "smoothBreathing+upper" [8008];
       combo "roughBreathing" [8001]; combo "roughBreathing+upper" [8009];
       combo "acute" [972]; combo "acute+upper" [908];
       combo "grave" [8056]; combo "grave+upper" [8184];
       combo "smoothBreathing+acute" [8004]; combo "smoothBreathing+acute+upper" [8012];
       combo "roughBreathing+acute" [8005]; combo "roughBreathing+acute+upper" [8013];
       combo "smoothBreathing+grave" [8002]; combo "smoothBreathing+grave+upper" [8010];
       combo "roughBreathing+grave" [8003]; combo "roughBreathing+grave+upper" [8011] ]);
  (965, (* upsilon *)
   CharMap.mk [965] [933]
     [ combo "smoothBreathing" [8016]; combo "smoothBreathing+upper" [933];
       combo "roughBreathing" [8017]; combo "roughBreathing+upper" [8025];
       combo "acute" [973]; combo "acute+upper" [910];
       combo "grave" [8058]; combo "grave+upper" [8170];
       combo "circumflex" [8166]; combo "circumflex+upper" [933; 787; 834];
       combo "diaeresis" [971]; combo "diaeresis+upper" [939];
       combo "smoothBreathing+acute" [8020]; combo "smoothBreathing+acute+upper" [933; 769];
       combo "roughBreathing+acute" [8021]; combo "roughBreathing+acute+upper" [8029];
       combo "smoothBreathing+grave" [8018]; combo "smoothBreathing+grave+upper" [8170];
       combo "roughBreathing+grave" [8019]; combo "roughBreathing+grave+upper" [8027];
       combo "smoothBreathing+circumflex" [8022]; combo "smoothBreathing+circumflex+upper" [933; 787; 834];
       combo "roughBreathing+circumflex" [8023]; combo "roughBreathing+circumflex+upper" [8031];
       combo "diaeresis+acute" [944]; combo "diaeresis+acute+upper" [939; 769];
       combo "diaeresis+grave" [8162]; combo "diaeresis+grave+upper" [939; 768] ]);
  (969, (* omega *)
   CharMap.mk [969] [937]
     [ combo "smoothBreathing" [8032]; combo "smoothBreathing+upper" [8040];
       combo "roughBreathing" [8033]; combo "roughBreathing+upper" [8041];
       combo "acute" [974]; combo "acute+upper" [911];
       combo "grave" [8060]; combo "grave+upper" [8186];
       combo "circumflex" [8182]; combo "circumflex+upper" [8046];
       combo "iotaSubscript" [8179]; combo "iotaSubscript+upper" [8188];
       combo "smoothBreathing+acute" [8036]; combo "smoothBreathing+acute+upper" [8044];
       combo "roughBreathing+acute" [8037]; combo "roughBreathing+acute+upper" [8045];
       combo "smoothBreathing+grave" [8034]; combo "smoothBreathing+grave+upper" [8042];
       combo "roughBreathing+grave" [8035]; combo "roughBreathing+grave+upper" [8043];
       combo "smoothBreathing+circumflex" [8038]; combo "smoothBreathing+circumflex+upper" [8046];
       combo "roughBreathing+circumflex" [8039]; combo "roughBreathing+circumflex+upper" [8047];
       combo "acute+iotaSubscript" [8180]; combo "acute+iotaSubscript+upper" [8108];
       combo "grave+iotaSubscript" [8178]; combo "grave+iotaSubscript+upper" [8106];
       combo "circumflex+iotaSubscript" [8183]; combo "circumflex+iotaSubscript+upper" [8110];
       combo "smoothBreathing+iotaSubscript" [8096]; combo "smoothBreathing+iotaSubscript+upper" [8104];
       combo "roughBreathing+iotaSubscript" [8097]; combo "roughBreathing+iotaSubscript+upper" [8105];
       combo "smoothBreathing+acute+iotaSubscript" [8100]; combo "smoothBreathing+acute+iotaSubscript+upper" [8108];
       combo "roughBreathing+acute+iotaSubscript" [8101]; combo "roughBreathing+acute+iotaSubscript+upper" [8109];
       combo "smoothBreathing+grave+iotaSubscript" [8098]; combo "smoothBreathing+grave+iotaSubscript+upper" [8106];
       combo "roughBreathing+grave+iotaSubscript" [8099]; combo "roughBreathing+grave+iotaSubscript+upper" [8107];
       combo "smoothBreathing+circumflex+iotaSubscript" [8102]; combo "smoothBreathing+circumflex+iotaSubscript+upper" [8110];
       combo "roughBreathing+circumflex+iotaSubscript" [8103]; combo "roughBreathing+circumflex+iotaSubscript+upper" [8111] ]);
  (961, (* rho *)
   CharMap.mk [961] [929]
     [ combo "smoothBreathing" [8164]; combo "smoothBreathing+upper" [929];
       combo "roughBreathing" [8165]; combo "roughBreathing+upper" [8172] ])
  ].

(** [diacriticMap[baseChar]] for a one-letter [baseChar]. *)
Definition diacriticMap_get (baseChar : N) : option CharMap.t :=
  snd <$> find (λ entry, bool_decide (fst entry = baseChar)) diacriticMap.

(** [charMap[combinationKey]] *)
Definition CharMap_get (combinationKey : string) (charMap : CharMap.t) : option jsstring :=
  snd <$> find (λ entry, bool_decide (fst entry = combinationKey))
            (CharMap.combinations charMap).

Definition accentMarks : list Diacritic := [acute; grave; circumflex].
Definition breathingMarks : list Diacritic := [smoothBreathing; roughBreathing].

(** [marks.forEach(mark => { if (mark !== diacriticName) activeDiacritics[mark] = false })] *)
Definition deactivate_others (marks : list Diacritic) (diacriticName : Diacritic)
    (a : Active.t) : Active.t :=
  foldl (λ a mark, if bool_decide (mark ≠ diacriticName) then assign mark false a else a)
    a marks.

(** [toggleDiacritic(diacriticName)] *)
Definition toggleDiacritic (diacriticName : Diacritic) (k : t) : t :=
  let a := activeDiacritics k in
  let a1 :=
    if bool_decide (diacriticName ∈ accentMarks)
    then deactivate_others accentMarks diacriticName a else a in
  let a2 :=
    if bool_decide (diacriticName ∈ breathingMarks)
    then deactivate_others breathingMarks diacriticName a1 else a1 in
  with_activeDiacritics (assign diacriticName (negb (active diacriticName a2)) a2) k.

(** Every flag of [activeDiacritics] is [false]. *)
Definition no_marks : Active.t := Active.mk false false false false false false false.

(** [resetDiacritics()] *)
Definition resetDiacritics (k : t) : t :=
  with_activeDiacritics no_marks k.

(** The marks in the order in which [getCombinedCharacter] tests them. *)
Definition key_order : list Diacritic :=
  [smoothBreathing; roughBreathing; acute; grave; circumflex; iotaSubscript; diaeresis].

(** [getCombinedCharacter(baseChar)] *)
Definition getCombinedCharacter (baseChar : N) (k : t) : jsstring :=
  match diacriticMap_get baseChar with
  | None => [baseChar]
  | Some charMap =>
      let activeParts :=
        name <$> filter (λ d, active d (activeDiacritics k) = true) key_order in
      let plain := if shiftMode k then CharMap.upper charMap else CharMap.base charMap in
      if bool_decide (length activeParts = 0%nat)
      then plain
      else
        let combinationKey :=
          String.append (String.concat "+" activeParts)
            (if shiftMode k then "+upper" else "") in
        match CharMap_get combinationKey charMap with
        | Some (c :: rest) => c :: rest
        | Some [] | None => plain
        end
  end.

(** [insertGreek(char)]: the selection is replaced by [char] and the cursor
    is put behind it; [setSelectionRange] clamps to the length of the
    value. *)
Definition insertGreek (char : jsstring) (k : t) : t :=
  let start := selectionStart k in
  let end_ := selectionEnd k in
  let text := value k in
  let value' := take start text ++ char ++ drop end_ text in
  let newPos := (start + length char)%nat in
  mk (activeDiacritics k) (shiftMode k) (diacriticMode k) value'
     (newPos `min` length value') (newPos `min` length value').

(** [toggleShift()] *)
Definition toggleShift (k : t) : t :=
  mk (activeDiacritics k) (negb (shiftMode k)) (diacriticMode k) (value k)
     (selectionStart k) (selectionEnd k).

(** [insertGreekLetter(lowerChar, upperChar)] *)
Definition insertGreekLetter (lowerChar upperChar : jsstring) (k : t) : t :=
  let charToInsert := if shiftMode k then upperChar else lowerChar in
  let k1 := insertGreek charToInsert k in
  if shiftMode k1 then toggleShift k1 else k1.

(** [insertVowelWithDiacritics(baseVowel)] *)
Definition insertVowelWithDiacritics (baseVowel : N) (k : t) : t :=
  let combinedChar := getCombinedCharacter baseVowel k in
  let k1 := insertGreek combinedChar k in
  let k2 := resetDiacritics k1 in
  if shiftMode k2 then toggleShift k2 else k2.

(** [replaceDiacritic(position, newChar)]: the code unit at [position] is
    replaced by [newChar].  Assigning a different value to [input.value]
    moves the cursor to the end of the field; assigning the same value
    leaves the selection alone. *)
Definition replaceDiacritic (position : nat) (newChar : jsstring) (k : t) : t :=
  let text := value k in
  let value' := take position text ++ newChar ++ drop (position + 1) text in
  if bool_decide (value' = text)
  then mk (activeDiacritics k) (shiftMode k) false value'
         (selectionStart k) (selectionEnd k)
  else mk (activeDiacritics k) (shiftMode k) false value' (length value') (length value').

(** What can be pressed on the keyboard. *)
Inductive Key :=
  | PressDiacritic (diacriticName : Diacritic)
  | PressVowel (baseVowel : N)
  | PressLetter (lowerChar upperChar : jsstring)
  | PressShift
  | PickVariant (position : nat) (newChar : jsstring).

Definition press (key : Key) (k : t) : t :=
  match key with
  | PressDiacritic diacriticName => toggleDiacritic diacriticName k
  | PressVowel baseVowel => insertVowelWithDiacritics baseVowel k
  | PressLetter lowerChar upperChar => insertGreekLetter lowerChar upperChar k
  | PressShift => toggleShift k
  | PickVariant position newChar => replaceDiacritic position newChar k
  end.

Definition presses (keys : list Key) (k : t) : t := foldl (λ k key, press key k) k keys.

(** The keyboard as the script initialises it, on an answer field holding
    [text] with the selection from [start] to [end_]. *)
Definition initial (text : jsstring) (start end_ : nat) : t :=
  mk no_marks false false text start end_.

(** At most one accent and at most one breathing is active. *)
Definition exclusive (a : Active.t) : Prop :=
  (length (filter (λ d, active d a = true) accentMarks) ≤ 1)%nat
  ∧ (length (filter (λ d, active d a = true) breathingMarks) ≤ 1)%nat.

(** The selection lies inside the value, as the browser keeps it. *)
Definition selection_ok (k : t) : Prop :=
  (selectionStart k ≤ selectionEnd k ≤ length (value k))%nat.

End Keyboard.

(** ** More concrete pages *)

(** The page once the one-question exam has been loaded. *)
Definition sample_exam : World.t Z :=
  startSession_resolved exam sample_data (World.mk sample_state sample_page).

(** A reply with two words whose keys collide: the rough-breathing
    articles [U+1F41] and [U+1F21] lie outside [α-ω] and are deleted. *)
Definition sample_pair_data : QuizData.t Z :=
  QuizData.mk (u16 "session-2")
    [Question.mk [8001] (u16 "Translate"); Question.mk [7969] (u16 "Translate")]
    [WordPair.mk [8001] [1095; 1083; 1077; 1085] (Some 1%Z);
     WordPair.mk [7969] [1095; 1083; 1077; 1085] (Some 1%Z)] 5.

Definition sample_answer : AnswerResult.t :=
  AnswerResult.mk true false (u16 "x") (u16 "x") false.

(** The keyboard on an answer field holding [λογος] with [γο] selected. *)
Definition sample_keyboard : Keyboard.t :=
  Keyboard.initial [955; 959; 947; 959; 962] 2 4.

(** * Properties *)

(** ** Word identity *)

Section WordKeyFacts.

Lemma bool_eq_by_lia (a b : bool) : (a = true ↔ b = true) → a = b.
Proof. destruct a, b; intuition congruence. Qed.

Lemma in_range_spec (lo hi c : N) : in_range lo hi c = true ↔ lo ≤ c ≤ hi.
Proof. unfold in_range. rewrite andb_true_iff, !N.leb_le. done. Qed.

Lemma word_char_spec (c : N) :
  word_char c = true ↔ 65 ≤ c ≤ 90 ∨ 97 ≤ c ≤ 122 ∨ 48 ≤ c ≤ 57 ∨ c = 95.
Proof.
  unfold word_char, underscore.
  rewrite !orb_true_iff, !in_range_spec, N.eqb_eq. tauto.
Qed.

Lemma greek_kept_spec (c : N) :
  greek_kept c = true ↔ word_char c = true ∨ 945 ≤ c ≤ 969 ∨ 913 ≤ c ≤ 937.
Proof. unfold greek_kept. rewrite !orb_true_iff, !in_range_spec. tauto. Qed.

Lemma bulgarian_kept_spec (c : N) :
  bulgarian_kept c = true ↔ word_char c = true ∨ 1072 ≤ c ≤ 1103 ∨ 1040 ≤ c ≤ 1071.
Proof. unfold bulgarian_kept. rewrite !orb_true_iff, !in_range_spec. tauto. Qed.

Lemma is_capital_spec (c : N) :
  is_capital c = true ↔ 65 ≤ c ≤ 90 ∨ 913 ≤ c ≤ 937 ∧ c ≠ 930 ∨ 1040 ≤ c ≤ 1071.
Proof.
  unfold is_capital.
  rewrite !orb_true_iff, andb_true_iff, negb_true_iff, !in_range_spec, N.eqb_neq. tauto.
Qed.

Lemma is_cased_spec (c : N) :
  is_cased c = true
  ↔ is_capital c = true ∨ 97 ≤ c ≤ 122 ∨ 945 ≤ c ≤ 969 ∨ 1072 ≤ c ≤ 1103.
Proof. unfold is_cased. rewrite !orb_true_iff, !in_range_spec. tauto. Qed.

Lemma case_pair_capital (u l : N) :
  case_pair u l →
  (65 ≤ u ≤ 90 ∨ 913 ≤ u ≤ 937 ∧ u ≠ 930 ∨ 1040 ≤ u ≤ 1071) ∧ u ≠ 931 ∧ l = u + 32.
Proof. intros (Hcap & Hsigma & ->). apply is_capital_spec in Hcap. done. Qed.

(** Both classes treat the two cases of a letter alike. *)
Lemma greek_kept_case (u l : N) : case_pair u l → greek_kept u = greek_kept l.
Proof.
  intros Hp. apply case_pair_capital in Hp as (Hu & _ & ->).
  apply bool_eq_by_lia. rewrite !greek_kept_spec, !word_char_spec. lia.
Qed.

Lemma bulgarian_kept_case (u l : N) : case_pair u l → bulgarian_kept u = bulgarian_kept l.
Proof.
  intros Hp. apply case_pair_capital in Hp as (Hu & _ & ->).
  apply bool_eq_by_lia. rewrite !bulgarian_kept_spec, !word_char_spec. lia.
Qed.

Lemma case_pair_lower (u l : N) :
  case_pair u l →
  is_cased u = is_cased l ∧ (u =? capital_sigma) = false ∧ (l =? capital_sigma) = false
  ∧ lower_unit u = lower_unit l.
Proof.
  intros Hp. pose proof Hp as (Hcap & _ & _).
  apply case_pair_capital in Hp as (Hu & Hsigma & ->).
  assert (Hsmall : is_capital (u + 32) = false).
  { apply not_true_is_false. rewrite is_capital_spec. lia. }
  split; [|split; [|split]].
  - apply bool_eq_by_lia. rewrite !is_cased_spec, Hcap, Hsmall. lia.
  - apply N.eqb_neq. unfold capital_sigma. lia.
  - apply N.eqb_neq. unfold capital_sigma. lia.
  - unfold lower_unit. by rewrite Hcap, Hsmall.
Qed.

Lemma lower_from_alike (s t : jsstring) :
  Forall2 lowers_alike s t → ∀ prev_cased, lower_from prev_cased s = lower_from prev_cased t.
Proof.
  induction 1 as [|c d s t Hcd Hst IH]; intros prev_cased; simpl; [done|].
  assert (Hnext : next_cased s = next_cased t).
  { destruct Hst as [|c' d' s' t' Hcd' _]; simpl; [done|].
    destruct Hcd' as [->|[Hp|Hp]]; [done|..]; apply case_pair_lower in Hp; [|symmetry];
      tauto. }
  destruct Hcd as [->|[Hp|Hp]].
  - by rewrite Hnext, IH.
  - apply case_pair_lower in Hp as (Hcased & -> & -> & Hlow).
    by rewrite Hcased, Hlow, IH.
  - apply case_pair_lower in Hp as (Hcased & -> & -> & Hlow).
    by rewrite Hcased, Hlow, IH.
Qed.

Lemma same_spelling_replace (kept : N → bool) (s t : jsstring) :
  (∀ u l, case_pair u l → kept u = kept l) →
  same_spelling kept s t →
  Forall2 lowers_alike (replace_outside kept s) (replace_outside kept t).
Proof.
  intros Hcase. unfold replace_outside.
  induction 1 as [|c s t _ IH|u l s t Hp _ IH|u l s t Hp _ IH
                  |c s t Hc _ IH|c s t Hc _ IH]; simpl.
  - constructor.
  - rewrite !filter_cons. destruct (decide (kept c = true)); [|done].
    constructor; [by left|done].
  - rewrite !filter_cons. rewrite <- (Hcase u l Hp).
    destruct (decide (kept u = true)); [|done].
    constructor; [right; by left|done].
  - rewrite !filter_cons. rewrite <- (Hcase u l Hp).
    destruct (decide (kept u = true)); [|done].
    constructor; [right; by right|done].
  - rewrite filter_cons. rewrite decide_False; [done|]. by rewrite Hc.
  - rewrite filter_cons. rewrite decide_False; [done|]. by rewrite Hc.
Qed.


Section SameWord.
Variable kept : N → bool.
Hypothesis kept_case : ∀ u l, case_pair u l → kept u = kept l.
Hypothesis kept_sigma :
  kept capital_sigma = true → kept final_sigma = true ∧ kept small_sigma = true.



(** Spellings related without any capital sigma are related here too. *)
Lemma same_spelling_same_word (s t : jsstring) :
  same_spelling kept s t → ∀ prev_cased, same_word kept prev_cased s t.
Proof.
  induction 1 as [|c s t _ IH|u l s t Hp _ IH|u l s t Hp _ IH
                  |c s t Hc _ IH|c s t Hc _ IH]; intros prev_cased.
  - apply word_end.
  - destruct (kept c) eqn:Hc.
    + by apply word_unit.
    + apply word_dropped_left; [done|]. by apply word_dropped_right.
  - destruct (kept u) eqn:Hu.
    + by apply word_capital_left.
    + apply word_dropped_left; [done|]. apply word_dropped_right; [|done].
      by rewrite <- (kept_case u l Hp).
  - destruct (kept u) eqn:Hu.
    + by apply word_capital_right.
    + apply word_dropped_left; [by rewrite <- (kept_case u l Hp)|].
      by apply word_dropped_right.
  - by apply word_dropped_left.
  - by apply word_dropped_right.
Qed.

End SameWord.


End WordKeyFacts.

(** [ΛΟΓΟΣ] lowers to [λογος] with the final sigma, [ΣΟΦΟΣ] keeps the
    ordinary small sigma in front. *)
Example toLowerCase_final_sigma :
  toLowerCase [923; 927; 915; 927; 931] = [955; 959; 947; 959; 962]
  ∧ toLowerCase [931; 927; 934; 927; 931] = [963; 959; 966; 959; 962].
Proof. split; reflexivity. Qed.

(** Punctuation marks and the space are outside both classes, the
    underscore excepted. *)
Lemma punctuation_dropped :
  Forall (λ c, greek_kept c = false ∧ bulgarian_kept c = false)
    (u16 " .,;:!?()[]-'").
Proof. repeat constructor. Qed.

Lemma punctuation_rejected (c : N) :
  is_punctuation c = true → c ≠ underscore →
  greek_kept c = false ∧ bulgarian_kept c = false.
Proof.
  unfold is_punctuation, underscore.
  rewrite !orb_true_iff, !in_range_spec. intros Hc Hne.
  split; apply not_true_is_false.
  - rewrite greek_kept_spec, word_char_spec. lia.
  - rewrite bulgarian_kept_spec, word_char_spec. lia.
Qed.




(** ** [getProgressData] on arbitrary persisted content *)

Section RawFacts.
Context `{JsNumber num}.

Lemma assoc_get_set (k : jsstring) (v : Json.jsval num) props :
  Json.assoc_get k (Json.assoc_set k v props) = Some v.
Proof.
  induction props as [|[k' v'] rest IH]; simpl.
  - by rewrite decide_True.
  - destruct (decide (k' = k)) as [->|Hne]; simpl.
    + by rewrite decide_True.
    + by rewrite decide_False.
Qed.

Lemma getProgressData_returns (strict : bool) (item : Json.stored num) :
  ∃ v, Json.getProgressData strict item = Json.Normal v.
Proof.
  unfold Json.getProgressData.
  destruct (Json.getProgressData_try strict item); eauto.
Qed.

Lemma default_progress_has_map : Json.has_wordProgress_map (Json.default_progress (num:=num)).
Proof.
  exists [(Json.wordProgress_name, Json.JObj []); (Json.version_name, Json.JNum (num_of_nat 1))], [].
  split; reflexivity.
Qed.

(** The typed store is content [getProgressData] hands back unchanged. *)
Lemma getProgressData_encoded (strict : bool) (store : Storage num) :
  Json.getProgressData strict (encode_storage store)
  = Json.Normal (encode_progress (getProgressData store)).
Proof.
  destruct store as [p|]; simpl.
  - reflexivity.
  - reflexivity.
Qed.

(** C9 (as amended): [getProgressData] never lets an exception out.  It
    returns the default progress object when the item is absent or empty,
    when [JSON.parse] throws and when the content parses to [null]; a parsed
    object comes back with [wordProgress] set to an empty map when that
    property was missing or falsy, and comes back as parsed when the
    property is truthy, whatever it holds. *)
Theorem C9_getProgressData_total_with_fallback (strict : bool) :
  (∀ item : Json.stored num, ∃ v, Json.getProgressData strict item = Json.Normal v)
  ∧ Json.getProgressData strict Json.Absent = Json.Normal (Json.default_progress (num:=num))
  ∧ Json.getProgressData strict Json.Malformed = Json.Normal (Json.default_progress (num:=num))
  ∧ Json.getProgressData strict (Json.Parsed Json.JNull)
    = Json.Normal (Json.default_progress (num:=num))
  ∧ Json.has_wordProgress_map (Json.default_progress (num:=num))
  ∧ (∀ props : list (jsstring * Json.jsval num),
       Json.getProgressData strict (Json.Parsed (Json.JObj props))
       = Json.Normal
           (Json.JObj
              (if Json.truthy (Json.assoc_get Json.wordProgress_name props)
               then props
               else Json.assoc_set Json.wordProgress_name (Json.JObj []) props)))
  ∧ (∀ props : list (jsstring * Json.jsval num),
       Json.has_wordProgress_map
         (Json.JObj (Json.assoc_set Json.wordProgress_name (Json.JObj []) props))).
Proof.
  split; [intros item; apply getProgressData_returns|].
  repeat split; try reflexivity.
  - apply default_progress_has_map.
  - intros props. unfold Json.getProgressData, Json.getProgressData_try. simpl.
    by destruct (Json.truthy _).
  - intros props. eexists _, []. split; [reflexivity|]. apply assoc_get_set.
Qed.

End RawFacts.

(** C9, where the claim fails: the stored text [{"wordProgress":5}] is valid
    JSON and comes back as parsed; its [wordProgress] is the number 5, not a
    map. *)
Lemma C9_counterexample_wordProgress_not_a_map :
  Json.getProgressData false
    (Json.Parsed (Json.JObj [(Json.wordProgress_name, Json.JNum 5%Z)]))
  = Json.Normal (Json.JObj [(Json.wordProgress_name, Json.JNum 5%Z)])
  ∧ Json.getProgressData true
      (Json.Parsed (Json.JObj [(Json.wordProgress_name, Json.JNum 5%Z)]))
    = Json.Normal (Json.JObj [(Json.wordProgress_name, Json.JNum 5%Z)])
  ∧ ¬ Json.has_wordProgress_map (Json.JObj [(Json.wordProgress_name, Json.JNum 5%Z)]).
Proof.
  split; [reflexivity|]. split; [reflexivity|].
  intros (props & m & Heq & Hget).
  injection Heq as <-. vm_compute in Hget. discriminate.
Qed.

(** ** The ledger: reset and statistics *)

Section LedgerFacts.
Context `{JsNumber num}.
Implicit Types (wp : gmap jsstring (Entry.t num)) (store : Storage num).

Lemma lookup_foldl_delete wp (keys : list jsstring) (key : jsstring) :
  foldl (λ m k, delete k m) wp keys !! key
  = if decide (key ∈ keys) then None else wp !! key.
Proof.
  revert wp. induction keys as [|k keys IH]; intros wp; simpl.
  - reflexivity.
  - rewrite IH. destruct (decide (key = k)) as [->|Hne].
    + rewrite lookup_delete_eq.
      rewrite (decide_True (P := k ∈ k :: keys)) by apply list_elem_of_here.
      by destruct (decide (k ∈ keys)).
    + rewrite lookup_delete_ne by done.
      destruct (decide (key ∈ keys)) as [Hin|Hnin].
      * rewrite decide_True; [done|]. by apply list_elem_of_further.
      * rewrite decide_False; [done|]. rewrite elem_of_cons. by intros [?|?].
Qed.

Lemma elem_of_selected_keys (P : Entry.t num → bool) wp (key : jsstring) :
  key ∈ (filter (λ kv : jsstring * Entry.t num, P kv.2 = true) (map_to_list wp)).*1
  ↔ ∃ entry, wp !! key = Some entry ∧ P entry = true.
Proof.
  rewrite list_elem_of_fmap. split.
  - intros ([k e] & -> & Hin). apply list_elem_of_filter in Hin as [HP Hin].
    apply elem_of_map_to_list in Hin. eauto.
  - intros (e & Hlk & HP). exists (key, e). split; [done|].
    apply list_elem_of_filter. split; [done|]. by apply elem_of_map_to_list.
Qed.

Lemma reset_selects_spec (lessons : list num) (direction : jsstring) (entry : Entry.t num) :
  reset_selects lessons direction entry = true
  ↔ Entry.lesson entry ∈ lessons ∧ Entry.direction entry = direction.
Proof.
  unfold reset_selects. rewrite andb_true_iff, !bool_decide_eq_true. done.
Qed.

(** C7: [resetProgress(lessons, direction)] deletes exactly the entries
    whose lesson is in [lessons] and whose direction is [direction]; every
    other key of the ledger keeps its entry (and absent keys stay absent),
    and the version field is kept. *)
Theorem C7_resetProgress_deletes_exactly_the_selection
    (lessons : list num) (direction : jsstring) store :
  (∀ key : jsstring,
     ProgressData.wordProgress (getProgressData (resetProgress lessons direction store)) !! key
     = match ProgressData.wordProgress (getProgressData store) !! key with
       | Some entry =>
           if decide (Entry.lesson entry ∈ lessons ∧ Entry.direction entry = direction)
           then None
           else Some entry
       | None => None
       end)
  ∧ ProgressData.version (getProgressData (resetProgress lessons direction store))
    = ProgressData.version (getProgressData store).
Proof.
  split; [|reflexivity].
  intros key. unfold resetProgress, saveProgressData. simpl.
  rewrite lookup_foldl_delete.
  set (wp := ProgressData.wordProgress (getProgressData store)).
  destruct (decide (key ∈ _)) as [Hin|Hnin].
  - apply elem_of_selected_keys in Hin as (entry & Hlk & Hsel).
    rewrite Hlk. apply reset_selects_spec in Hsel. by rewrite decide_True.
  - destruct (wp !! key) as [entry|] eqn:Hlk; [|done].
    rewrite decide_False; [done|]. intros Hsel. apply Hnin.
    apply elem_of_selected_keys. exists entry. split; [done|].
    by apply reset_selects_spec.
Qed.

End LedgerFacts.

Section StatsFacts.
Context `{JsNumber num} `{JsArith num}.

Lemma count_loop_length {A : Type} (P : A → bool) (l : list A) (n : nat) :
  foldl (λ (count : nat) (x : A), if P x then S count else count) n l
  = (n + length (filter (λ x, P x = true) l))%nat.
Proof.
  revert n. induction l as [|x l IH]; intros n; simpl.
  - lia.
  - rewrite IH, filter_cons. destruct (decide (P x = true)) as [HP|HP].
    + rewrite HP. simpl. lia.
    + apply not_true_is_false in HP. rewrite HP. lia.
Qed.

(** The entries the statistics are about. *)
Lemma stats_counts_spec (lessons : list num) (direction : jsstring) (entry : Entry.t num) :
  stats_counts lessons direction entry = true
  ↔ Entry.correct entry = true ∧ Entry.lesson entry ∈ lessons
    ∧ Entry.direction entry = direction.
Proof.
  unfold stats_counts. rewrite !andb_true_iff, !bool_decide_eq_true. tauto.
Qed.

(** C8: [getProgressStats] counts exactly the ledger entries that are marked
    correct and match the lessons and the direction; the percentage is
    [Math.round((correctCount / totalWords) * 100)] when [totalWords > 0]
    and the literal [0] otherwise, so with [totalWords = 0] nothing is
    divided and the result is [0]. *)
Theorem C8_getProgressStats_counts_and_guards_division
    (lessons : list num) (direction : jsstring) (totalWords : num) (store : Storage num) :
  let stats := getProgressStats lessons direction totalWords store in
  ProgressStats.correctCount stats
  = size (filter (λ kv : jsstring * Entry.t num,
                    Entry.correct kv.2 = true ∧ Entry.lesson kv.2 ∈ lessons
                    ∧ Entry.direction kv.2 = direction)
            (ProgressData.wordProgress (getProgressData store)))
  ∧ ProgressStats.totalWords stats = totalWords
  ∧ ProgressStats.percentage stats
    = (if num_gtb totalWords (num_of_nat 0)
       then Math_round
              (num_mul (num_div (num_of_nat (ProgressStats.correctCount stats)) totalWords)
                 (num_of_nat 100))
       else num_of_nat 0)
  ∧ ProgressStats.percentage
      (getProgressStats lessons direction (num_of_nat 0) store) = num_of_nat 0.
Proof.
  simpl. split; [|split; [reflexivity|split; [reflexivity|]]].
  - rewrite count_loop_length. simpl.
    rewrite <- length_map_to_list. apply Permutation_length.
    apply NoDup_Permutation.
    + apply NoDup_filter, NoDup_map_to_list.
    + apply NoDup_map_to_list.
    + intros [key entry]. rewrite list_elem_of_filter, !elem_of_map_to_list.
      rewrite map_lookup_filter_Some. simpl. rewrite stats_counts_spec. tauto.
  - by rewrite num_gtb_irrefl.
Qed.

End StatsFacts.

(** ** The ledger: what a summary writes *)

Section SummaryFacts.
Context `{JsNumber num}.
Implicit Types (wp : gmap jsstring (Entry.t num)) (store : Storage num).
Implicit Types (answers : list (option AnswerResult.t)) (wordPair : WordPair.t num).

Lemma forEach_from_app {A B : Type} (f : B → nat → A → B) (l1 l2 : list A)
    (index : nat) (acc : B) :
  forEach_from f index (l1 ++ l2) acc
  = forEach_from f (index + length l1) l2 (forEach_from f index l1 acc).
Proof.
  revert index acc. induction l1 as [|x l1 IH]; intros index acc; simpl.
  - by rewrite Nat.add_0_r.
  - rewrite IH. f_equal. lia.
Qed.

(** One iteration either inserts the entry of a pair that earns mastery,
    or leaves the ledger alone. *)
Lemma saveQuizProgress_each_ledger direction clock answers wp (saved skipped index : nat)
    wordPair :
  (∃ lesson, earns_mastery answers index wordPair lesson
     ∧ (saveQuizProgress_each direction clock answers (wp, saved, skipped) index wordPair).1.1
       = <[key_of direction wordPair lesson := entry_of direction clock index wordPair lesson]> wp)
  ∨ ((∀ lesson, ¬ earns_mastery answers index wordPair lesson)
     ∧ (saveQuizProgress_each direction clock answers (wp, saved, skipped) index wordPair).1.1
       = wp).
Proof.
  unfold saveQuizProgress_each, earns_mastery.
  destruct (WordPair.lesson wordPair) as [lesson|] eqn:Hlesson.
  2: { right. split; [|done]. intros lesson (? & _). discriminate. }
  destruct (num_truthy lesson) eqn:Htruthy; simpl.
  2: { right. split; [|done]. intros l (Hl & Ht & _). congruence. }
  destruct (answers !! index) as [[a|]|] eqn:Hanswer.
  2,3: right; split; [|done]; intros l (_ & _ & a & Ha & _); discriminate.
  fold (full_verdict a). destruct (full_verdict a) eqn:Hfull.
  - left. exists lesson. split; [|done]. eauto.
  - right. split; [|done]. intros l (_ & _ & a' & Ha & Hf). congruence.
Qed.

Lemma forEach_from_triple {A : Type}
    (f : gmap jsstring (Entry.t num) * nat * nat → nat → A
         → gmap jsstring (Entry.t num) * nat * nat)
    (index : nat) (l : list A) acc :
  ∃ wp saved skipped, forEach_from f index l acc = (wp, saved, skipped).
Proof. destruct (forEach_from f index l acc) as [[wp saved] skipped]. eauto. Qed.

(** The ledger after the loop, key by key. *)
Lemma saveQuizProgress_loop_lookup direction clock answers
    (wordPairs : list (WordPair.t num)) wp (key : jsstring) :
  let after := (saveQuizProgress_loop direction clock wordPairs answers wp).1.1 in
  ((∀ index wordPair lesson,
      wordPairs !! index = Some wordPair → earns_mastery answers index wordPair lesson →
      key_of direction wordPair lesson ≠ key) →
   after !! key = wp !! key)
  ∧ (∀ index wordPair lesson,
      wordPairs !! index = Some wordPair → earns_mastery answers index wordPair lesson →
      key_of direction wordPair lesson = key →
      ∃ index' wordPair' lesson',
        (index ≤ index')%nat ∧ wordPairs !! index' = Some wordPair'
        ∧ earns_mastery answers index' wordPair' lesson'
        ∧ key_of direction wordPair' lesson' = key
        ∧ (∀ later wordPair'' lesson'',
             (index' < later)%nat → wordPairs !! later = Some wordPair'' →
             earns_mastery answers later wordPair'' lesson'' →
             key_of direction wordPair'' lesson'' ≠ key)
        ∧ after !! key = Some (entry_of direction clock index' wordPair' lesson')).
Proof.
  unfold saveQuizProgress_loop.
  induction wordPairs as [|last front IH] using rev_ind; simpl.
  - split; [done|]. intros index wordPair lesson Hlk. by rewrite lookup_nil in Hlk.
  - rewrite forEach_from_app. simpl.
    destruct (forEach_from_triple (saveQuizProgress_each direction clock answers) 0 front
                (wp, 0%nat, 0%nat)) as (wp1 & saved & skipped & Hloop).
    rewrite Hloop in IH |- *. simpl in IH. destruct IH as [IHkeep IHwrite].
    destruct (saveQuizProgress_each_ledger direction clock answers wp1 saved skipped
                (length front) last) as [(lesson0 & Hearn & ->)|[Hnot ->]].
    + (* the last pair writes *)
      destruct (decide (key_of direction last lesson0 = key)) as [Hkey|Hkey].
      * split.
        { intros Hnone. exfalso. eapply (Hnone (length front)); [|done..].
          by rewrite lookup_app_r, Nat.sub_diag. }
        intros index wordPair lesson Hlk _ _.
        exists (length front), last, lesson0.
        apply lookup_lt_Some in Hlk as Hlt. rewrite length_app in Hlt. simpl in Hlt.
        split; [lia|]. split; [by rewrite lookup_app_r, Nat.sub_diag|].
        split; [done|]. split; [done|]. split.
        { intros later w l Hlater Hlk' _ _. apply lookup_lt_Some in Hlk'.
          rewrite length_app in Hlk'. simpl in Hlk'. lia. }
        rewrite <- Hkey. apply lookup_insert_eq.
      * rewrite lookup_insert_ne by done. split.
        { intros Hnone. apply IHkeep. intros index wordPair lesson Hlk.
          apply Hnone. rewrite lookup_app_l; [done|]. by eapply lookup_lt_Some. }
        intros index wordPair lesson Hlk Hearn' Hk.
        destruct (decide (index < length front)%nat) as [Hlt|Hge].
        -- rewrite lookup_app_l in Hlk by done.
           destruct (IHwrite index wordPair lesson Hlk Hearn' Hk)
             as (i' & w' & l' & Hle & Hlk' & He' & Hk' & Hlast & Hafter).
           exists i', w', l'. split; [done|].
           split; [rewrite lookup_app_l; [done|]; by eapply lookup_lt_Some|].
           split; [done|]. split; [done|]. split; [|done].
           intros later w'' l'' Hlater Hlk'' He''.
           destruct (decide (later < length front)%nat) as [Hl|Hl].
           ++ rewrite lookup_app_l in Hlk'' by done. by eapply Hlast.
           ++ apply lookup_lt_Some in Hlk'' as Hb. rewrite length_app in Hb. simpl in Hb.
              assert (later = length front) as -> by lia.
              rewrite lookup_app_r, Nat.sub_diag in Hlk'' by lia. simpl in Hlk''.
              injection Hlk'' as <-. destruct Hearn as (Hl0 & _), He'' as (Hl'' & _).
              assert (l'' = lesson0) as -> by congruence. done.
        -- apply lookup_lt_Some in Hlk as Hb. rewrite length_app in Hb. simpl in Hb.
           assert (index = length front) as -> by lia.
           rewrite lookup_app_r, Nat.sub_diag in Hlk by lia. simpl in Hlk.
           injection Hlk as <-. destruct Hearn as (Hl0 & _), Hearn' as (Hl' & _).
           assert (lesson = lesson0) as -> by congruence. done.
    + (* the last pair writes nothing *)
      split.
      { intros Hnone. apply IHkeep. intros index wordPair lesson Hlk.
        apply Hnone. rewrite lookup_app_l; [done|]. by eapply lookup_lt_Some. }
      intros index wordPair lesson Hlk Hearn' Hk.
      destruct (decide (index < length front)%nat) as [Hlt|Hge].
      * rewrite lookup_app_l in Hlk by done.
        destruct (IHwrite index wordPair lesson Hlk Hearn' Hk)
          as (i' & w' & l' & Hle & Hlk' & He' & Hk' & Hlast & Hafter).
        exists i', w', l'. split; [done|].
        split; [rewrite lookup_app_l; [done|]; by eapply lookup_lt_Some|].
        split; [done|]. split; [done|]. split; [|done].
        intros later w'' l'' Hlater Hlk'' He''.
        destruct (decide (later < length front)%nat) as [Hl|Hl].
        -- rewrite lookup_app_l in Hlk'' by done. by eapply Hlast.
        -- apply lookup_lt_Some in Hlk'' as Hb. rewrite length_app in Hb. simpl in Hb.
           assert (later = length front) as -> by lia.
           rewrite lookup_app_r, Nat.sub_diag in Hlk'' by lia. simpl in Hlk''.
           injection Hlk'' as <-. by apply Hnot in He''.
      * apply lookup_lt_Some in Hlk as Hb. rewrite length_app in Hb. simpl in Hb.
        assert (index = length front) as -> by lia.
        rewrite lookup_app_r, Nat.sub_diag in Hlk by lia. simpl in Hlk.
        injection Hlk as <-. by apply Hnot in Hearn'.
Qed.

(** Every key either keeps what it held or holds the entry of a pair that
    earned mastery. *)
Lemma saveQuizProgress_loop_kept_or_written direction clock answers
    (wordPairs : list (WordPair.t num)) wp (key : jsstring) :
  let after := (saveQuizProgress_loop direction clock wordPairs answers wp).1.1 in
  after !! key = wp !! key
  ∨ ∃ index wordPair lesson,
      wordPairs !! index = Some wordPair ∧ earns_mastery answers index wordPair lesson
      ∧ key_of direction wordPair lesson = key
      ∧ after !! key = Some (entry_of direction clock index wordPair lesson).
Proof.
  unfold saveQuizProgress_loop.
  induction wordPairs as [|last front IH] using rev_ind; simpl.
  - by left.
  - rewrite forEach_from_app. simpl.
    destruct (forEach_from_triple (saveQuizProgress_each direction clock answers) 0 front
                (wp, 0%nat, 0%nat)) as (wp1 & saved & skipped & Hloop).
    rewrite Hloop in IH |- *. simpl in IH.
    assert (Hfront : wp1 !! key = wp !! key
              ∨ ∃ index wordPair lesson,
                  (front ++ [last]) !! index = Some wordPair
                  ∧ earns_mastery answers index wordPair lesson
                  ∧ key_of direction wordPair lesson = key
                  ∧ wp1 !! key = Some (entry_of direction clock index wordPair lesson)).
    { destruct IH as [IH|(i & w & l & Hlk & IH)]; [by left|].
      right. exists i, w, l. split; [|done].
      rewrite lookup_app_l; [done|]. by eapply lookup_lt_Some. }
    destruct (saveQuizProgress_each_ledger direction clock answers wp1 saved skipped
                (length front) last) as [(lesson0 & Hearn & ->)|[Hnot ->]]; [|done].
    destruct (decide (key_of direction last lesson0 = key)) as [Hkey|Hkey].
    + right. exists (length front), last, lesson0.
      split; [by rewrite lookup_app_r, Nat.sub_diag|].
      split; [done|]. split; [done|]. rewrite <- Hkey. apply lookup_insert_eq.
    + by rewrite lookup_insert_ne.
Qed.

End SummaryFacts.

Section MasteryFacts.
Context `{JsNumber num}.
Implicit Types (wp : gmap jsstring (Entry.t num)) (store : Storage num).
Implicit Types (answers : list (option AnswerResult.t)) (wordPair : WordPair.t num).
Implicit Types w : World.t num.

(** C1 (as amended): at summary time the ledger entry of a word pair is
    created or overwritten if and only if the pair carries a truthy lesson
    and its recorded answer has the full verdict.  Iteration by iteration
    the callback either inserts the entry of such a pair or leaves the
    ledger as it is; over the whole summary a key no such pair maps to keeps
    what it held, and the key of such a pair ends up holding the entry
    (marked correct, stamped in that iteration) of the last such pair with
    that key. *)
Theorem C1_entry_written_iff_full_verdict_with_lesson
    (direction : jsstring) (clock : nat → jsstring)
    (wordPairs : list (WordPair.t num)) answers store :
  let before := ProgressData.wordProgress (getProgressData store) in
  let after :=
    ProgressData.wordProgress
      (getProgressData (saveQuizProgress direction clock wordPairs answers store)) in
  (∀ wp (saved skipped index : nat) wordPair,
     (∃ lesson, earns_mastery answers index wordPair lesson
        ∧ (saveQuizProgress_each direction clock answers (wp, saved, skipped)
             index wordPair).1.1
          = <[key_of direction wordPair lesson
              := entry_of direction clock index wordPair lesson]> wp)
     ∨ ((∀ lesson, ¬ earns_mastery answers index wordPair lesson)
        ∧ (saveQuizProgress_each direction clock answers (wp, saved, skipped)
             index wordPair).1.1 = wp))
  ∧ (∀ key : jsstring,
       (∀ index wordPair lesson,
          wordPairs !! index = Some wordPair → earns_mastery answers index wordPair lesson →
          key_of direction wordPair lesson ≠ key) →
       after !! key = before !! key)
  ∧ (∀ index wordPair lesson,
       wordPairs !! index = Some wordPair → earns_mastery answers index wordPair lesson →
       ∃ index' wordPair' lesson',
         (index ≤ index')%nat ∧ wordPairs !! index' = Some wordPair'
         ∧ earns_mastery answers index' wordPair' lesson'
         ∧ key_of direction wordPair' lesson' = key_of direction wordPair lesson
         ∧ after !! key_of direction wordPair lesson
           = Some (entry_of direction clock index' wordPair' lesson')).
Proof.
  simpl. split; [|split].
  - intros. apply saveQuizProgress_each_ledger.
  - intros key Hnone.
    by apply (saveQuizProgress_loop_lookup direction clock answers wordPairs).
  - intros index wordPair lesson Hlk Hearn.
    destruct (saveQuizProgress_loop_lookup direction clock answers wordPairs
                (ProgressData.wordProgress (getProgressData store))
                (key_of direction wordPair lesson)) as [_ Hwrite].
    destruct (Hwrite index wordPair lesson Hlk Hearn eq_refl)
      as (i' & w' & l' & ? & ? & ? & ? & _ & ?).
    exists i', w', l'. done.
Qed.

(** What [getCorrectWordsForLessons] lists. *)
Lemma elem_of_getCorrectWordsForLessons (lessons : list num) (direction : jsstring) store
    (x : WordPair.t num) :
  x ∈ getCorrectWordsForLessons lessons direction store
  ↔ ∃ key entry,
      ProgressData.wordProgress (getProgressData store) !! key = Some entry
      ∧ Entry.correct entry = true ∧ Entry.direction entry = direction
      ∧ Entry.lesson entry ∈ lessons
      ∧ x = WordPair.mk (Entry.greek entry) (Entry.bulgarian entry)
              (Some (Entry.lesson entry)).
Proof.
  unfold getCorrectWordsForLessons. rewrite list_elem_of_omap. split.
  - intros ([key entry] & Hin & Hx). apply elem_of_map_to_list in Hin. simpl in Hx.
    destruct (mastered_in lessons direction entry) eqn:Hm; [|discriminate].
    injection Hx as <-. unfold mastered_in in Hm.
    rewrite !andb_true_iff, !bool_decide_eq_true in Hm.
    exists key, entry. tauto.
  - intros (key & entry & Hlk & Hc & Hd & Hl & ->). exists (key, entry).
    split; [by apply elem_of_map_to_list|]. simpl.
    unfold mastered_in. rewrite Hc. simpl.
    by rewrite !bool_decide_eq_true_2.
Qed.




End MasteryFacts.

(** ** The countdown *)

Section TimerFacts.
Context `{JsNumber num}.
Implicit Types w : World.t num.

Lemma startTimer_state w :
  World.state (startTimer w)
  = set_timerInterval (Some (Page.nextIntervalId (World.page w)))
      (set_timeRemaining (State.timePerQuestion (World.state w)) (World.state w)).
Proof.
  unfold startTimer. destruct (State.timerInterval (World.state w)); reflexivity.
Qed.

Lemma startTimer_page w :
  World.page (startTimer w)
  = put_nextIntervalId (Pos.succ (Page.nextIntervalId (World.page w)))
      (put_intervals
         (match State.timerInterval (World.state w) with
          | Some id => filter (λ i, i ≠ id) (Page.intervals (World.page w))
          | None => Page.intervals (World.page w)
          end ++ [Page.nextIntervalId (World.page w)])
         (World.page w)).
Proof.
  unfold startTimer. destruct (State.timerInterval (World.state w)); reflexivity.
Qed.

Lemma stopTimer_state w :
  World.state (stopTimer w) = set_timerInterval None (World.state w).
Proof.
  unfold stopTimer. destruct w as [s p]. simpl.
  destruct s; simpl. destruct timerInterval; reflexivity.
Qed.

Lemma stopTimer_page w :
  World.page (stopTimer w)
  = match State.timerInterval (World.state w) with
    | Some id => put_intervals (filter (λ i, i ≠ id) (Page.intervals (World.page w)))
                   (World.page w)
    | None => World.page w
    end.
Proof.
  unfold stopTimer. destruct (State.timerInterval (World.state w)); reflexivity.
Qed.

Lemma not_elem_of_cleared (id : positive) (l : list positive) :
  id ∉ filter (λ i, i ≠ id) l.
Proof. rewrite list_elem_of_filter. intros [Hne _]. done. Qed.

Lemma interval_fires_dead (id : positive) w :
  id ∉ Page.intervals (World.page w) → interval_fires id w = w.
Proof. intros Hdead. unfold interval_fires. by rewrite bool_decide_eq_false_2. Qed.

Lemma iter_interval_fires_dead (id : positive) (n : nat) w :
  id ∉ Page.intervals (World.page w) → Nat.iter n (interval_fires id) w = w.
Proof.
  intros Hdead. induction n as [|n IH]; simpl; [done|].
  rewrite IH. by apply interval_fires_dead.
Qed.

Lemma counting_0 w : counting 0 w = startTimer w.
Proof.
  unfold counting. destruct w as [s p].
  unfold startTimer. simpl. rewrite Z.sub_0_r.
  destruct (State.timerInterval s); reflexivity.
Qed.

Lemma counting_page (n : nat) w : World.page (counting n w) = World.page (startTimer w).
Proof. reflexivity. Qed.

Lemma counting_state (n : nat) w :
  World.state (counting n w)
  = set_timeRemaining (State.timePerQuestion (World.state w) - Z.of_nat n)%Z
      (World.state (startTimer w)).
Proof. reflexivity. Qed.

Lemma counting_alive (n : nat) w :
  Page.nextIntervalId (World.page w) ∈ Page.intervals (World.page (counting n w)).
Proof.
  rewrite counting_page, startTimer_page. simpl.
  apply elem_of_app. right. apply list_elem_of_here.
Qed.

Lemma counting_step (n : nat) w :
  interval_fires (Page.nextIntervalId (World.page w)) (counting n w)
  = if (State.timePerQuestion (World.state w) - Z.of_nat (S n) <=? 0)%Z
    then timed_out (S n) w
    else counting (S n) w.
Proof.
  unfold interval_fires. rewrite bool_decide_eq_true_2 by apply counting_alive.
  unfold timerCallback.
  assert (Hdec : on_state (λ s, set_timeRemaining (State.timeRemaining s - 1)%Z s)
                   (counting n w) = counting (S n) w).
  { unfold on_state. rewrite !counting_page, !counting_state, startTimer_state.
    unfold counting, on_state. rewrite startTimer_state. simpl.
    unfold set_timeRemaining. simpl. do 2 f_equal. lia. }
  rewrite Hdec.
  assert (Hrem : State.timeRemaining (World.state (counting (S n) w))
                 = (State.timePerQuestion (World.state w) - Z.of_nat (S n))%Z).
  { rewrite counting_state, startTimer_state. reflexivity. }
  rewrite Hrem. destruct (_ <=? 0)%Z; [|done].
  assert (Hstop : stopTimer (stopTimer (counting (S n) w)) = stopTimer (counting (S n) w)).
  { unfold stopTimer at 1. by rewrite stopTimer_state. }
  unfold handleTimeout, submitAnswer, timed_out. cbn [negb andb bool_decide].
  rewrite Hstop. rewrite bool_decide_eq_true_2 by done. cbn [negb andb].
  by rewrite stopTimer_state, counting_state, startTimer_state.
Qed.

Lemma ticks_counting (n : nat) w :
  (n < expiry_tick (State.timePerQuestion (World.state w)))%nat →
  ticks (Page.nextIntervalId (World.page w)) n (startTimer w) = counting n w.
Proof.
  unfold ticks, expiry_tick. induction n as [|n IH]; intros Hn; simpl.
  - by rewrite counting_0.
  - rewrite IH by lia. rewrite counting_step.
    destruct (Z.leb_spec (State.timePerQuestion (World.state w) - Z.of_nat (S n)) 0);
      [lia|done].
Qed.

Lemma ticks_expiry w :
  ticks (Page.nextIntervalId (World.page w))
    (expiry_tick (State.timePerQuestion (World.state w))) (startTimer w)
  = timed_out (expiry_tick (State.timePerQuestion (World.state w))) w.
Proof.
  destruct (expiry_tick (State.timePerQuestion (World.state w))) as [|k] eqn:Hk.
  { unfold expiry_tick in Hk. lia. }
  unfold ticks. simpl. fold (ticks (Page.nextIntervalId (World.page w)) k (startTimer w)).
  rewrite ticks_counting by lia. rewrite counting_step.
  destruct (Z.leb_spec (State.timePerQuestion (World.state w) - Z.of_nat (S k)) 0);
    [done|]. unfold expiry_tick in Hk. lia.
Qed.

Lemma timed_out_state (n : nat) w :
  World.state (timed_out n w) = World.state (stopTimer (counting n w)).
Proof. reflexivity. Qed.

Lemma timed_out_intervals (n : nat) w :
  Page.intervals (World.page (timed_out n w))
  = Page.intervals (World.page (stopTimer (counting n w))).
Proof. reflexivity. Qed.

Lemma timed_out_requests (n : nat) w :
  Page.answerRequests (World.page (timed_out n w))
  = Page.answerRequests (World.page (stopTimer (counting n w)))
    ++ [AnswerRequest.mk (State.sessionId (World.state w))
          (State.currentIndex (World.state w)) []].
Proof. reflexivity. Qed.

Lemma stopped_counting_page (n : nat) w :
  World.page (stopTimer (counting n w))
  = put_intervals
      (filter (λ i, i ≠ Page.nextIntervalId (World.page w))
         (Page.intervals (World.page (startTimer w))))
      (World.page (startTimer w)).
Proof. by rewrite stopTimer_page, counting_state, startTimer_state. Qed.

Lemma timed_out_dead (n : nat) w :
  Page.nextIntervalId (World.page w) ∉ Page.intervals (World.page (timed_out n w)).
Proof.
  rewrite timed_out_intervals, stopped_counting_page. cbn [put_intervals Page.intervals].
  apply not_elem_of_cleared.
Qed.

Lemma ticks_after_expiry (n : nat) w :
  (expiry_tick (State.timePerQuestion (World.state w)) ≤ n)%nat →
  ticks (Page.nextIntervalId (World.page w)) n (startTimer w)
  = timed_out (expiry_tick (State.timePerQuestion (World.state w))) w.
Proof.
  intros Hn.
  replace n with ((n - expiry_tick (State.timePerQuestion (World.state w)))
                  + expiry_tick (State.timePerQuestion (World.state w)))%nat by lia.
  unfold ticks. rewrite Nat.iter_add.
  fold (ticks (Page.nextIntervalId (World.page w))
          (expiry_tick (State.timePerQuestion (World.state w))) (startTimer w)).
  rewrite ticks_expiry. apply iter_interval_fires_dead, timed_out_dead.
Qed.

(** C4: a countdown started with [d] seconds and left alone sends the
    automatic empty submission exactly once.  Up to the expiry tick (tick
    [d], or tick 1 when [d] is below 1, hence never before [d] ticks) no
    request is sent and the interval is alive; from the expiry tick on
    exactly one request, for the current question and with the empty
    answer, has been added and the timer is inactive, however many more
    seconds pass.  If [stopTimer] is called before the expiry tick, no
    request is ever sent by that countdown. *)
Theorem C4_countdown_expires_exactly_once w (n : nat) :
  let id := Page.nextIntervalId (World.page w) in
  let d := State.timePerQuestion (World.state w) in
  let after := ticks id n (startTimer w) in
  (d ≤ Z.of_nat (expiry_tick d))%Z
  ∧ State.timerInterval (World.state (startTimer w)) = Some id
  ∧ ((n < expiry_tick d)%nat →
       Page.answerRequests (World.page after) = Page.answerRequests (World.page w)
       ∧ State.timerInterval (World.state after) = Some id
       ∧ id ∈ Page.intervals (World.page after)
       ∧ State.timeRemaining (World.state after) = (d - Z.of_nat n)%Z)
  ∧ ((expiry_tick d ≤ n)%nat →
       Page.answerRequests (World.page after)
       = Page.answerRequests (World.page w)
         ++ [AnswerRequest.mk (State.sessionId (World.state w))
               (State.currentIndex (World.state w)) []]
       ∧ State.timerInterval (World.state after) = None
       ∧ id ∉ Page.intervals (World.page after))
  ∧ ((n < expiry_tick d)%nat →
       ∀ later : nat,
         Page.answerRequests (World.page (ticks id later (stopTimer after)))
         = Page.answerRequests (World.page w)
         ∧ State.timerInterval (World.state (ticks id later (stopTimer after))) = None).
Proof.
  intros id d after. split; [unfold expiry_tick; lia|].
  split; [by rewrite startTimer_state|]. split; [|split].
  - intros Hn. unfold after, id. rewrite ticks_counting by done.
    split; [by rewrite counting_page, startTimer_page|].
    split; [by rewrite counting_state, startTimer_state|].
    split; [apply counting_alive|]. by rewrite counting_state.
  - intros Hn. unfold after, id. rewrite ticks_after_expiry by done.
    split; [|split].
    + rewrite timed_out_requests, stopped_counting_page.
      cbn [put_intervals Page.answerRequests]. by rewrite startTimer_page.
    + by rewrite timed_out_state, stopTimer_state.
    + apply timed_out_dead.
  - intros Hn later. unfold after, id. rewrite ticks_counting by done.
    unfold ticks. rewrite iter_interval_fires_dead.
    + split; [|by rewrite stopTimer_state].
      rewrite stopped_counting_page.
      cbn [put_intervals Page.answerRequests]. by rewrite startTimer_page.
    + rewrite stopped_counting_page. cbn [put_intervals Page.intervals].
      apply not_elem_of_cleared.
Qed.

Lemma one_timer_on_state (f : State.t num → State.t num) w :
  (∀ s, State.timerInterval (f s) = State.timerInterval s) →
  one_timer w ∧ timer_fresh w → one_timer (on_state f w) ∧ timer_fresh (on_state f w).
Proof.
  intros Hf [Hone Hfresh]. unfold one_timer, timer_fresh, on_state in *. simpl.
  rewrite Hf. done.
Qed.

Lemma one_timer_on_page (f : Page.t num → Page.t num) w :
  (∀ p, Page.intervals (f p) = Page.intervals p) →
  (∀ p, Page.nextIntervalId (f p) = Page.nextIntervalId p) →
  one_timer w ∧ timer_fresh w → one_timer (on_page f w) ∧ timer_fresh (on_page f w).
Proof.
  intros Hi Hn [Hone Hfresh]. unfold one_timer, timer_fresh, on_page in *. simpl.
  rewrite Hi, Hn. done.
Qed.

Lemma one_timer_alert (message : jsstring) w :
  one_timer w ∧ timer_fresh w → one_timer (alert message w) ∧ timer_fresh (alert message w).
Proof. apply one_timer_on_page; reflexivity. Qed.

Lemma filter_other_singleton (id : positive) : filter (λ i, i ≠ id) [id] = [].
Proof. rewrite filter_cons. by rewrite decide_False by (intros Hn; by apply Hn). Qed.

Lemma one_timer_startTimer w :
  one_timer w ∧ timer_fresh w → one_timer (startTimer w) ∧ timer_fresh (startTimer w).
Proof.
  intros [Hone Hfresh]. unfold one_timer, timer_fresh in *.
  unfold startTimer.
  destruct (State.timerInterval (World.state w)) as [old|] eqn:Hold; simpl.
  - rewrite Hone, filter_other_singleton. split; [done|]. intros id [= <-]. lia.
  - rewrite Hone. split; [done|]. intros id [= <-]. lia.
Qed.

Lemma one_timer_stopTimer w :
  one_timer w ∧ timer_fresh w → one_timer (stopTimer w) ∧ timer_fresh (stopTimer w).
Proof.
  intros [Hone Hfresh]. unfold one_timer, timer_fresh in *.
  unfold stopTimer.
  destruct (State.timerInterval (World.state w)) as [old|] eqn:Hold; simpl.
  - rewrite Hone, filter_other_singleton. done.
  - rewrite Hold. done.
Qed.

Ltac timer_frame :=
  repeat first
    [ assumption
    | apply one_timer_startTimer
    | apply one_timer_stopTimer
    | apply one_timer_alert
    | apply one_timer_on_state; [reflexivity|]
    | apply one_timer_on_page; [reflexivity|reflexivity|] ].

Lemma one_timer_submitAnswer (isTimeout : bool) w :
  one_timer w ∧ timer_fresh w →
  one_timer (submitAnswer isTimeout w) ∧ timer_fresh (submitAnswer isTimeout w).
Proof.
  intros Hinv. unfold submitAnswer.
  destruct (bool_decide _ && negb isTimeout); timer_frame.
Qed.

Lemma one_timer_timerCallback w :
  one_timer w ∧ timer_fresh w → one_timer (timerCallback w) ∧ timer_fresh (timerCallback w).
Proof.
  intros Hinv. unfold timerCallback.
  destruct (_ <=? 0)%Z; [|timer_frame].
  unfold handleTimeout. apply one_timer_submitAnswer. timer_frame.
Qed.

Lemma one_timer_displayQuestion w w' :
  displayQuestion w = Some w' →
  one_timer w ∧ timer_fresh w → one_timer w' ∧ timer_fresh w'.
Proof.
  unfold displayQuestion. destruct (_ !! _); [|discriminate].
  intros [= <-] Hinv. timer_frame.
Qed.

Lemma one_timer_handle (e : Event) w :
  one_timer w ∧ timer_fresh w → one_timer (handle e w) ∧ timer_fresh (handle e w).
Proof.
  intros Hinv. destruct e; simpl.
  - unfold interval_fires. destruct (bool_decide _); [|done].
    by apply one_timer_timerCallback.
  - timer_frame.
  - destruct (Page.submitBtn_onclick _).
    + by apply one_timer_submitAnswer.
    + unfold nextQuestion.
      destruct (_ <? _)%nat.
      * destruct (displayQuestion _) as [w'|] eqn:Hd.
        -- eapply one_timer_displayQuestion; [exact Hd|]. timer_frame.
        -- timer_frame.
      * unfold showSummary. timer_frame.
  - unfold submitAnswer_resolved. timer_frame.
  - unfold submitAnswer_rejected. timer_frame.
  - unfold startSession.
    destruct (bool_decide _); [timer_frame|].
    destruct (Page.useAllWords _).
    + unfold startSession_request. timer_frame.
    + unfold check_wordCount.
      destruct (Page.wordCount _) as [c|]; [|timer_frame].
      destruct (c <? MIN_WORDS)%Z; [timer_frame|].
      destruct (MAX_WORDS <? c)%Z;
        [destruct (_ <? MAX_WORDS)%Z|destruct (_ <? c)%Z];
        destruct (_ =? 0)%Z; unfold startSession_request; timer_frame.
  - unfold startSession_resolved.
    destruct sessionMode.
    + unfold displayTrainingWord. destruct (_ !! _); timer_frame.
    + destruct (displayQuestion _) as [w'|] eqn:Hd.
      * eapply one_timer_displayQuestion; [exact Hd|]. unfold load_session. timer_frame.
      * unfold load_session. timer_frame.
  - unfold startSession_rejected. timer_frame.
  - unfold nextTrainingWord.
    destruct (_ <? _)%nat.
    + unfold displayTrainingWord. destruct (_ !! _); timer_frame.
    + unfold startExam, startQuizAfterTraining. timer_frame.
  - unfold skipToExam. destruct confirmed; [|done].
    unfold startExam, startQuizAfterTraining. timer_frame.
  - unfold startQuizAfterTraining_resolved.
    destruct (displayQuestion _) as [w'|] eqn:Hd.
    + eapply one_timer_displayQuestion; [exact Hd|]. unfold load_session. timer_frame.
    + unfold load_session. timer_frame.
  - unfold startQuizAfterTraining_rejected. timer_frame.
  - unfold showSummary_resolved. timer_frame.
  - unfold showSummary_rejected. timer_frame.
  - unfold retakeExam, startQuizAfterTraining. timer_frame.
  - unfold restartQuiz. timer_frame.
  - unfold updateSelectedLessons. timer_frame.
  - unfold resetAllProgress. destruct confirmed; timer_frame.
Qed.



(** The invariant holds from the loaded page on, whatever happens. *)
Lemma one_timer_run (events : list Event) w :
  one_timer w ∧ timer_fresh w → one_timer (run events w) ∧ timer_fresh (run events w).
Proof.
  revert w. unfold run. induction events as [|e events IH]; intros w Hinv; simpl; [done|].
  apply IH. by apply one_timer_handle.
Qed.

Lemma one_timer_fresh_page (s : State.t num) (p : Page.t num) :
  one_timer (fresh_page s p) ∧ timer_fresh (fresh_page s p).
Proof. split; [reflexivity|]. intros id Hid. discriminate. Qed.

(** At most one interval is alive on any page the events can lead to;
    starting a timer leaves exactly the new interval alive, and a manual
    submission of an answer and a restart leave none. *)
Lemma at_most_one_interval (events : list Event) (s : State.t num) (p : Page.t num) :
  let w := run events (fresh_page s p) in
  one_timer w
  ∧ (length (Page.intervals (World.page w)) ≤ 1)%nat
  ∧ Page.intervals (World.page (startTimer w)) = [Page.nextIntervalId (World.page w)]
  ∧ (trim (Page.answerInput (World.page w)) ≠ [] →
       Page.intervals (World.page (submitAnswer false w)) = []
       ∧ State.timerInterval (World.state (submitAnswer false w)) = None)
  ∧ Page.intervals (World.page (restartQuiz w)) = []
  ∧ (∀ id w', id ∈ Page.intervals (World.page w) →
       displayQuestion w = Some w' → interval_fires id w' = w').
Proof.
  intros w.
  destruct (one_timer_run events _ (one_timer_fresh_page s p)) as [Hone Hfresh].
  fold w in Hone, Hfresh.
  assert (Hstop : Page.intervals (World.page (stopTimer w)) = []).
  { destruct (one_timer_stopTimer w (conj Hone Hfresh)) as [Hone' _].
    unfold one_timer in Hone'. by rewrite stopTimer_state in Hone'. }
  split; [done|]. split; [|split; [|split; [|split]]].
  - unfold one_timer in Hone. rewrite Hone. destruct (State.timerInterval _); simpl; lia.
  - destruct (one_timer_startTimer w (conj Hone Hfresh)) as [Hone' _].
    unfold one_timer in Hone'. by rewrite startTimer_state in Hone'.
  - intros Hanswer. unfold submitAnswer.
    assert (Hinput : Page.answerInput (World.page (stopTimer w))
                     = Page.answerInput (World.page w)).
    { rewrite stopTimer_page. by destruct (State.timerInterval _). }
    rewrite Hinput, bool_decide_eq_false_2 by done. simpl.
    split; [done|]. by rewrite stopTimer_state.
  - unfold restartQuiz. simpl. exact Hstop.
  - intros id w' Hid. unfold displayQuestion.
    destruct (_ !! _); [|discriminate]. intros [= <-].
    apply interval_fires_dead. rewrite startTimer_page. simpl.
    unfold one_timer in Hone. rewrite Hone in Hid |- *.
    destruct (State.timerInterval (World.state w)) as [old|] eqn:Hold.
    + apply list_elem_of_singleton in Hid as ->.
      rewrite filter_other_singleton. simpl. apply not_elem_of_cons.
      split; [|apply not_elem_of_nil]. specialize (Hfresh old Hold). lia.
    + by apply not_elem_of_nil in Hid.
Qed.

Lemma stopTimer_answerInput w :
  Page.answerInput (World.page (stopTimer w)) = Page.answerInput (World.page w).
Proof. rewrite stopTimer_page. by destruct (State.timerInterval _). Qed.

Lemma stopTimer_answerRequests w :
  Page.answerRequests (World.page (stopTimer w)) = Page.answerRequests (World.page w).
Proof. rewrite stopTimer_page. by destruct (State.timerInterval _). Qed.

Lemma stopTimer_alerts w :
  Page.alerts (World.page (stopTimer w)) = Page.alerts (World.page w).
Proof. rewrite stopTimer_page. by destruct (State.timerInterval _). Qed.

Lemma stopTimer_nextIntervalId w :
  Page.nextIntervalId (World.page (stopTimer w)) = Page.nextIntervalId (World.page w).
Proof. rewrite stopTimer_page. by destruct (State.timerInterval _). Qed.

(** C10: a manual submission whose trimmed input is empty records nothing.
    Every field of [state] other than the two timer fields is unchanged, in
    particular [answers]; no request is sent; the alert is shown; the
    timer is running again with the full time.  A timeout submission sends
    the empty answer for the current question, and any request with the
    empty answer comes from a timeout submission. *)
Theorem C10_empty_manual_submission_records_nothing w :
  trim (Page.answerInput (World.page w)) = [] →
  let w' := submitAnswer false w in
  set_timerInterval None (set_timeRemaining 0 (World.state w'))
  = set_timerInterval None (set_timeRemaining 0 (World.state w))
  ∧ State.answers (World.state w') = State.answers (World.state w)
  ∧ Page.answerRequests (World.page w') = Page.answerRequests (World.page w)
  ∧ Page.alerts (World.page w')
    = Page.alerts (World.page w) ++ [u16 "Please enter an answer"]
  ∧ State.timerInterval (World.state w') = Some (Page.nextIntervalId (World.page w))
  ∧ Page.nextIntervalId (World.page w) ∈ Page.intervals (World.page w')
  ∧ State.timeRemaining (World.state w') = State.timePerQuestion (World.state w)
  ∧ Page.answerRequests (World.page (submitAnswer true w))
    = Page.answerRequests (World.page w)
      ++ [AnswerRequest.mk (State.sessionId (World.state w))
            (State.currentIndex (World.state w)) []]
  ∧ (∀ (isTimeout : bool) (w0 : World.t num) (request : AnswerRequest.t),
       Page.answerRequests (World.page (submitAnswer isTimeout w0))
       = Page.answerRequests (World.page w0) ++ [request] →
       AnswerRequest.answer request = [] → isTimeout = true).
Proof.
  intros Hempty w'.
  assert (Hw' : w' = startTimer (alert (u16 "Please enter an answer") (stopTimer w))).
  { unfold w', submitAnswer. by rewrite stopTimer_answerInput, Hempty. }
  assert (Hstate : World.state w'
            = set_timerInterval (Some (Page.nextIntervalId (World.page w)))
                (set_timeRemaining (State.timePerQuestion (World.state w))
                   (World.state w))).
  { rewrite Hw', startTimer_state. cbn [alert on_page World.state World.page put_alerts
      Page.nextIntervalId]. by rewrite stopTimer_state, stopTimer_nextIntervalId. }
  assert (Hpage : World.page w'
            = World.page (startTimer (alert (u16 "Please enter an answer") (stopTimer w))))
    by (by rewrite Hw').
  rewrite startTimer_page in Hpage.
  split; [by rewrite Hstate|]. split; [by rewrite Hstate|].
  split; [rewrite Hpage; simpl; apply stopTimer_answerRequests|].
  split; [rewrite Hpage; simpl; by rewrite stopTimer_alerts|].
  split; [by rewrite Hstate|].
  split.
  { rewrite Hpage. simpl. apply elem_of_app. right.
    rewrite stopTimer_nextIntervalId. apply list_elem_of_here. }
  split; [by rewrite Hstate|]. split.
  - unfold submitAnswer. simpl.
    by rewrite stopTimer_answerRequests, !stopTimer_state.
  - intros isTimeout w0 request Hsent Hanswer.
    destruct isTimeout; [done|]. exfalso. revert Hsent. unfold submitAnswer.
    rewrite andb_true_r. destruct (bool_decide_reflect (trim (Page.answerInput
      (World.page (stopTimer w0))) = [])) as [He|Hne].
    + rewrite startTimer_page. simpl. rewrite stopTimer_answerRequests.
      intros Hsent. apply (f_equal length) in Hsent. rewrite length_app in Hsent.
      simpl in Hsent. lia.
    + simpl. rewrite stopTimer_answerRequests. intros Hsent.
      apply app_inv_head in Hsent. injection Hsent as <-. done.
Qed.

(** C6 (as amended): the retake section is shown exactly when the attempt
    followed a training phase, the score is below 100 and [state.wordPairs]
    is not empty. *)
Theorem C6_retake_offered_iff_training_below_100_and_words
    (summary : Summary.t) (clock : nat → jsstring) w :
  Page.retakeSection_shown (World.page (showSummary_resolved summary clock w)) = true
  ↔ State.wasTrainingSession (World.state w) = true
    ∧ (Summary.score_percentage summary < 100)%Z
    ∧ State.wordPairs (World.state w) ≠ [].
Proof.
  unfold showSummary_resolved. simpl. unfold retake_offered.
  rewrite !andb_true_iff, Z.ltb_lt, Nat.ltb_lt.
  assert (Hwords : (0 < length (State.wordPairs (World.state w)))%nat
                   ↔ State.wordPairs (World.state w) ≠ []).
  { destruct (State.wordPairs (World.state w)); simpl; split; intros Hw; try done; lia. }
  rewrite Hwords. tauto.
Qed.

(** On a session with words the third condition is met, and the retake is
    offered exactly after training with a score below 100. *)
Lemma retake_offered_with_words (summary : Summary.t) (clock : nat → jsstring) w :
  State.wordPairs (World.state w) ≠ [] →
  Page.retakeSection_shown (World.page (showSummary_resolved summary clock w)) = true
  ↔ State.wasTrainingSession (World.state w) = true
    ∧ (Summary.score_percentage summary < 100)%Z.
Proof.
  intros Hwords. unfold showSummary_resolved. simpl. unfold retake_offered.
  rewrite !andb_true_iff, Z.ltb_lt, Nat.ltb_lt.
  destruct (State.wordPairs (World.state w)); [done|]. simpl. split; [tauto|].
  intros [? ?]. split; [done|lia].
Qed.

End TimerFacts.

(** ** Concrete sessions (lessons numbered by integers) *)

(** C1, where the claim fails: a word pair answered with the full verdict
    gets no ledger entry when it has no lesson, or lesson 0; the guard
    [if (!lesson)] skips it. *)
Lemma C1_counterexample_full_verdict_without_lesson :
  let answer := AnswerResult.mk true false [955; 972; 947; 959; 962] [955; 972; 947; 959; 962] false in
  let clock := λ _ : nat, u16 "2025-10-18T10:00:00.000Z" in
  let direction := u16 "bulgarian_to_greek" in
  full_verdict answer = true
  ∧ ProgressData.wordProgress
      (getProgressData
         (saveQuizProgress direction clock
            [WordPair.mk [955; 972; 947; 959; 962] [1076; 1091; 1084; 1072] (None : option Z)]
            [Some answer] None)) = ∅
  ∧ ProgressData.wordProgress
      (getProgressData
         (saveQuizProgress direction clock
            [WordPair.mk [955; 972; 947; 959; 962] [1076; 1091; 1084; 1072] (Some 0%Z)]
            [Some answer] None)) = ∅.
Proof. repeat split. Qed.



(** ** Concrete runs of the one-question exam *)

(** C4 at five seconds: four ticks send nothing, and after five ticks, or
    sixty, exactly one empty submission has gone out. *)
Lemma C4_witness_five_seconds :
  let w := World.mk (set_timePerQuestion 5 sample_state) sample_page in
  Page.answerRequests (World.page (ticks 1 4 (startTimer w))) = []
  ∧ Page.answerRequests (World.page (ticks 1 5 (startTimer w)))
    = [AnswerRequest.mk None 0 []]
  ∧ Page.answerRequests (World.page (ticks 1 60 (startTimer w)))
    = [AnswerRequest.mk None 0 []]
  ∧ Page.answerRequests (World.page (ticks 1 60 (stopTimer (ticks 1 4 (startTimer w)))))
    = [].
Proof.
  intros w.
  destruct (C4_countdown_expires_exactly_once w 4) as (_ & _ & Hbefore & _ & Hcancel).
  destruct (C4_countdown_expires_exactly_once w 5) as (_ & _ & _ & Hfive & _).
  destruct (C4_countdown_expires_exactly_once w 60) as (_ & _ & _ & Hsixty & _).
  split; [apply Hbefore; vm_compute; lia|].
  split; [apply Hfive; vm_compute; lia|].
  split; [apply Hsixty; vm_compute; lia|].
  apply Hcancel. vm_compute. lia.
Defined.

(** C10 on an input of three spaces. *)
Lemma C10_witness_blank_input :
  let w := World.mk (set_timePerQuestion 5 sample_state)
             (put_answerInput (u16 "   ") sample_page) in
  State.answers (World.state (submitAnswer false w)) = []
  ∧ Page.answerRequests (World.page (submitAnswer false w)) = []
  ∧ State.timerInterval (World.state (submitAnswer false w)) = Some 1%positive.
Proof.
  intros w.
  destruct (C10_empty_manual_submission_records_nothing w eq_refl)
    as (_ & Hanswers & Hrequests & _ & Htimer & _).
  split; [exact Hanswers|]. split; [exact Hrequests|exact Htimer].
Defined.

(** C6, where the claim fails: the attempt followed training and scored 50,
    but [state.wordPairs] is empty, and the retake section stays hidden. *)
Lemma C6_counterexample_no_word_pairs :
  let w := World.mk (set_wasTrainingSession true sample_state) sample_page in
  let summary := Summary.mk 50 0 1 in
  State.wasTrainingSession (World.state w) = true
  ∧ (Summary.score_percentage summary < 100)%Z
  ∧ Page.retakeSection_shown
      (World.page (showSummary_resolved summary sample_clock w)) = false.
Proof. repeat split. Qed.

(** C5, the run on which a stale countdown fires.  The only question times
    out; while the automatic submission is in flight the user presses Enter
    on the empty input, which alerts and restarts the countdown; the reply
    arrives and the user moves on to the summary.  The restarted interval
    is still alive on the summary screen, and five seconds later it submits
    an empty answer for question index 1, past the only question. *)
Theorem C5_stale_countdown_fires_on_summary :
  let events :=
    [SessionArrives exam sample_data]
    ++ replicate 5 (IntervalFires 1)
    ++ [ClicksSubmit; AnswerArrives sample_timeout_result; ClicksSubmit;
        SummaryArrives (Summary.mk 0 0 1) sample_clock] in
  let w := run events (fresh_page sample_state sample_page) in
  Page.activeScreen (World.page w) = summaryScreen
  ∧ State.currentIndex (World.state w) = 1%nat
  ∧ length (State.questions (World.state w)) = 1%nat
  ∧ Page.answerRequests (World.page w) = [AnswerRequest.mk (Some (u16 "session-1")) 0 []]
  ∧ Page.intervals (World.page w) = [2%positive]
  ∧ Page.answerRequests
      (World.page (run (replicate 5 (IntervalFires 2)) w))
    = [AnswerRequest.mk (Some (u16 "session-1")) 0 [];
       AnswerRequest.mk (Some (u16 "session-1")) 1 []].
Proof. vm_compute. repeat split. Qed.

(** * Further properties of the ledger *)

Section LedgerRoundTrips.
Context `{JsNumber num}.
Implicit Types (wp : gmap jsstring (Entry.t num)) (store : Storage num).

Lemma same_spelling_refl (kept : N → bool) (s : jsstring) : same_spelling kept s s.
Proof. induction s as [|c s IH]; [apply same_end|by apply same_unit]. Qed.

(** Spelling variants share the ledger key. *)
Lemma progressKey_same_spelling (direction greek1 greek2 bulgarian1 bulgarian2 : jsstring)
    (lesson : num) :
  same_spelling greek_kept greek1 greek2 →
  same_spelling bulgarian_kept bulgarian1 bulgarian2 →
  progressKey direction greek1 bulgarian1 lesson
  = progressKey direction greek2 bulgarian2 lesson.
Proof.
  intros Hg Hb. unfold progressKey, createWordKey, toLowerCase.
  rewrite (lower_from_alike _ _ (same_spelling_replace _ _ _ greek_kept_case Hg)).
  by rewrite (lower_from_alike _ _ (same_spelling_replace _ _ _ bulgarian_kept_case Hb)).
Qed.

(** X1: once [markWordCorrect] has recorded a word, [isWordCorrect] answers
    [true] for it and for every spelling of it that differs only in letter
    case or in characters the key drops, under the same lesson and
    direction. *)
Theorem X1_marked_word_is_correct_in_every_spelling
    (greek greek' bulgarian bulgarian' : jsstring) (lesson : num)
    (direction now : jsstring) store :
  same_spelling greek_kept greek greek' →
  same_spelling bulgarian_kept bulgarian bulgarian' →
  isWordCorrect greek bulgarian lesson direction
    (markWordCorrect greek bulgarian lesson direction now store) = true
  ∧ isWordCorrect greek' bulgarian' lesson direction
      (markWordCorrect greek bulgarian lesson direction now store) = true.
Proof.
  intros Hg Hb. unfold isWordCorrect, markWordCorrect, saveProgressData. simpl.
  rewrite <- (progressKey_same_spelling direction _ _ _ _ lesson Hg Hb).
  by rewrite lookup_insert_eq.
Qed.

(** X2: [markWordCorrect] touches one ledger key: a word whose key is
    another one gets the same answer from [isWordCorrect] as before, and
    the version field is kept. *)
Theorem X2_marking_leaves_other_words_alone
    (greek greek' bulgarian bulgarian' : jsstring) (lesson lesson' : num)
    (direction direction' now : jsstring) store :
  progressKey direction' greek' bulgarian' lesson'
  ≠ progressKey direction greek bulgarian lesson →
  isWordCorrect greek' bulgarian' lesson' direction'
    (markWordCorrect greek bulgarian lesson direction now store)
  = isWordCorrect greek' bulgarian' lesson' direction' store
  ∧ ProgressData.version
      (getProgressData (markWordCorrect greek bulgarian lesson direction now store))
    = ProgressData.version (getProgressData store).
Proof.
  intros Hne. split; [|reflexivity].
  unfold isWordCorrect, markWordCorrect, saveProgressData. simpl.
  by rewrite lookup_insert_ne.
Qed.

Lemma resetProgress_lookup (lessons : list num) (direction : jsstring) store
    (key : jsstring) :
  ProgressData.wordProgress (getProgressData (resetProgress lessons direction store)) !! key
  = match ProgressData.wordProgress (getProgressData store) !! key with
    | Some entry => if reset_selects lessons direction entry then None else Some entry
    | None => None
    end.
Proof.
  unfold resetProgress, saveProgressData. simpl. rewrite lookup_foldl_delete.
  set (wp := ProgressData.wordProgress (getProgressData store)).
  destruct (decide (key ∈ _)) as [Hin|Hnin].
  - apply elem_of_selected_keys in Hin as (entry & Hlk & Hsel). by rewrite Hlk, Hsel.
  - destruct (wp !! key) as [entry|] eqn:Hlk; [|done].
    destruct (reset_selects lessons direction entry) eqn:Hsel; [|done].
    exfalso. apply Hnin. apply elem_of_selected_keys. eauto.
Qed.

(** X3: a reset for a lesson list and a direction forgets a word marked
    under one of these lessons and that direction, and keeps a word marked
    under another direction or under a lesson outside the list. *)
Theorem X3_reset_forgets_marked_word_of_selection
    (greek bulgarian : jsstring) (lesson : num) (direction now : jsstring)
    (lessons : list num) (other : jsstring) store :
  (lesson ∈ lessons →
     isWordCorrect greek bulgarian lesson direction
       (resetProgress lessons direction
          (markWordCorrect greek bulgarian lesson direction now store)) = false)
  ∧ (other ≠ direction →
     isWordCorrect greek bulgarian lesson direction
       (resetProgress lessons other
          (markWordCorrect greek bulgarian lesson direction now store)) = true)
  ∧ (lesson ∉ lessons →
     isWordCorrect greek bulgarian lesson direction
       (resetProgress lessons direction
          (markWordCorrect greek bulgarian lesson direction now store)) = true).
Proof.
  unfold isWordCorrect. rewrite !resetProgress_lookup.
  unfold markWordCorrect, saveProgressData. simpl. rewrite lookup_insert_eq.
  unfold reset_selects. simpl. split; [|split].
  - intros Hin. by rewrite !bool_decide_eq_true_2.
  - intros Hne. rewrite (bool_decide_eq_false_2 (direction = other)) by done.
    by rewrite andb_false_r.
  - intros Hnin. by rewrite (bool_decide_eq_false_2 (lesson ∈ lessons)).
Qed.

Lemma mastered_in_reset_selects (lessons : list num) (direction : jsstring)
    (entry : Entry.t num) :
  mastered_in lessons direction entry = true → reset_selects lessons direction entry = true.
Proof.
  unfold mastered_in, reset_selects. rewrite !andb_true_iff. tauto.
Qed.

Lemma mastered_in_stats_counts (lessons : list num) (direction : jsstring)
    (entry : Entry.t num) :
  mastered_in lessons direction entry = stats_counts lessons direction entry.
Proof.
  unfold mastered_in, stats_counts.
  destruct (Entry.correct entry), (bool_decide (Entry.direction entry = direction)),
    (bool_decide (Entry.lesson entry ∈ lessons)); reflexivity.
Qed.

Lemma length_omap_test {A B : Type} (test : A → bool) (g : A → B) (l : list A) :
  length (omap (λ x, if test x then Some (g x) else None) l)
  = length (filter (λ x, test x = true) l).
Proof.
  induction l as [|x l IH]; [done|].
  rewrite filter_cons. cbn [omap list_omap].
  destruct (decide (test x = true)) as [Htest|Htest].
  - rewrite Htest. cbn. f_equal. exact IH.
  - apply not_true_is_false in Htest. rewrite Htest. exact IH.
Qed.

Lemma length_getCorrectWordsForLessons `{JsArith num}
    (lessons : list num) (direction : jsstring) (totalWords : num) store :
  length (getCorrectWordsForLessons lessons direction store)
  = ProgressStats.correctCount (getProgressStats lessons direction totalWords store).
Proof.
  unfold getCorrectWordsForLessons, getProgressStats. simpl.
  rewrite count_loop_length. simpl.
  rewrite (length_omap_test (λ kv : jsstring * Entry.t num,
             mastered_in lessons direction kv.2)
            (λ kv, WordPair.mk (Entry.greek kv.2) (Entry.bulgarian kv.2)
                     (Some (Entry.lesson kv.2)))).
  f_equal. apply list_filter_iff. intros [key entry]. simpl.
  by rewrite mastered_in_stats_counts.
Qed.

(** X5: the list [getCorrectWordsForLessons] builds and the count
    [getProgressStats] reports agree: one listed word per counted entry,
    whatever the total passed to the statistics. *)
Theorem X5_excluded_words_match_the_count `{JsArith num}
    (lessons : list num) (direction : jsstring) (totalWords : num) store :
  length (getCorrectWordsForLessons lessons direction store)
  = ProgressStats.correctCount (getProgressStats lessons direction totalWords store).
Proof. apply length_getCorrectWordsForLessons. Qed.

Lemma resetProgress_store (lessons : list num) (direction : jsstring) store :
  resetProgress lessons direction store
  = Some (ProgressData.mk
            (ProgressData.wordProgress
               (getProgressData (resetProgress lessons direction store)))
            (ProgressData.version (getProgressData store))).
Proof. reflexivity. Qed.

(** X4: after [resetProgress(lessons, direction)] nothing is listed as
    mastered for these lessons and this direction, the statistics count
    zero, and a second identical reset changes nothing more. *)
Theorem X4_reset_empties_the_selection `{JsArith num}
    (lessons : list num) (direction : jsstring) (totalWords : num) store :
  getCorrectWordsForLessons lessons direction (resetProgress lessons direction store) = []
  ∧ ProgressStats.correctCount
      (getProgressStats lessons direction totalWords
         (resetProgress lessons direction store)) = 0%nat
  ∧ resetProgress lessons direction (resetProgress lessons direction store)
    = resetProgress lessons direction store.
Proof.
  assert (Hnil : getCorrectWordsForLessons lessons direction
                   (resetProgress lessons direction store) = []).
  { apply elem_of_nil_inv. intros x Hx.
    apply elem_of_getCorrectWordsForLessons in Hx
      as (key & entry & Hlk & Hc & Hd & Hl & _).
    rewrite resetProgress_lookup in Hlk.
    destruct (ProgressData.wordProgress (getProgressData store) !! key) as [old|];
      [|discriminate].
    destruct (reset_selects lessons direction old) eqn:Hsel; [discriminate|].
    injection Hlk as ->. unfold reset_selects in Hsel.
    by rewrite !bool_decide_eq_true_2 in Hsel. }
  split; [exact Hnil|]. split.
  - rewrite <- (length_getCorrectWordsForLessons lessons direction totalWords).
    by rewrite Hnil.
  - rewrite (resetProgress_store lessons direction (resetProgress _ _ _)).
    rewrite (resetProgress_store lessons direction store) at 3.
    f_equal. f_equal. apply map_eq. intros key.
    rewrite resetProgress_lookup.
    destruct (ProgressData.wordProgress
                (getProgressData (resetProgress lessons direction store)) !! key)
      as [entry|] eqn:Hlk; [|done].
    rewrite resetProgress_lookup in Hlk.
    destruct (ProgressData.wordProgress (getProgressData store) !! key) as [old|];
      [|discriminate].
    destruct (reset_selects lessons direction old) eqn:Hsel; [discriminate|].
    injection Hlk as ->. by rewrite Hsel.
Qed.

(** X6: a summary never removes a ledger entry and never un-masters a
    word: every key that held an entry still holds one, an entry marked
    correct stays marked correct, and the version field is kept. *)
Theorem X6_summary_never_unmasters
    (direction : jsstring) (clock : nat → jsstring)
    (wordPairs : list (WordPair.t num)) (answers : list (option AnswerResult.t)) store
    (key : jsstring) (entry : Entry.t num) :
  ProgressData.wordProgress (getProgressData store) !! key = Some entry →
  (∃ entry',
     ProgressData.wordProgress
       (getProgressData (saveQuizProgress direction clock wordPairs answers store))
     !! key = Some entry'
     ∧ (Entry.correct entry = true → Entry.correct entry' = true))
  ∧ ProgressData.version
      (getProgressData (saveQuizProgress direction clock wordPairs answers store))
    = ProgressData.version (getProgressData store).
Proof.
  intros Hlk. split; [|reflexivity].
  unfold saveQuizProgress, saveProgressData. simpl.
  destruct (saveQuizProgress_loop_kept_or_written direction clock answers wordPairs
              (ProgressData.wordProgress (getProgressData store)) key)
    as [Hkept|(i & w & l & _ & _ & _ & Hafter)].
  - exists entry. by rewrite Hkept.
  - eexists. split; [exact Hafter|]. done.
Qed.

Lemma saveQuizProgress_each_counts (direction : jsstring) (clock : nat → jsstring)
    (answers : list (option AnswerResult.t)) wp (saved skipped index : nat)
    (wordPair : WordPair.t num) :
  let '(wp', saved', skipped') :=
    saveQuizProgress_each direction clock answers (wp, saved, skipped) index wordPair in
  (saved ≤ saved')%nat ∧ (saved' + skipped' ≤ S (saved + skipped))%nat
  ∧ (size wp' ≤ size wp + (saved' - saved))%nat
  ∧ (saved' = saved → wp' = wp).
Proof.
  unfold saveQuizProgress_each.
  destruct (WordPair.lesson wordPair) as [lesson|]; [|repeat split; lia].
  destruct (num_truthy lesson); simpl; [|repeat split; lia].
  destruct (answers !! index) as [[a|]|]; [|repeat split; lia..].
  destruct (AnswerResult.correct a && negb (AnswerResult.partial_credit a));
    [|repeat split; lia].
  split; [lia|]. split; [lia|]. split; [|lia].
  destruct (wp !! progressKey direction (WordPair.greek wordPair)
              (WordPair.bulgarian wordPair) lesson) eqn:Hlk.
  - rewrite map_size_insert_Some by eauto. lia.
  - rewrite map_size_insert_None by done. lia.
Qed.

Lemma forEach_saveQuizProgress_counts (direction : jsstring) (clock : nat → jsstring)
    (answers : list (option AnswerResult.t)) (wordPairs : list (WordPair.t num))
    (index : nat) wp (saved skipped : nat) :
  let '(wp', saved', skipped') :=
    forEach_from (saveQuizProgress_each direction clock answers) index wordPairs
      (wp, saved, skipped) in
  (saved ≤ saved')%nat ∧ (saved' + skipped' ≤ saved + skipped + length wordPairs)%nat
  ∧ (size wp' ≤ size wp + (saved' - saved))%nat
  ∧ (saved' = saved → wp' = wp).
Proof.
  revert index wp saved skipped.
  induction wordPairs as [|wordPair rest IH]; intros index wp saved skipped;
    cbn [forEach_from length].
  - repeat split; lia.
  - pose proof (saveQuizProgress_each_counts direction clock answers wp saved skipped
                  index wordPair) as Hstep.
    destruct (saveQuizProgress_each direction clock answers (wp, saved, skipped)
                index wordPair) as [[wp1 saved1] skipped1].
    specialize (IH (S index) wp1 saved1 skipped1).
    destruct (forEach_from _ (S index) rest (wp1, saved1, skipped1))
      as [[wp2 saved2] skipped2].
    destruct Hstep as (? & ? & ? & Hsame1), IH as (? & ? & ? & Hsame2).
    split; [lia|]. split; [lia|]. split; [lia|].
    intros Heq. rewrite Hsame2 by lia. apply Hsame1. lia.
Qed.

(** X7: the figures [saveQuizProgress] logs are sound: words saved plus
    words skipped never exceed the words of the quiz, the ledger grows by
    at most the number of words saved, and when no word was saved the
    ledger is exactly what it was. *)
Theorem X7_summary_counters_are_sound
    (direction : jsstring) (clock : nat → jsstring)
    (wordPairs : list (WordPair.t num)) (answers : list (option AnswerResult.t)) wp :
  let '(wp', correctlySavedCount, skippedCount) :=
    saveQuizProgress_loop direction clock wordPairs answers wp in
  (correctlySavedCount + skippedCount ≤ length wordPairs)%nat
  ∧ (size wp' ≤ size wp + correctlySavedCount)%nat
  ∧ (correctlySavedCount = 0%nat → wp' = wp).
Proof.
  unfold saveQuizProgress_loop.
  pose proof (forEach_saveQuizProgress_counts direction clock answers wordPairs
                0 wp 0 0) as Hloop.
  destruct (forEach_from _ 0 wordPairs (wp, 0%nat, 0%nat)) as [[wp' saved] skipped].
  destruct Hloop as (? & ? & ? & Hsame). split; [lia|]. split; [lia|]. done.
Qed.

End LedgerRoundTrips.

Section LedgerCoherence.
Context `{JsNumber num}.
Implicit Types store : Storage num.

Lemma ledger_coherent_empty : ledger_coherent (None : Storage num).
Proof. intros key entry Hlk. simpl in Hlk. by rewrite lookup_empty in Hlk. Qed.

Lemma ledger_coherent_markWordCorrect (greek bulgarian : jsstring) (lesson : num)
    (direction now : jsstring) store :
  ledger_coherent store →
  ledger_coherent (markWordCorrect greek bulgarian lesson direction now store).
Proof.
  intros Hcoh key entry. unfold markWordCorrect, saveProgressData. simpl.
  destruct (decide (progressKey direction greek bulgarian lesson = key)) as [<-|Hne].
  - rewrite lookup_insert_eq. intros [= <-]. done.
  - rewrite lookup_insert_ne by done. apply Hcoh.
Qed.

Lemma ledger_coherent_saveQuizProgress (direction : jsstring) (clock : nat → jsstring)
    (wordPairs : list (WordPair.t num)) (answers : list (option AnswerResult.t)) store :
  ledger_coherent store →
  ledger_coherent (saveQuizProgress direction clock wordPairs answers store).
Proof.
  intros Hcoh key entry. unfold saveQuizProgress, saveProgressData. simpl.
  destruct (saveQuizProgress_loop_kept_or_written direction clock answers wordPairs
              (ProgressData.wordProgress (getProgressData store)) key)
    as [Hkept|(i & w & l & _ & _ & Hkey & Hafter)].
  - rewrite Hkept. apply Hcoh.
  - rewrite Hafter. intros [= <-]. simpl. by rewrite <- Hkey.
Qed.

Lemma ledger_coherent_resetProgress (lessons : list num) (direction : jsstring) store :
  ledger_coherent store → ledger_coherent (resetProgress lessons direction store).
Proof.
  intros Hcoh key entry. rewrite resetProgress_lookup.
  destruct (ProgressData.wordProgress (getProgressData store) !! key) as [old|] eqn:Hlk;
    [|discriminate].
  destruct (reset_selects lessons direction old); [discriminate|].
  intros [= <-]. by apply Hcoh.
Qed.

(** X8: the ledger the program builds is coherent, and stays so: if every
    entry sits under the key of its own fields and is marked correct, the
    same holds after [markWordCorrect], after [saveQuizProgress] and after
    [resetProgress]; and on such a ledger every word
    [getCorrectWordsForLessons] lists for a direction is a word
    [isWordCorrect] accepts for one of the requested lessons. *)
Theorem X8_ledger_stays_coherent store :
  ledger_coherent store →
  (∀ greek bulgarian lesson direction now,
     ledger_coherent (markWordCorrect greek bulgarian lesson direction now store))
  ∧ (∀ direction clock wordPairs answers,
       ledger_coherent (saveQuizProgress direction clock wordPairs answers store))
  ∧ (∀ lessons direction, ledger_coherent (resetProgress lessons direction store))
  ∧ (∀ (lessons : list num) (direction : jsstring) (x : WordPair.t num),
       x ∈ getCorrectWordsForLessons lessons direction store →
       ∃ lesson,
         WordPair.lesson x = Some lesson ∧ lesson ∈ lessons
         ∧ isWordCorrect (WordPair.greek x) (WordPair.bulgarian x) lesson direction store
           = true).
Proof.
  intros Hcoh. split; [|split; [|split]].
  - intros. by apply ledger_coherent_markWordCorrect.
  - intros. by apply ledger_coherent_saveQuizProgress.
  - intros. by apply ledger_coherent_resetProgress.
  - intros lessons direction x Hx.
    apply elem_of_getCorrectWordsForLessons in Hx
      as (key & entry & Hlk & Hc & Hd & Hl & ->).
    exists (Entry.lesson entry). split; [done|]. split; [done|].
    unfold isWordCorrect. simpl.
    destruct (Hcoh key entry Hlk) as [Hkey _]. rewrite Hd in Hkey.
    by rewrite <- Hkey, Hlk.
Qed.

End LedgerCoherence.

(** ** The word key is canonical *)

Section KeyCanonical.
Context `{JsNumber num}.

Lemma replace_outside_kept (kept : N → bool) (s : jsstring) :
  Forall (λ c, kept c = true) (replace_outside kept s).
Proof. unfold replace_outside. apply Forall_forall. intros c Hc. by apply list_elem_of_filter in Hc as [? _]. Qed.

Lemma replace_outside_fixed (kept : N → bool) (s : jsstring) :
  Forall (λ c, kept c = true) s → replace_outside kept s = s.
Proof.
  unfold replace_outside. induction 1 as [|c s Hc _ IH]; [done|].
  rewrite filter_cons, decide_True by done. by rewrite IH.
Qed.

Lemma lower_from_fixed (s : jsstring) :
  Forall (λ c, is_capital c = false) s → ∀ prev_cased, lower_from prev_cased s = s.
Proof.
  induction 1 as [|c s Hc _ IH]; intros prev_cased; simpl; [done|].
  assert (Hsigma : (c =? capital_sigma) = false).
  { apply N.eqb_neq. intros ->. discriminate Hc. }
  rewrite Hsigma, IH. unfold lower_unit. by rewrite Hc.
Qed.

Lemma lower_from_small (kept : N → bool) (s : jsstring) :
  (∀ c, kept c = true → c ≠ capital_sigma →
        kept (lower_unit c) = true ∧ is_capital (lower_unit c) = false) →
  (kept capital_sigma = true → kept final_sigma = true ∧ kept small_sigma = true) →
  Forall (λ c, kept c = true) s →
  ∀ prev_cased,
    Forall (λ c, kept c = true ∧ is_capital c = false) (lower_from prev_cased s).
Proof.
  intros Hunit Hsigma. induction 1 as [|c s Hc _ IH]; intros prev_cased; simpl; [done|].
  constructor; [|done].
  destruct (N.eqb_spec c capital_sigma) as [->|Hne].
  - destruct (Hsigma Hc) as [Hf Hs]. by destruct (prev_cased && negb (next_cased s)).
  - by apply Hunit.
Qed.

Lemma greek_lower_unit (c : N) :
  greek_kept c = true → c ≠ capital_sigma →
  greek_kept (lower_unit c) = true ∧ is_capital (lower_unit c) = false.
Proof.
  unfold lower_unit, capital_sigma. intros Hk Hne.
  destruct (is_capital c) eqn:Hcap.
  - apply is_capital_spec in Hcap. apply greek_kept_spec in Hk.
    rewrite word_char_spec in Hk. split.
    + rewrite greek_kept_spec, word_char_spec. lia.
    + apply not_true_is_false. rewrite is_capital_spec. lia.
  - done.
Qed.

Lemma bulgarian_lower_unit (c : N) :
  bulgarian_kept c = true → c ≠ capital_sigma →
  bulgarian_kept (lower_unit c) = true ∧ is_capital (lower_unit c) = false.
Proof.
  unfold lower_unit, capital_sigma. intros Hk Hne.
  destruct (is_capital c) eqn:Hcap.
  - apply is_capital_spec in Hcap. apply bulgarian_kept_spec in Hk.
    rewrite word_char_spec in Hk. split.
    + rewrite bulgarian_kept_spec, word_char_spec. lia.
    + apply not_true_is_false. rewrite is_capital_spec. lia.
  - done.
Qed.

Lemma clean_fixed (kept : N → bool) (s : jsstring) :
  Forall (λ c, kept c = true ∧ is_capital c = false) s →
  toLowerCase (replace_outside kept s) = s.
Proof.
  intros Hs. rewrite replace_outside_fixed.
  - apply lower_from_fixed. eapply Forall_impl; [done|]. by intros c [_ ?].
  - eapply Forall_impl; [done|]. by intros c [? _].
Qed.

(** X9: the two cleaned sides of a word key are canonical.  They hold only
    code units of their class and no capital letter, cleaning them again
    changes nothing, and so the key built from the cleaned sides is the key
    built from the original ones. *)
Theorem X9_cleaned_sides_are_canonical (greek bulgarian : jsstring) (lesson : num) :
  let cleanGreek := toLowerCase (replace_outside greek_kept greek) in
  let cleanBulgarian := toLowerCase (replace_outside bulgarian_kept bulgarian) in
  Forall (λ c, greek_kept c = true ∧ is_capital c = false) cleanGreek
  ∧ Forall (λ c, bulgarian_kept c = true ∧ is_capital c = false) cleanBulgarian
  ∧ toLowerCase (replace_outside greek_kept cleanGreek) = cleanGreek
  ∧ toLowerCase (replace_outside bulgarian_kept cleanBulgarian) = cleanBulgarian
  ∧ createWordKey cleanGreek cleanBulgarian lesson = createWordKey greek bulgarian lesson.
Proof.
  intros cleanGreek cleanBulgarian.
  assert (Hg : Forall (λ c, greek_kept c = true ∧ is_capital c = false) cleanGreek).
  { apply lower_from_small; [apply greek_lower_unit|done|apply replace_outside_kept]. }
  assert (Hb : Forall (λ c, bulgarian_kept c = true ∧ is_capital c = false) cleanBulgarian).
  { apply lower_from_small; [apply bulgarian_lower_unit|done|apply replace_outside_kept]. }
  pose proof (clean_fixed _ _ Hg) as Hg'. pose proof (clean_fixed _ _ Hb) as Hb'.
  repeat split; try done. unfold createWordKey. by rewrite Hg', Hb'.
Qed.

(** X10: the separator of the key is itself a kept character, so the key
    does not tell where the Greek side ends.  For sides made of small
    word characters, moving a piece [b] across the separator, from the
    end of the Greek side to the front of the Bulgarian side, gives the
    same key: two different word pairs of a lesson share one identity. *)
Theorem X10_underscore_makes_keys_ambiguous (a b c : jsstring) (lesson : num) :
  Forall (λ x, word_char x = true ∧ is_capital x = false) a →
  Forall (λ x, word_char x = true ∧ is_capital x = false) b →
  Forall (λ x, word_char x = true ∧ is_capital x = false) c →
  createWordKey (a ++ [underscore] ++ b) c lesson
  = createWordKey a (b ++ [underscore] ++ c) lesson
  ∧ ∀ direction,
      progressKey direction (a ++ [underscore] ++ b) c lesson
      = progressKey direction a (b ++ [underscore] ++ c) lesson.
Proof.
  intros Ha Hb Hc.
  assert (Hu : word_char underscore = true ∧ is_capital underscore = false) by done.
  assert (Hgreek : ∀ s, Forall (λ x, word_char x = true ∧ is_capital x = false) s →
                        toLowerCase (replace_outside greek_kept s) = s).
  { intros s Hs. apply clean_fixed. eapply Forall_impl; [done|].
    intros x [Hx ?]. split; [|done]. unfold greek_kept. by rewrite Hx. }
  assert (Hbulgarian : ∀ s, Forall (λ x, word_char x = true ∧ is_capital x = false) s →
                            toLowerCase (replace_outside bulgarian_kept s) = s).
  { intros s Hs. apply clean_fixed. eapply Forall_impl; [done|].
    intros x [Hx ?]. split; [|done]. unfold bulgarian_kept. by rewrite Hx. }
  assert (Hkey : createWordKey (a ++ [underscore] ++ b) c lesson
                 = createWordKey a (b ++ [underscore] ++ c) lesson).
  { unfold createWordKey.
    rewrite !Hgreek, !Hbulgarian;
      repeat first [done | apply Forall_app; split | apply Forall_cons; split
                   | apply Forall_nil].
    by rewrite <- !app_assoc. }
  split; [done|]. intros direction. unfold progressKey. by rewrite Hkey.
Qed.

End KeyCanonical.

(** ** Reading the stored item twice *)

Section RawFacts.
Context `{JsNumber num}.

(** X18: the repair of [getProgressData] is stable.  Whatever the item
    holds and in either mode, the function returns a value; and on an item
    that parses to that value it returns the value as it is: what one read
    has repaired or replaced, a second read leaves alone. *)
Theorem X18_getProgressData_is_idempotent (strict : bool) (item : Json.stored num) :
  ∃ v, Json.getProgressData strict item = Json.Normal v
       ∧ Json.getProgressData strict (Json.Parsed v) = Json.Normal v.
Proof.
  assert (Hdefault : Json.getProgressData strict (Json.Parsed Json.default_progress)
                     = Json.Normal Json.default_progress).
  { reflexivity. }
  destruct item as [| |parsed]; [by eexists..|].
  unfold Json.getProgressData at 1. unfold Json.getProgressData_try.
  destruct parsed as [|b|n|s|elems props|props]; simpl.
  - by eexists.
  - destruct strict; simpl; [by eexists|]. by eexists.
  - destruct strict; simpl; [by eexists|]. by eexists.
  - destruct strict; simpl; [by eexists|]. by eexists.
  - destruct (Json.truthy (Json.assoc_get Json.wordProgress_name props)) eqn:Ht; simpl.
    + eexists. split; [done|]. unfold Json.getProgressData. simpl. by rewrite Ht.
    + eexists. split; [done|]. unfold Json.getProgressData. simpl.
      by rewrite assoc_get_set.
  - destruct (Json.truthy (Json.assoc_get Json.wordProgress_name props)) eqn:Ht; simpl.
    + eexists. split; [done|]. unfold Json.getProgressData. simpl. by rewrite Ht.
    + eexists. split; [done|]. unfold Json.getProgressData. simpl.
      by rewrite assoc_get_set.
Qed.

End RawFacts.

Section SessionFacts.
Context `{JsNumber num}.
Implicit Types w : World.t num.

Ltac open_handlers :=
  unfold handle, interval_fires, timerCallback, handleTimeout, submitAnswer,
    submitAnswer_resolved, submitAnswer_rejected, nextQuestion, displayQuestion,
    showSummary, showSummary_rejected, startSession, startSession_request,
    check_wordCount, startSession_resolved, startSession_rejected, nextTrainingWord,
    displayTrainingWord, fetchCorrectAnswer, skipToExam, startExam,
    startQuizAfterTraining, startQuizAfterTraining_resolved,
    startQuizAfterTraining_rejected, retakeExam,
    restartQuiz, updateSelectedLessons, resetAllProgress, load_session, startTimer,
    stopTimer, setInterval, clearInterval, alert in *.

Ltac by_cases :=
  repeat first [progress open_handlers | case_match; simplify_eq].

Ltac no_request :=
  match goal with
  | H : ?l = ?l ++ [_] |- _ =>
      apply (f_equal length) in H; rewrite length_app in H; simpl in H; lia
  end.

(** X11: what [startSession] lets through.  A request goes out only when
    lessons are selected; it carries the selected lessons and the time
    limit of the form.  With "use all words" off the word count entered
    must be a number of at least 1, the count sent is that number capped
    at 200 and at the available words, and nothing is sent when no word is
    available; with "use all words" on the count sent is at least 1. *)
Theorem X11_startSession_request_is_validated w (request : QuizRequest.t num) :
  Page.quizRequests (World.page (startSession w))
  = Page.quizRequests (World.page w) ++ [request] →
  State.selectedLessons (World.state w) ≠ []
  ∧ QuizRequest.selected_lessons request = State.selectedLessons (World.state w)
  ∧ QuizRequest.time_per_question request = Page.timePerQuestion (World.page w)
  ∧ State.timePerQuestion (World.state (startSession w))
    = Page.timePerQuestion (World.page w)
  ∧ (Page.useAllWords (World.page w) = true → (1 ≤ QuizRequest.count request)%Z)
  ∧ (Page.useAllWords (World.page w) = false →
     ∃ entered,
       Page.wordCount (World.page w) = Some entered ∧ (1 ≤ entered)%Z
       ∧ QuizRequest.count request
         = Z.min (Z.min entered MAX_WORDS) (Page.availableWordsCount (World.page w))
       ∧ Page.availableWordsCount (World.page w) ≠ 0%Z
       ∧ (QuizRequest.count request ≤ 200)%Z
       ∧ (QuizRequest.count request ≤ Page.availableWordsCount (World.page w))%Z).
Proof.
  intros Hsent.
  by_cases; simpl in *; try no_request;
    apply app_inv_head in Hsent; injection Hsent as <-; simpl;
    unfold MAX_WORDS, MIN_WORDS in *;
    repeat match goal with
      | H : bool_decide _ = false |- _ => apply bool_decide_eq_false in H
      | H : (_ <? _)%Z = true |- _ => apply Z.ltb_lt in H
      | H : (_ <? _)%Z = false |- _ => apply Z.ltb_ge in H
      | H : (_ =? _)%Z = false |- _ => apply Z.eqb_neq in H
      end;
    (split; [done|]); (split; [done|]); (split; [done|]); (split; [done|]);
    (split; [intros; try congruence; lia|]); intros; try congruence;
    eexists; (split; [reflexivity|]); lia.
Qed.

Lemma run_step (e : @Event num) (events : list (@Event num)) w :
  run (e :: events) w = run events (handle e w).
Proof. reflexivity. Qed.

Lemma run_snoc (e : @Event num) (events : list (@Event num)) w :
  run (events ++ [e]) w = handle e (run events w).
Proof. unfold run. by rewrite foldl_app. Qed.

Lemma replicate_snoc {A : Type} (n : nat) (x : A) :
  replicate (S n) x = replicate n x ++ [x].
Proof. induction n as [|n IH]; [done|]. simpl in *. by rewrite <- IH. Qed.

(** Clicking through the training words short of the last one moves
    [currentIndex] and fetches the answer of each word shown. *)
Lemma training_clicks_before_last (k : nat) w :
  (State.currentIndex (World.state w) + k < length (State.questions (World.state w)))%nat →
  Page.quizRequests (World.page (run (replicate k ClicksNextWord) w))
  = Page.quizRequests (World.page w)
  ∧ State.currentIndex (World.state (run (replicate k ClicksNextWord) w))
    = (State.currentIndex (World.state w) + k)%nat
  ∧ State.questions (World.state (run (replicate k ClicksNextWord) w))
    = State.questions (World.state w)
  ∧ State.wordPairs (World.state (run (replicate k ClicksNextWord) w))
    = State.wordPairs (World.state w)
  ∧ State.answers (World.state (run (replicate k ClicksNextWord) w))
    = State.answers (World.state w)
  ∧ State.trainingCompleted (World.state (run (replicate k ClicksNextWord) w))
    = State.trainingCompleted (World.state w)
  ∧ State.timePerQuestion (World.state (run (replicate k ClicksNextWord) w))
    = State.timePerQuestion (World.state w)
  ∧ State.selectedLessons (World.state (run (replicate k ClicksNextWord) w))
    = State.selectedLessons (World.state w)
  ∧ Page.direction (World.page (run (replicate k ClicksNextWord) w))
    = Page.direction (World.page w)
  ∧ State.sessionId (World.state (run (replicate k ClicksNextWord) w))
    = State.sessionId (World.state w)
  ∧ Page.questionRequests (World.page (run (replicate k ClicksNextWord) w))
    = Page.questionRequests (World.page w)
      ++ training_fetches (State.sessionId (World.state w))
           (State.currentIndex (World.state w)) k.
Proof.
  induction k as [|k IH]; intros Hk.
  - simpl. rewrite Nat.add_0_r, app_nil_r. repeat split; done.
  - rewrite replicate_snoc, run_snoc.
    destruct IH as (Hq & Hi & Hqs & Hw & Ha & Ht & Htp & Hl & Hd & Hs & Hf); [lia|].
    set (w1 := run (replicate k ClicksNextWord) w) in *.
    assert (Hlt : (S (State.currentIndex (World.state w1))
                   < length (State.questions (World.state w1)))%nat).
    { rewrite Hi, Hqs. lia. }
    unfold training_fetches. rewrite seq_S, map_app, app_assoc.
    fold (training_fetches (State.sessionId (World.state w))
            (State.currentIndex (World.state w)) k).
    rewrite <- Hf, <- Hq, <- Hqs, <- Hw, <- Ha, <- Ht, <- Htp, <- Hl, <- Hd, <- Hs.
    replace (State.currentIndex (World.state w) + S k)%nat
      with (S (State.currentIndex (World.state w1))) by lia.
    replace (S (State.currentIndex (World.state w)) + k)%nat
      with (S (State.currentIndex (World.state w1))) by lia.
    clearbody w1. clear - Hlt.
    by_cases; simpl in *;
      repeat match goal with
        | H : (_ <? _)%nat = false |- _ => apply Nat.ltb_ge in H
        | H : _ !! _ = None |- _ => apply lookup_ge_None in H
        end;
      try lia; repeat split; done.
Qed.

(** X16: the training walk.  Clicking "next word" on any word but the last
    moves to the following word and fetches its answer, one
    [GET /quiz/{sessionId}/question/{index}] for each word shown, and sends
    no request for a session; the click on the last word fetches nothing
    more, completes the training and sends exactly one request for the
    exam, which carries the very word pairs of the training, their number
    as count, the time limit and lessons of [state], and neither the
    "use all words" flag nor an exclusion list. *)
Theorem X16_training_ends_with_one_exam_request (k : nat) w :
  (State.currentIndex (World.state w) + S k
   = length (State.questions (World.state w)))%nat →
  let w' := run (replicate (S k) ClicksNextWord) w in
  (∀ j, (j ≤ k)%nat →
     Page.quizRequests (World.page (run (replicate j ClicksNextWord) w))
     = Page.quizRequests (World.page w)
     ∧ Page.questionRequests (World.page (run (replicate j ClicksNextWord) w))
       = Page.questionRequests (World.page w)
         ++ training_fetches (State.sessionId (World.state w))
              (State.currentIndex (World.state w)) j
     ∧ State.currentIndex (World.state (run (replicate j ClicksNextWord) w))
       = (State.currentIndex (World.state w) + j)%nat)
  ∧ Page.quizRequests (World.page w')
    = Page.quizRequests (World.page w)
      ++ [QuizRequest.mk (Page.direction (World.page w))
            (Z.of_nat (length (State.wordPairs (World.state w))))
            (State.timePerQuestion (World.state w))
            (State.selectedLessons (World.state w))
            None None (Some (State.wordPairs (World.state w)))]
  ∧ Page.questionRequests (World.page w')
    = Page.questionRequests (World.page w)
      ++ training_fetches (State.sessionId (World.state w))
           (State.currentIndex (World.state w)) k
  ∧ State.trainingCompleted (World.state w') = true
  ∧ State.currentIndex (World.state w') = 0%nat
  ∧ State.answers (World.state w') = [].
Proof.
  intros Hend w'. split.
  - intros j Hj.
    destruct (training_clicks_before_last j w)
      as (? & ? & _ & _ & _ & _ & _ & _ & _ & _ & ?); [lia|done].
  - unfold w'. rewrite replicate_snoc, run_snoc.
    destruct (training_clicks_before_last k w)
      as (Hq & Hi & Hqs & Hw & Ha & Ht & Htp & Hl & Hd & Hs & Hf); [lia|].
    set (w1 := run (replicate k ClicksNextWord) w) in *.
    assert (Hge : (length (State.questions (World.state w1))
                   ≤ S (State.currentIndex (World.state w1)))%nat).
    { rewrite Hi, Hqs. lia. }
    rewrite <- Hf, <- Hq, <- Hw, <- Htp, <- Hl, <- Hd.
    clearbody w1. clear - Hge.
    by_cases; simpl in *;
      repeat match goal with
        | H : (_ <? _)%nat = true |- _ => apply Nat.ltb_lt in H
        end;
      try lia; repeat split; done.
Qed.

Lemma handle_session_fields (e : @Event num) w :
  loads_session e = false →
  State.wasTrainingSession (World.state (handle e w))
  = State.wasTrainingSession (World.state w)
  ∧ State.wordPairs (World.state (handle e w)) = State.wordPairs (World.state w).
Proof.
  destruct e; simpl; intros He; try discriminate; by_cases; split; reflexivity.
Qed.

Lemma run_session_fields (events : list (@Event num)) w :
  Forall (λ e, loads_session e = false) events →
  State.wasTrainingSession (World.state (run events w))
  = State.wasTrainingSession (World.state w)
  ∧ State.wordPairs (World.state (run events w)) = State.wordPairs (World.state w).
Proof.
  revert w. induction events as [|e events IH]; intros w Hall; [done|].
  apply Forall_cons in Hall as [He Hall]. rewrite run_step.
  destruct (IH (handle e w) Hall) as [-> ->]. by apply handle_session_fields.
Qed.

Lemma retake_shown_spec (summary : Summary.t) (clock : nat → jsstring) w :
  Page.retakeSection_shown (World.page (showSummary_resolved summary clock w))
  = retake_offered (World.state w) summary.
Proof. reflexivity. Qed.

Lemma ExamArrives_session_fields (data : QuizData.t num) w :
  State.wasTrainingSession (World.state (handle (ExamArrives data) w))
  = State.wasTrainingSession (World.state w)
  ∧ State.wordPairs (World.state (handle (ExamArrives data) w))
    = QuizData.word_pairs data.
Proof. by_cases; split; reflexivity. Qed.

Lemma SessionArrives_wasTrainingSession (sessionMode : Mode) (data : QuizData.t num) w :
  State.wasTrainingSession (World.state (handle (SessionArrives sessionMode data) w))
  = match sessionMode with training => true | exam => false end.
Proof. by_cases; reflexivity. Qed.

Lemma ClicksRetake_wasTrainingSession w :
  State.wasTrainingSession (World.state (handle ClicksRetake w)) = true.
Proof. reflexivity. Qed.

Lemma offered_with_words (flag : bool) (words : list (WordPair.t num)) (s : State.t num)
    (summary : Summary.t) :
  State.wasTrainingSession s = flag → State.wordPairs s = words → words ≠ [] →
  retake_offered s summary
  = flag && bool_decide (Summary.score_percentage summary < 100)%Z.
Proof.
  intros Hflag Hw Hwords. subst flag words. unfold retake_offered.
  destruct (State.wordPairs s); [done|]. simpl. rewrite andb_true_r. f_equal.
  apply bool_eq_by_lia. by rewrite Z.ltb_lt, bool_decide_eq_true.
Qed.

(** X17: which attempts end with the retake offer.  Whatever happens
    between the loading of a session and its summary (ticks, typing,
    submissions, clicks through the training words), an attempt loaded in
    exam mode never shows the retake section; an exam entered from
    training or by a retake, with word pairs in the reply, shows it exactly
    when the score is below 100. *)
Theorem X17_retake_follows_training
    (data : QuizData.t num) (events : list (@Event num))
    (summary : Summary.t) (clock : nat → jsstring) w :
  Forall (λ e, loads_session e = false) events →
  Page.retakeSection_shown
    (World.page (showSummary_resolved summary clock
                   (run events (handle (SessionArrives exam data) w)))) = false
  ∧ (QuizData.word_pairs data ≠ [] →
     State.wasTrainingSession (World.state w) = true →
     Page.retakeSection_shown
       (World.page (showSummary_resolved summary clock
                      (run events (handle (ExamArrives data) w))))
     = bool_decide (Summary.score_percentage summary < 100)%Z)
  ∧ (QuizData.word_pairs data ≠ [] →
     Page.retakeSection_shown
       (World.page (showSummary_resolved summary clock
                      (run events (handle (ExamArrives data)
                                     (handle ClicksRetake w)))))
     = bool_decide (Summary.score_percentage summary < 100)%Z)
  ∧ State.wasTrainingSession
      (World.state (run events (handle (SessionArrives training data) w))) = true.
Proof.
  intros Hall. rewrite !retake_shown_spec.
  split; [|split; [|split]].
  - unfold retake_offered.
    destruct (run_session_fields events (handle (SessionArrives exam data) w) Hall)
      as [-> _].
    by rewrite SessionArrives_wasTrainingSession.
  - intros Hwords Hflag.
    destruct (run_session_fields events (handle (ExamArrives data) w) Hall) as [Hf Hw].
    destruct (ExamArrives_session_fields data w) as [Hf' Hw'].
    rewrite (offered_with_words true (QuizData.word_pairs data)); [done| |congruence|done].
    congruence.
  - intros Hwords.
    destruct (run_session_fields events
                (handle (ExamArrives data) (handle ClicksRetake w)) Hall) as [Hf Hw].
    destruct (ExamArrives_session_fields data (handle ClicksRetake w)) as [Hf' Hw'].
    rewrite (offered_with_words true (QuizData.word_pairs data)); [done| |congruence|done].
    rewrite Hf, Hf'. apply ClicksRetake_wasTrainingSession.
  - destruct (run_session_fields events
                (handle (SessionArrives training data) w) Hall) as [-> _].
    by rewrite SessionArrives_wasTrainingSession.
Qed.

End SessionFacts.

(** * Further properties of the driver *)

Section RunFacts.
Context `{JsNumber num}.
Implicit Types w : World.t num.

Ltac open_handlers :=
  unfold handle, interval_fires, timerCallback, handleTimeout, submitAnswer,
    submitAnswer_resolved, submitAnswer_rejected, nextQuestion, displayQuestion,
    showSummary, showSummary_rejected, startSession, startSession_request,
    check_wordCount, startSession_resolved, startSession_rejected, nextTrainingWord,
    displayTrainingWord, fetchCorrectAnswer, skipToExam, startExam,
    startQuizAfterTraining, startQuizAfterTraining_resolved,
    startQuizAfterTraining_rejected, retakeExam,
    restartQuiz, updateSelectedLessons, resetAllProgress, load_session, startTimer,
    stopTimer, setInterval, clearInterval, alert in *.

Ltac by_cases :=
  repeat first [progress open_handlers | case_match; simplify_eq].

Lemma run_app (events1 events2 : list (@Event num)) w :
  run (events1 ++ events2) w = run events2 (run events1 w).
Proof. unfold run. apply foldl_app. Qed.

Lemma run_cons (e : @Event num) (events : list (@Event num)) w :
  run (e :: events) w = run events (handle e w).
Proof. reflexivity. Qed.

Lemma handle_localStorage (e : @Event num) w :
  writes_ledger e = false →
  Page.localStorage (World.page (handle e w)) = Page.localStorage (World.page w).
Proof.
  destruct e; simpl; intros He; try discriminate; by_cases; reflexivity.
Qed.

Lemma handle_answers (e : @Event num) w :
  resets_answers e = false →
  State.answers (World.state (handle e w))
  = State.answers (World.state w)
    ++ match pushed_answer e with Some a => [a] | None => [] end.
Proof.
  destruct e; simpl; intros He; try discriminate; by_cases; simpl;
    by rewrite ?app_nil_r.
Qed.

(** X13: during an exam [state.answers] is append-only.  Over any events
    that do not load, start, retake or restart a session, whether timer
    ticks, typing, submissions blank or not, failures or the summary, the
    list afterwards is the list before followed by the replies that
    arrived, in arrival order; nothing is overwritten or dropped. *)
Theorem X13_answers_are_append_only (events : list (@Event num)) w :
  Forall (λ e, resets_answers e = false) events →
  State.answers (World.state (run events w))
  = State.answers (World.state w) ++ omap pushed_answer events.
Proof.
  revert w. induction events as [|e events IH]; intros w Hall.
  - simpl. by rewrite app_nil_r.
  - apply Forall_cons in Hall as [He Hall]. rewrite run_cons, IH by done.
    rewrite handle_answers by done. rewrite <- app_assoc. f_equal.
    cbn [omap list_omap]. by destruct (pushed_answer e).
Qed.


Lemma handle_ledger_cases (e : @Event num) w :
  Page.localStorage (World.page (handle e w)) = Page.localStorage (World.page w)
  ∨ Page.localStorage (World.page (handle e w)) = None
  ∨ ∃ direction clock wordPairs answers,
      Page.localStorage (World.page (handle e w))
      = saveQuizProgress direction clock wordPairs answers
          (Page.localStorage (World.page w)).
Proof.
  destruct (writes_ledger e) eqn:He.
  - destruct e; try discriminate.
    + right. right. simpl. unfold showSummary_resolved. simpl. eauto.
    + simpl in He. subst confirmed. right. by left.
  - left. by apply handle_localStorage.
Qed.

(** X12: the ledger is written at summary time only.  Events other than
    the arrival of a summary and a confirmed "reset all" leave the stored
    progress exactly as it is; and whatever happens, a ledger that is
    coherent (every entry under the key of its own fields, marked correct)
    stays coherent, so starting from an empty store it always is. *)
Theorem X12_ledger_written_only_at_summary (events : list (@Event num)) w :
  (Forall (λ e, writes_ledger e = false) events →
     Page.localStorage (World.page (run events w)) = Page.localStorage (World.page w))
  ∧ (ledger_coherent (Page.localStorage (World.page w)) →
     ledger_coherent (Page.localStorage (World.page (run events w))))
  ∧ (Page.localStorage (World.page w) = None →
     ledger_coherent (Page.localStorage (World.page (run events w)))).
Proof.
  assert (Hcoh : ∀ events w,
            ledger_coherent (Page.localStorage (World.page w)) →
            ledger_coherent (Page.localStorage (World.page (run events w)))).
  { clear. intros events. induction events as [|e events IH]; intros w Hw; [done|].
    rewrite run_cons. apply IH.
    destruct (handle_ledger_cases e w) as [->|[->|(d & c & wps & ans & ->)]].
    - done.
    - apply ledger_coherent_empty.
    - by apply ledger_coherent_saveQuizProgress. }
  split; [|split].
  - revert w. induction events as [|e events IH]; intros w Hall; [done|].
    apply Forall_cons in Hall as [He Hall].
    rewrite run_cons, IH by done. by apply handle_localStorage.
  - apply Hcoh.
  - intros Hnone. apply Hcoh. rewrite Hnone. apply ledger_coherent_empty.
Qed.

Lemma exam_round_effect (text : jsstring) (result : AnswerResult.t) w :
  Page.submitBtn_onclick (World.page w) = onclick_submitAnswer →
  trim text ≠ [] →
  let w' := run (exam_round text result) w in
  let i := State.currentIndex (World.state w) in
  State.answers (World.state w') = State.answers (World.state w) ++ [Some result]
  ∧ Page.answerRequests (World.page w')
    = Page.answerRequests (World.page w)
      ++ [AnswerRequest.mk (State.sessionId (World.state w)) i (trim text)]
  ∧ State.currentIndex (World.state w') = S i
  ∧ State.sessionId (World.state w') = State.sessionId (World.state w)
  ∧ State.questions (World.state w') = State.questions (World.state w)
  ∧ State.timePerQuestion (World.state w') = State.timePerQuestion (World.state w)
  ∧ ((S i < length (State.questions (World.state w)))%nat →
       Page.submitBtn_onclick (World.page w') = onclick_submitAnswer
       ∧ Page.summaryRequests (World.page w') = Page.summaryRequests (World.page w)
       ∧ State.timerInterval (World.state w')
         = Some (Page.nextIntervalId (World.page w))
       ∧ State.timeRemaining (World.state w') = State.timePerQuestion (World.state w))
  ∧ ((length (State.questions (World.state w)) ≤ S i)%nat →
       Page.summaryRequests (World.page w')
       = Page.summaryRequests (World.page w) ++ [State.sessionId (World.state w)]
       ∧ State.timerInterval (World.state w') = None).
Proof.
  intros Hclick Htrim. unfold exam_round. rewrite !run_cons.
  cbn [handle]. 
  assert (H1 : Page.submitBtn_onclick (World.page (on_page (put_answerInput text) w))
               = onclick_submitAnswer) by exact Hclick.
  rewrite H1.
  assert (Hsub : submitAnswer false (on_page (put_answerInput text) w)
            = on_page (λ p, put_answerRequests
                (Page.answerRequests p
                 ++ [AnswerRequest.mk (State.sessionId (World.state w))
                       (State.currentIndex (World.state w)) (trim text)]) p)
                (stopTimer (on_page (put_answerInput text) w))).
  { unfold submitAnswer.
    assert (Hin : Page.answerInput (World.page (stopTimer (on_page (put_answerInput text) w)))
                  = text).
    { unfold stopTimer. by case_match. }
    rewrite Hin, bool_decide_eq_false_2 by done. simpl.
    unfold stopTimer. by case_match. }
  rewrite Hsub. clear Hsub H1.
  set (w2 := submitAnswer_resolved result _).
  assert (Hclick2 : Page.submitBtn_onclick (World.page w2) = onclick_nextQuestion)
    by reflexivity.
  rewrite Hclick2. unfold run. simpl foldl. subst w2.
  by_cases; simpl in *;
    repeat match goal with
      | H : (_ <? _)%nat = true |- _ => apply Nat.ltb_lt in H
      | H : (_ <? _)%nat = false |- _ => apply Nat.ltb_ge in H
      | H : _ !! _ = None |- _ => apply lookup_ge_None in H
      end;
    repeat split; intros; try done; try lia.
Qed.

(** X14: an exam answered in the ordinary way goes through the questions
    one by one.  From a displayed question, a run of rounds (type a
    non-blank answer, submit, reply arrives, click on) that does not go
    past the last question records the replies in order, sends one request
    per round with consecutive question indices and the trimmed text,
    and advances [currentIndex] by the number of rounds; when it ends on
    the last question the summary is requested once and no timer is left
    running, and before that no summary is requested. *)
Theorem X14_exam_rounds_run_in_sequence
    (rounds : list (jsstring * AnswerResult.t)) w :
  Page.submitBtn_onclick (World.page w) = onclick_submitAnswer →
  Forall (λ round, trim round.1 ≠ []) rounds →
  (State.currentIndex (World.state w) + length rounds
   ≤ length (State.questions (World.state w)))%nat →
  let w' := run (exam_rounds rounds) w in
  State.answers (World.state w')
  = State.answers (World.state w) ++ map (λ round, Some round.2) rounds
  ∧ Page.answerRequests (World.page w')
    = Page.answerRequests (World.page w)
      ++ round_requests (State.sessionId (World.state w))
           (State.currentIndex (World.state w)) rounds
  ∧ State.currentIndex (World.state w')
    = (State.currentIndex (World.state w) + length rounds)%nat
  ∧ (rounds ≠ [] →
     (State.currentIndex (World.state w) + length rounds
      = length (State.questions (World.state w)))%nat →
     Page.summaryRequests (World.page w')
     = Page.summaryRequests (World.page w) ++ [State.sessionId (World.state w)]
     ∧ State.timerInterval (World.state w') = None)
  ∧ ((State.currentIndex (World.state w) + length rounds
      < length (State.questions (World.state w)))%nat →
     Page.summaryRequests (World.page w') = Page.summaryRequests (World.page w)
     ∧ Page.submitBtn_onclick (World.page w') = onclick_submitAnswer).
Proof.
  revert w. induction rounds as [|[text result] rest IH]; intros w Hclick Htexts Hfit.
  - simpl. rewrite !app_nil_r, Nat.add_0_r. repeat split; done.
  - apply Forall_cons in Htexts as [Htext Hrest]. simpl in Htext, Hfit.
    cbn [exam_rounds]. rewrite run_app.
    destruct (exam_round_effect text result w Hclick Htext)
      as (Hans & Hreq & Hidx & Hsid & Hqs & _ & Hmore & Hlast).
    set (w1 := run (exam_round text result) w) in *.
    destruct rest as [|next rest'].
    + simpl. rewrite Hans, Hreq, Hidx. split; [done|]. split; [done|].
      split; [lia|]. split.
      * intros _ Hend. apply Hlast. lia.
      * intros Hlt. destruct Hmore as (? & ? & _); [lia|done].
    + destruct Hmore as (Hclick1 & Hsum1 & _); [simpl in Hfit; lia|].
      destruct (IH w1 Hclick1 Hrest) as (Hans' & Hreq' & Hidx' & Hend' & Hmid').
      { rewrite Hidx, Hqs. simpl in Hfit |- *. lia. }
      rewrite Hans', Hreq', Hidx', Hans, Hreq, Hidx, Hsid.
      cbn [map round_requests length fst snd]. rewrite <- !app_assoc.
      split; [done|]. split; [done|]. split; [lia|]. split.
      * intros _ Hend. rewrite <- Hsum1, <- Hsid. apply Hend'; [done|].
        rewrite Hidx, Hqs. simpl in Hend |- *. lia.
      * intros Hlt. rewrite <- Hsum1. apply Hmid'.
        rewrite Hidx, Hqs. simpl in Hlt |- *. lia.
Qed.


Lemma typing_commutes_with_tick (text : jsstring) (id : positive) w :
  interval_fires id (handle (Types text) w) = handle (Types text) (interval_fires id w).
Proof.
  destruct w as [[] []]. by_cases; simpl in *; simplify_eq;
    first [congruence | reflexivity].
Qed.

Lemma typing_commutes_with_ticks (text : jsstring) (id : positive) (n : nat) w :
  ticks id n (handle (Types text) w) = handle (Types text) (ticks id n w).
Proof.
  unfold ticks. induction n as [|n IH]; [done|].
  rewrite !Nat.iter_succ. by rewrite IH, typing_commutes_with_tick.
Qed.

Lemma ticks_shift (id : positive) (n : nat) w :
  ticks id n (interval_fires id w) = ticks id (S n) w.
Proof. unfold ticks. by rewrite <- Nat.iter_succ_r. Qed.

(** Interleaved typing can be moved behind the ticks. *)
Lemma typing_after_ticks (id : positive) (events : list (@Event num)) w :
  Forall (λ e, types_or_fires id e = true) events →
  run events w
  = run (filter (λ e, is_fire e = false) events)
      (ticks id (length (filter (λ e, is_fire e = true) events)) w).
Proof.
  revert w. induction events as [|e events IH]; intros w Hall; [done|].
  apply Forall_cons in Hall as [He Hall]. rewrite run_cons, IH by done.
  rewrite !filter_cons. destruct e; simpl in He; try discriminate.
  - apply bool_decide_eq_true in He as ->.
    rewrite (decide_True (P := is_fire (IntervalFires id) = true)) by reflexivity.
    rewrite (decide_False (P := is_fire (IntervalFires id) = false)) by discriminate.
    cbn [length handle]. by rewrite ticks_shift.
  - rewrite (decide_False (P := is_fire (Types text) = true)) by discriminate.
    rewrite (decide_True (P := is_fire (Types text) = false)) by reflexivity.
    rewrite run_cons. by rewrite typing_commutes_with_ticks.
Qed.

Lemma typing_keeps_timer_and_requests (events : list (@Event num)) w :
  Forall (λ e, ∃ text, e = Types text) events →
  Page.answerRequests (World.page (run events w)) = Page.answerRequests (World.page w)
  ∧ State.timerInterval (World.state (run events w))
    = State.timerInterval (World.state w).
Proof.
  revert w. induction events as [|e events IH]; intros w Hall; [done|].
  apply Forall_cons in Hall as [[text ->] Hall]. rewrite run_cons.
  destruct (IH (handle (Types text) w) Hall) as [-> ->]. done.
Qed.

(** X15: typing neither delays nor hastens the timeout, and the timeout
    does not submit what was typed.  After [startTimer], over any
    interleaving of typing with firings of the started interval, the
    automatic submission goes out exactly when the number of firings
    reaches the expiry tick, it carries the empty answer whatever the input
    holds, and until then the timer stays active. *)
Theorem X15_typing_does_not_affect_the_timeout (events : list (@Event num)) w :
  let id := Page.nextIntervalId (World.page w) in
  let d := State.timePerQuestion (World.state w) in
  let fired := length (filter (λ e, is_fire e = true) events) in
  Forall (λ e, types_or_fires id e = true) events →
  Page.answerRequests (World.page (run events (startTimer w)))
  = Page.answerRequests (World.page w)
    ++ (if (expiry_tick d <=? fired)%nat
        then [AnswerRequest.mk (State.sessionId (World.state w))
                (State.currentIndex (World.state w)) []]
        else [])
  ∧ State.timerInterval (World.state (run events (startTimer w)))
    = (if (expiry_tick d <=? fired)%nat then None else Some id).
Proof.
  intros id d fired Hall. rewrite (typing_after_ticks id) by done. fold fired.
  destruct (typing_keeps_timer_and_requests
              (filter (λ e, is_fire e = false) events)
              (ticks id fired (startTimer w))) as [-> ->].
  { apply Forall_forall. intros e He. apply list_elem_of_filter in He as [Hfire He].
    rewrite Forall_forall in Hall. specialize (Hall e He).
    destruct e; try discriminate. eauto. }
  destruct (Nat.leb_spec (expiry_tick d) fired) as [Hle|Hlt].
  - unfold id, d in *. rewrite ticks_after_expiry by done.
    rewrite timed_out_requests, timed_out_state, stopped_counting_page, stopTimer_state.
    cbn [put_intervals Page.answerRequests]. rewrite startTimer_page.
    split; reflexivity.
  - unfold id, d in *. rewrite ticks_counting by done.
    rewrite counting_page, counting_state, startTimer_page, startTimer_state.
    rewrite app_nil_r. split; reflexivity.
Qed.


End RunFacts.

(** ** No leaked interval, and no guard on a pending submission *)

Section TimerAndSubmitFacts.
Context `{JsNumber num}.
Implicit Types w : World.t num.

(** X26: no interval leaks.  On every page the events can lead to from the
    loaded page, the intervals alive in the browser are exactly the one
    recorded in [state.timerInterval], so at most one; [stopTimer] leaves
    none alive, [startTimer] leaves the new one alone alive, and a restart
    of the quiz leaves none. *)
Theorem X26_no_interval_leaks (events : list (@Event num))
    (s : State.t num) (p : Page.t num) :
  let w := run events (fresh_page s p) in
  Page.intervals (World.page w)
  = match State.timerInterval (World.state w) with
    | Some id => [id]
    | None => []
    end
  ∧ (length (Page.intervals (World.page w)) ≤ 1)%nat
  ∧ Page.intervals (World.page (stopTimer w)) = []
  ∧ Page.intervals (World.page (startTimer w)) = [Page.nextIntervalId (World.page w)]
  ∧ Page.intervals (World.page (restartQuiz w)) = [].
Proof.
  intros w.
  destruct (one_timer_run events _ (one_timer_fresh_page s p)) as [Hone Hfresh].
  fold w in Hone, Hfresh.
  assert (Hstop : Page.intervals (World.page (stopTimer w)) = []).
  { destruct (one_timer_stopTimer w (conj Hone Hfresh)) as [Hone' _].
    unfold one_timer in Hone'. by rewrite stopTimer_state in Hone'. }
  split; [exact Hone|]. split; [|split; [done|split; [|exact Hstop]]].
  - unfold one_timer in Hone. rewrite Hone. destruct (State.timerInterval _); simpl; lia.
  - destruct (one_timer_startTimer w (conj Hone Hfresh)) as [Hone' _].
    unfold one_timer in Hone'. by rewrite startTimer_state in Hone'.
Qed.

Lemma submit_click w :
  Page.submitBtn_onclick (World.page w) = onclick_submitAnswer →
  trim (Page.answerInput (World.page w)) ≠ [] →
  handle ClicksSubmit w
  = on_page (λ p, put_answerRequests
               (Page.answerRequests p
                ++ [AnswerRequest.mk (State.sessionId (World.state w))
                      (State.currentIndex (World.state w))
                      (trim (Page.answerInput (World.page w)))]) p)
      (stopTimer w).
Proof.
  intros Hclick Htrim. cbn [handle]. rewrite Hclick. unfold submitAnswer.
  rewrite stopTimer_answerInput, bool_decide_eq_false_2 by done. simpl.
  by rewrite stopTimer_state.
Qed.

Lemma submit_clicks (n : nat) w :
  Page.submitBtn_onclick (World.page w) = onclick_submitAnswer →
  trim (Page.answerInput (World.page w)) ≠ [] →
  let w' := run (replicate n ClicksSubmit) w in
  Page.answerRequests (World.page w')
  = Page.answerRequests (World.page w)
    ++ replicate n (AnswerRequest.mk (State.sessionId (World.state w))
                      (State.currentIndex (World.state w))
                      (trim (Page.answerInput (World.page w))))
  ∧ State.answers (World.state w') = State.answers (World.state w)
  ∧ State.currentIndex (World.state w') = State.currentIndex (World.state w)
  ∧ Page.alerts (World.page w') = Page.alerts (World.page w).
Proof.
  revert w. induction n as [|n IH]; intros w Hclick Htrim.
  - simpl. rewrite app_nil_r. repeat split; done.
  - cbn [replicate]. change (run (ClicksSubmit :: replicate n ClicksSubmit) w)
      with (run (replicate n ClicksSubmit) (handle ClicksSubmit w)).
    rewrite submit_click by done.
    set (w1 := on_page _ (stopTimer w)).
    assert (Hinput : Page.answerInput (World.page w1) = Page.answerInput (World.page w)).
    { unfold w1. simpl. apply stopTimer_answerInput. }
    assert (Hclick1 : Page.submitBtn_onclick (World.page w1) = onclick_submitAnswer).
    { unfold w1. simpl. rewrite stopTimer_page. by destruct (State.timerInterval _). }
    assert (Hstate : World.state w1 = set_timerInterval None (World.state w)).
    { unfold w1. simpl. rewrite stopTimer_state. done. }
    assert (Hrequests : Page.answerRequests (World.page w1)
                        = Page.answerRequests (World.page w)
                          ++ [AnswerRequest.mk (State.sessionId (World.state w))
                                (State.currentIndex (World.state w))
                                (trim (Page.answerInput (World.page w)))]).
    { unfold w1. simpl. by rewrite stopTimer_answerRequests. }
    assert (Halerts : Page.alerts (World.page w1) = Page.alerts (World.page w)).
    { unfold w1. simpl. apply stopTimer_alerts. }
    destruct (IH w1) as (Hreq & Hans & Hidx & Hal); [done|by rewrite Hinput|].
    clearbody w1. rewrite Hreq, Hans, Hidx, Hal, Hrequests, Hinput, Halerts, Hstate.
    simpl. rewrite <- app_assoc. repeat split; done.
Qed.

Lemma replies_arrive (results : list AnswerResult.t) w :
  let w' := run (map AnswerArrives results) w in
  State.answers (World.state w') = State.answers (World.state w) ++ map Some results
  ∧ State.currentIndex (World.state w') = State.currentIndex (World.state w)
  ∧ Page.answerRequests (World.page w') = Page.answerRequests (World.page w).
Proof.
  revert w. induction results as [|result results IH]; intros w.
  - simpl. by rewrite app_nil_r.
  - cbn [map]. change (run (AnswerArrives result :: map AnswerArrives results) w)
      with (run (map AnswerArrives results) (handle (AnswerArrives result) w)).
    destruct (IH (handle (AnswerArrives result) w)) as (-> & -> & ->).
    simpl. by rewrite <- app_assoc.
Qed.

(** X27: a pending submission is not guarded.  The submit button stays
    armed while a request is in flight: [n] clicks on a non-blank answer
    send [n] identical requests for the same question, without any alert,
    and every reply that then arrives is pushed onto [state.answers] while
    [currentIndex] stays where it is, so that one question can contribute
    several answers. *)
Theorem X27_pending_submission_is_not_guarded (n : nat)
    (results : list AnswerResult.t) w :
  Page.submitBtn_onclick (World.page w) = onclick_submitAnswer →
  trim (Page.answerInput (World.page w)) ≠ [] →
  let w' := run (replicate n ClicksSubmit ++ map AnswerArrives results) w in
  Page.answerRequests (World.page w')
  = Page.answerRequests (World.page w)
    ++ replicate n (AnswerRequest.mk (State.sessionId (World.state w))
                      (State.currentIndex (World.state w))
                      (trim (Page.answerInput (World.page w))))
  ∧ State.answers (World.state w') = State.answers (World.state w) ++ map Some results
  ∧ State.currentIndex (World.state w') = State.currentIndex (World.state w)
  ∧ Page.alerts (World.page (run (replicate n ClicksSubmit) w))
    = Page.alerts (World.page w).
Proof.
  intros Hclick Htrim w'. unfold w', run. rewrite foldl_app.
  fold (run (replicate n ClicksSubmit) w).
  fold (run (map AnswerArrives results) (run (replicate n ClicksSubmit) w)).
  destruct (submit_clicks n w Hclick Htrim) as (Hreq & Hans & Hidx & Hal).
  destruct (replies_arrive results (run (replicate n ClicksSubmit) w)) as (-> & -> & ->).
  by rewrite Hreq, Hans, Hidx, Hal.
Qed.

End TimerAndSubmitFacts.

(** X27 on a double click: two requests for question 0, two answers. *)
Lemma X27_witness_double_click :
  let w := on_page (put_answerInput (u16 "x")) sample_exam in
  let w' := run [ClicksSubmit; ClicksSubmit; AnswerArrives sample_answer;
                 AnswerArrives sample_timeout_result] w in
  Page.answerRequests (World.page w')
  = [AnswerRequest.mk (Some (u16 "session-1")) 0 (u16 "x");
     AnswerRequest.mk (Some (u16 "session-1")) 0 (u16 "x")]
  ∧ State.answers (World.state w') = [Some sample_answer; Some sample_timeout_result]
  ∧ State.currentIndex (World.state w') = 0%nat.
Proof.
  intros w w'.
  destruct (X27_pending_submission_is_not_guarded 2 [sample_answer; sample_timeout_result] w)
    as (Hreq & Hans & Hidx & _).
  - reflexivity.
  - vm_compute. discriminate.
  - split; [exact Hreq|]. split; [exact Hans|exact Hidx].
Defined.

(** ** The Greek virtual keyboard *)

Section KeyboardFacts.
Import Keyboard.

Lemma presses_cons (key : Key) (keys : list Key) (k : Keyboard.t) :
  presses (key :: keys) k = presses keys (press key k).
Proof. reflexivity. Qed.

Lemma presses_app (keys1 keys2 : list Key) (k : Keyboard.t) :
  presses (keys1 ++ keys2) k = presses keys2 (presses keys1 k).
Proof. unfold presses. apply foldl_app. Qed.

Lemma exclusive_spec (a : Active.t) :
  exclusive a
  ↔ (Active.acute a && Active.grave a || Active.acute a && Active.circumflex a
     || Active.grave a && Active.circumflex a
     || Active.smoothBreathing a && Active.roughBreathing a) = false.
Proof.
  destruct a as [b1 b2 b3 b4 b5 b6 b7].
  destruct b1, b2, b3, b4, b5; vm_compute; (split; [intros [? ?]|intros ?; split]);
    (first [reflexivity | discriminate | lia]).
Qed.

Lemma exclusive_toggleDiacritic (d : Diacritic) (k : Keyboard.t) :
  exclusive (activeDiacritics k) → exclusive (activeDiacritics (toggleDiacritic d k)).
Proof.
  rewrite !exclusive_spec. destruct k as [a shift mode text s e].
  destruct a as [b1 b2 b3 b4 b5 b6 b7].
  destruct d, b1, b2, b3, b4, b5; vm_compute; done.
Qed.

Lemma insertVowelWithDiacritics_marks (baseVowel : N) (k : Keyboard.t) :
  activeDiacritics (insertVowelWithDiacritics baseVowel k) = no_marks
  ∧ shiftMode (insertVowelWithDiacritics baseVowel k) = false.
Proof.
  destruct k as [a [] mode text s e]; split; reflexivity.
Qed.

Lemma insertGreekLetter_marks (lowerChar upperChar : jsstring) (k : Keyboard.t) :
  activeDiacritics (insertGreekLetter lowerChar upperChar k) = activeDiacritics k
  ∧ shiftMode (insertGreekLetter lowerChar upperChar k) = false.
Proof.
  destruct k as [a [] mode text s e]; split; reflexivity.
Qed.

Lemma exclusive_press (key : Key) (k : Keyboard.t) :
  exclusive (activeDiacritics k) → exclusive (activeDiacritics (press key k)).
Proof.
  intros Hk. destruct key as [d|v|l u| |position c]; unfold press.
  - by apply exclusive_toggleDiacritic.
  - destruct (insertVowelWithDiacritics_marks v k) as [-> _]. by apply exclusive_spec.
  - by destruct (insertGreekLetter_marks l u k) as [-> _].
  - done.
  - unfold replaceDiacritic. by case_match.
Qed.

(** X19: the marks stay exclusive.  Starting with at most one accent
    (acute, grave, circumflex) and at most one breathing active, no sequence
    of presses on the keyboard (marks, vowels, letters, shift, picked
    variants) ever leaves two accents or two breathings active. *)
Theorem X19_marks_stay_exclusive (keys : list Key) (k : Keyboard.t) :
  exclusive (activeDiacritics k) → exclusive (activeDiacritics (presses keys k)).
Proof.
  revert k. induction keys as [|key keys IH]; intros k Hk; [done|].
  rewrite presses_cons. apply IH. by apply exclusive_press.
Qed.

Lemma diacriticMap_get_cases (baseChar : N) :
  diacriticMap_get baseChar = None
  ∨ baseChar ∈ [945; 949; 951; 953; 959; 965; 969; 961].
Proof.
  unfold diacriticMap_get, diacriticMap. simpl.
  repeat (case_bool_decide; [subst; right; set_solver|]). by left.
Qed.

(** X20: the diaeresis combines with nothing.  When the diaeresis is
    active together with any other mark, [getCombinedCharacter] finds no
    entry for any letter and returns the plain letter, as if no mark were
    active: the table's entries for diaeresis with an accent are out of
    reach. *)
Theorem X20_diaeresis_combines_with_nothing (baseChar : N) (k : Keyboard.t) :
  active diaeresis (activeDiacritics k) = true →
  (∃ d, d ≠ diaeresis ∧ active d (activeDiacritics k) = true) →
  getCombinedCharacter baseChar k = getCombinedCharacter baseChar (resetDiacritics k).
Proof.
  intros Hdiaeresis (d & Hne & Hd).
  destruct (diacriticMap_get_cases baseChar) as [Hnone|Hin].
  - unfold getCombinedCharacter. by rewrite Hnone.
  - destruct k as [a shift mode text s e]. simpl in *.
    destruct a as [b1 b2 b3 b4 b5 b6 b7]. simpl in Hdiaeresis. subst b7.
    assert (Hsome : b1 || b2 || b3 || b4 || b5 || b6 = true).
    { destruct d; simpl in Hd; subst; try done; by rewrite ?orb_true_r. }
    clear d Hne Hd.
    repeat (apply elem_of_cons in Hin as [->|Hin]);
      [..|by apply elem_of_nil in Hin];
      destruct b1, b2, b3, b4, b5, b6; try discriminate Hsome;
      destruct shift; vm_compute; reflexivity.
Qed.

(** X21: marks and shift last for one vowel.  After a vowel has been
    inserted every mark is inactive and shift is off, whatever was active
    before, so the next vowel key gives the plain small letter. *)
Theorem X21_marks_last_one_vowel (baseVowel next : N) (k : Keyboard.t) :
  let k1 := insertVowelWithDiacritics baseVowel k in
  (∀ d, active d (activeDiacritics k1) = false)
  ∧ shiftMode k1 = false
  ∧ getCombinedCharacter next k1
    = match diacriticMap_get next with
      | Some charMap => CharMap.base charMap
      | None => [next]
      end.
Proof.
  intros k1. destruct (insertVowelWithDiacritics_marks baseVowel k) as [Hmarks Hshift].
  fold k1 in Hmarks, Hshift. split; [|split; [done|]].
  - intros d. rewrite Hmarks. by destruct d.
  - unfold getCombinedCharacter. rewrite Hmarks, Hshift. by destruct (diacriticMap_get next).
Qed.

Lemma insertGreek_value (char : jsstring) (k : Keyboard.t) :
  selection_ok k →
  value (insertGreek char k)
  = take (selectionStart k) (value k) ++ char ++ drop (selectionEnd k) (value k)
  ∧ selectionStart (insertGreek char k) = (selectionStart k + length char)%nat
  ∧ selectionEnd (insertGreek char k) = (selectionStart k + length char)%nat
  ∧ length (value (insertGreek char k))
    = (length (value k) - (selectionEnd k - selectionStart k) + length char)%nat.
Proof.
  unfold selection_ok, insertGreek. intros Hk. simpl.
  rewrite !length_app, length_take, length_drop.
  repeat split; lia.
Qed.

Lemma insertGreek_selection_ok (char : jsstring) (k : Keyboard.t) :
  selection_ok k → selection_ok (insertGreek char k).
Proof.
  intros Hk. destruct (insertGreek_value char k Hk) as (_ & Hs & He & Hlen).
  unfold selection_ok in *. lia.
Qed.

Lemma insertGreek_insertGreek (char1 char2 : jsstring) (k : Keyboard.t) :
  selection_ok k →
  insertGreek char2 (insertGreek char1 k) = insertGreek (char1 ++ char2) k.
Proof.
  destruct k as [a shift mode text s e]. unfold selection_ok, insertGreek. simpl.
  intros Hk.
  set (front := take s text). set (back := drop e text).
  assert (Hfront : length front = s) by (unfold front; rewrite length_take; lia).
  assert (Hpos : ((s + length char1) `min` length (front ++ char1 ++ back)
                  = length (front ++ char1))%nat).
  { rewrite !length_app. lia. }
  rewrite Hpos, (app_assoc front char1 back), take_app_length, drop_app_length.
  rewrite <- !app_assoc. f_equal; rewrite !length_app; lia.
Qed.

(** X22: insertions compose.  With the selection inside the value,
    [insertGreek] replaces the selected text by the character and leaves a
    collapsed cursor right behind it, still inside the value; and inserting
    one character after another is the same as inserting the two as one
    string. *)
Theorem X22_insertions_compose (char1 char2 : jsstring) (k : Keyboard.t) :
  selection_ok k →
  value (insertGreek char1 k)
  = take (selectionStart k) (value k) ++ char1 ++ drop (selectionEnd k) (value k)
  ∧ selectionStart (insertGreek char1 k) = (selectionStart k + length char1)%nat
  ∧ selectionEnd (insertGreek char1 k) = (selectionStart k + length char1)%nat
  ∧ selection_ok (insertGreek char1 k)
  ∧ insertGreek char2 (insertGreek char1 k) = insertGreek (char1 ++ char2) k.
Proof.
  intros Hk. destruct (insertGreek_value char1 k Hk) as (Hv & Hs & He & _).
  split; [done|]. split; [done|]. split; [done|].
  split; [by apply insertGreek_selection_ok | by apply insertGreek_insertGreek].
Qed.

Lemma insertGreekLetter_spec (lowerChar upperChar : jsstring) (k : Keyboard.t) :
  insertGreekLetter lowerChar upperChar k
  = insertGreek (if shiftMode k then upperChar else lowerChar)
      (mk (activeDiacritics k) false (diacriticMode k) (value k)
         (selectionStart k) (selectionEnd k)).
Proof. destruct k as [a [] mode text s e]; reflexivity. Qed.

Lemma lower_letters (rest : list (jsstring * jsstring)) (char : jsstring)
    (k : Keyboard.t) :
  selection_ok k → shiftMode k = false →
  presses (map (λ lu, PressLetter lu.1 lu.2) rest) (insertGreek char k)
  = insertGreek (char ++ concat (rest.*1)) k.
Proof.
  intros Hk Hshift. revert char.
  induction rest as [|[l u] rest IH]; intros char.
  - simpl. by rewrite app_nil_r.
  - rewrite fmap_cons, presses_cons. cbn [press fst snd].
    rewrite insertGreekLetter_spec.
    assert (Hsame : mk (activeDiacritics (insertGreek char k)) false
                      (diacriticMode (insertGreek char k)) (value (insertGreek char k))
                      (selectionStart (insertGreek char k))
                      (selectionEnd (insertGreek char k))
                    = insertGreek char k).
    { destruct k as [a shift mode text s e]. simpl in Hshift. by subst shift. }
    assert (Hoff : shiftMode (insertGreek char k) = false) by done.
    rewrite Hsame, Hoff, insertGreek_insertGreek, IH by done.
    simpl. by rewrite <- app_assoc.
Qed.

(** X23: shift lasts for one letter.  When letter keys are pressed one
    after another, only the first can come out as its capital, and only if
    shift was on; all later ones are small, shift is off afterwards, and
    the field ends up as if the whole string had been inserted at once. *)
Theorem X23_shift_lasts_one_letter (lowerChar upperChar : jsstring)
    (rest : list (jsstring * jsstring)) (k : Keyboard.t) :
  selection_ok k →
  presses (PressLetter lowerChar upperChar :: map (λ lu, PressLetter lu.1 lu.2) rest) k
  = insertGreek ((if shiftMode k then upperChar else lowerChar) ++ concat (rest.*1))
      (mk (activeDiacritics k) false (diacriticMode k) (value k)
         (selectionStart k) (selectionEnd k)).
Proof.
  intros Hk. rewrite presses_cons. cbn [press]. rewrite insertGreekLetter_spec.
  by apply lower_letters.
Qed.

Lemma replaceDiacritic_value (position : nat) (newChar : jsstring) (k : Keyboard.t) :
  value (replaceDiacritic position newChar k)
  = take position (value k) ++ newChar ++ drop (position + 1) (value k).
Proof. unfold replaceDiacritic. by case_bool_decide. Qed.

(** X24: what [replaceDiacritic] does in and out of range.  At a position
    inside the value, a one-unit variant overwrites exactly the code unit
    there and the length stays; a longer variant lengthens the value by the
    difference.  At a position at or past the end nothing is replaced: the
    variant is appended.  Either way the editing mode is switched off. *)
Theorem X24_replaceDiacritic_in_and_out_of_range (position : nat) (c : N)
    (newChar : jsstring) (k : Keyboard.t) :
  ((position < length (value k))%nat →
     value (replaceDiacritic position [c] k) = <[position := c]> (value k)
     ∧ length (value (replaceDiacritic position newChar k))
       = (length (value k) - 1 + length newChar)%nat)
  ∧ ((length (value k) ≤ position)%nat →
     value (replaceDiacritic position newChar k) = value k ++ newChar)
  ∧ diacriticMode (replaceDiacritic position newChar k) = false
  ∧ activeDiacritics (replaceDiacritic position newChar k) = activeDiacritics k
  ∧ shiftMode (replaceDiacritic position newChar k) = shiftMode k.
Proof.
  rewrite !replaceDiacritic_value. split; [|split; [|split; [|split]]].
  - intros Hin. split.
    + rewrite insert_take_drop by done. by rewrite Nat.add_1_r.
    + rewrite !length_app, length_take, length_drop. lia.
  - intros Hout. rewrite take_ge, drop_ge by lia. by rewrite app_nil_r.
  - unfold replaceDiacritic. by case_bool_decide.
  - unfold replaceDiacritic. by case_bool_decide.
  - unfold replaceDiacritic. by case_bool_decide.
Qed.

End KeyboardFacts.

(** ** Viewing the ledger *)

Section MasteredWordsFacts.
Context `{JsNumber num} `{JsArith num}.
Implicit Types w : World.t num.

Lemma mastered_of_stats_counts (lesson : num) (direction : jsstring) (entry : Entry.t num) :
  mastered_of lesson direction entry = stats_counts [lesson] direction entry.
Proof.
  unfold mastered_of, stats_counts. do 2 f_equal.
  apply bool_decide_ext. rewrite list_elem_of_singleton. done.
Qed.

Lemma length_viewMasteredWords_collect (lesson : num) (direction : jsstring)
    (totalWords : num) store :
  length (viewMasteredWords_collect lesson direction store)
  = ProgressStats.correctCount (getProgressStats [lesson] direction totalWords store).
Proof.
  unfold viewMasteredWords_collect, getProgressStats. simpl.
  rewrite count_loop_length. simpl.
  induction (map_to_list (ProgressData.wordProgress (getProgressData store)))
    as [|[key entry] l IH]; [done|].
  rewrite filter_cons. cbn [omap list_omap]. simpl.
  rewrite mastered_of_stats_counts.
  destruct (stats_counts [lesson] direction entry) eqn:Hc.
  - rewrite decide_True by done. simpl. by rewrite <- IH.
  - rewrite decide_False by (by intros ?). exact IH.
Qed.

(** X25: the mastered-words view agrees with the statistics.  For one
    lesson, [viewMasteredWords] alerts "no mastered words" exactly when
    [getProgressStats] counts zero; otherwise the modal holds as many
    words as the statistics count, and each of them, with its lesson, is a
    word [getCorrectWordsForLessons] would exclude. *)
Theorem X25_mastered_view_agrees_with_statistics (lesson : num) (direction : jsstring)
    (totalWords : num) store :
  let correctCount :=
    ProgressStats.correctCount (getProgressStats [lesson] direction totalWords store) in
  match viewMasteredWords lesson direction store with
  | NoMasteredWords => correctCount = 0%nat
  | MasteredWordsModal masteredWords =>
      correctCount ≠ 0%nat
      ∧ length masteredWords = correctCount
      ∧ ∀ word, word ∈ masteredWords →
          WordPair.mk (MasteredWord.greek word) (MasteredWord.bulgarian word) (Some lesson)
          ∈ getCorrectWordsForLessons [lesson] direction store
  end.
Proof.
  intros correctCount. unfold viewMasteredWords.
  pose proof (length_viewMasteredWords_collect lesson direction totalWords store) as Hlen.
  fold correctCount in Hlen.
  case_bool_decide as Hzero; [congruence|].
  split; [congruence|]. split; [done|].
  intros word Hword. unfold viewMasteredWords_collect in Hword.
  apply list_elem_of_omap in Hword as ([key entry] & Hentry & Hsome). simpl in Hsome.
  destruct (mastered_of lesson direction entry) eqn:Hm; [|done].
  injection Hsome as <-. simpl.
  unfold getCorrectWordsForLessons. apply list_elem_of_omap.
  exists (key, entry). split; [done|]. simpl.
  unfold mastered_of in Hm. unfold mastered_in.
  apply andb_true_iff in Hm as [Hm Hcorrect]. apply andb_true_iff in Hm as [Hlesson Hdir].
  apply bool_decide_eq_true in Hlesson. apply bool_decide_eq_true in Hdir.
  rewrite Hcorrect. rewrite (bool_decide_eq_true_2 _ Hdir).
  rewrite bool_decide_eq_true_2 by (rewrite Hlesson; apply list_elem_of_singleton; done).
  simpl. by rewrite Hlesson.
Qed.

End MasteredWordsFacts.

(** ** The properties at concrete inputs *)

(** X1 on [Λογος!] marked and [λογος] asked. *)
Lemma X1_witness_capital_marked :
  isWordCorrect [955; 959; 947; 959; 962] [1076; 1091; 1084; 1072] 3%Z
    (u16 "greek_to_bulgarian")
    (markWordCorrect [923; 959; 947; 959; 962; 33] [1044; 1091; 1084; 1072] 3%Z
       (u16 "greek_to_bulgarian") (u16 "2025-10-18T10:00:00.000Z") None) = true.
Proof.
  refine (proj2 (X1_marked_word_is_correct_in_every_spelling
                   [923; 959; 947; 959; 962; 33] [955; 959; 947; 959; 962]
                   [1044; 1091; 1084; 1072] [1076; 1091; 1084; 1072] 3%Z
                   (u16 "greek_to_bulgarian") (u16 "2025-10-18T10:00:00.000Z") None _ _)).
  - apply capital_left; [split; [reflexivity|split; [discriminate|reflexivity]]|].
    do 4 apply same_unit. apply dropped_left; [reflexivity|]. apply same_end.
  - apply capital_left; [split; [reflexivity|split; [discriminate|reflexivity]]|].
    do 3 apply same_unit. apply same_end.
Defined.

(** X2 on the same word in two lessons. *)
Lemma X2_witness_other_lesson :
  isWordCorrect [955; 959; 947; 959; 962] [1076; 1091; 1084; 1072] 4%Z
    (u16 "greek_to_bulgarian")
    (markWordCorrect [955; 959; 947; 959; 962] [1076; 1091; 1084; 1072] 3%Z
       (u16 "greek_to_bulgarian") (u16 "2025-10-18T10:00:00.000Z") None)
  = isWordCorrect [955; 959; 947; 959; 962] [1076; 1091; 1084; 1072] 4%Z
      (u16 "greek_to_bulgarian") None.
Proof.
  refine (proj1 (X2_marking_leaves_other_words_alone
                   [955; 959; 947; 959; 962] [955; 959; 947; 959; 962]
                   [1076; 1091; 1084; 1072] [1076; 1091; 1084; 1072] 3%Z 4%Z
                   (u16 "greek_to_bulgarian") (u16 "greek_to_bulgarian")
                   (u16 "2025-10-18T10:00:00.000Z") None _)).
  vm_compute. discriminate.
Defined.

(** X6 on a mastered word that times out in a later attempt. *)
Lemma X6_witness_timed_out_later :
  let direction := u16 "greek_to_bulgarian" in
  let store :=
    markWordCorrect (WordPair.greek sample_word) (WordPair.bulgarian sample_word) 1%Z
      direction (u16 "2025-10-17T09:00:00.000Z") None in
  let key :=
    progressKey direction (WordPair.greek sample_word) (WordPair.bulgarian sample_word)
      1%Z in
  ∃ entry',
    ProgressData.wordProgress
      (getProgressData
         (saveQuizProgress direction sample_clock [sample_word]
            [Some sample_timeout_result] store)) !! key = Some entry'
    ∧ (true = true → Entry.correct entry' = true).
Proof.
  intros direction store key.
  refine (proj1 (X6_summary_never_unmasters direction sample_clock [sample_word]
                   [Some sample_timeout_result] store key
                   (Entry.mk (WordPair.greek sample_word) (WordPair.bulgarian sample_word)
                      1%Z direction true (u16 "2025-10-17T09:00:00.000Z")) _)).
  vm_compute. reflexivity.
Defined.

(** X8 from the empty store. *)
Lemma X8_witness_first_mark :
  ledger_coherent
    (markWordCorrect [955; 959; 947; 959; 962] [1076; 1091; 1084; 1072] 3%Z
       (u16 "greek_to_bulgarian") (u16 "2025-10-18T10:00:00.000Z") None).
Proof.
  refine (proj1 (X8_ledger_stays_coherent (None : Storage Z) _)
            [955; 959; 947; 959; 962] [1076; 1091; 1084; 1072] 3%Z
            (u16 "greek_to_bulgarian") (u16 "2025-10-18T10:00:00.000Z")).
  intros key entry Hlk. simpl in Hlk. rewrite lookup_empty in Hlk. discriminate Hlk.
Defined.

(** X10 on Greek [ab_c] with Bulgarian [d] against Greek [ab] with
    Bulgarian [c_d]. *)
Lemma X10_witness_shifted_separator :
  createWordKey (u16 "ab_c") (u16 "d") 1%Z = createWordKey (u16 "ab") (u16 "c_d") 1%Z.
Proof.
  refine (proj1 (X10_underscore_makes_keys_ambiguous (u16 "ab") (u16 "c") (u16 "d") 1%Z
                   _ _ _));
    repeat constructor.
Defined.

(** X11 on the sample form: ten words asked for, twenty available. *)
Lemma X11_witness_ten_of_twenty :
  QuizRequest.count
    (QuizRequest.mk (u16 "greek_to_bulgarian") 10 5 [1%Z] (Some false) (Some []) None)
  = Z.min (Z.min 10 MAX_WORDS) 20
  ∧ State.selectedLessons sample_state ≠ [].
Proof.
  destruct (X11_startSession_request_is_validated (World.mk sample_state sample_page)
              (QuizRequest.mk (u16 "greek_to_bulgarian") 10 5 [1%Z] (Some false)
                 (Some []) None) eq_refl)
    as (Hlessons & _ & _ & _ & _ & Hcount).
  destruct (Hcount eq_refl) as (entered & Hentered & _ & Hsent & _).
  injection Hentered as <-. split; [exact Hsent|exact Hlessons].
Defined.

(** X13 on one answered question of the sample exam. *)
Lemma X13_witness_one_answer :
  State.answers
    (World.state (run [Types (u16 "x"); ClicksSubmit; AnswerArrives sample_answer;
                       IntervalFires 1; SummaryFails] sample_exam))
  = [Some sample_answer].
Proof.
  refine (X13_answers_are_append_only
            [Types (u16 "x"); ClicksSubmit; AnswerArrives sample_answer;
             IntervalFires 1; SummaryFails] sample_exam _).
  repeat constructor.
Defined.

(** X14 on the sample exam: its only question answered, the summary is
    requested. *)
Lemma X14_witness_one_round :
  let w' := run (exam_rounds [(u16 " x ", sample_answer)]) sample_exam in
  State.answers (World.state w') = [Some sample_answer]
  ∧ Page.answerRequests (World.page w')
    = [AnswerRequest.mk (Some (u16 "session-1")) 0 (u16 "x")]
  ∧ Page.summaryRequests (World.page w') = [Some (u16 "session-1")].
Proof.
  intros w'.
  destruct (X14_exam_rounds_run_in_sequence [(u16 " x ", sample_answer)] sample_exam)
    as (Hanswers & Hrequests & _ & Hlast & _).
  - reflexivity.
  - repeat constructor. vm_compute. discriminate.
  - vm_compute. lia.
  - split; [exact Hanswers|]. split; [exact Hrequests|].
    refine (proj1 (Hlast _ _)); [discriminate|reflexivity].
Defined.

(** X15 at two seconds: typing between the two ticks changes nothing. *)
Lemma X15_witness_typing_between_ticks :
  let w := World.mk (set_timePerQuestion 2 sample_state) sample_page in
  let events := [Types (u16 "a"); IntervalFires 1; Types (u16 "ab"); IntervalFires 1;
                 Types (u16 "abc")] in
  Page.answerRequests (World.page (run events (startTimer w)))
  = [AnswerRequest.mk None 0 []]
  ∧ State.timerInterval (World.state (run events (startTimer w))) = None.
Proof.
  intros w events.
  refine (X15_typing_does_not_affect_the_timeout events w _).
  repeat constructor.
Defined.

(** X16 on a training of two words: the first click fetches the answer of
    the second word, the second click asks for the exam. *)
Lemma X16_witness_two_word_training :
  let w := startSession_resolved training sample_pair_data
             (World.mk sample_state sample_page) in
  Page.questionRequests (World.page (run [ClicksNextWord] w))
  = [QuestionRequest.mk (Some (u16 "session-2")) 0;
     QuestionRequest.mk (Some (u16 "session-2")) 1]
  ∧ Page.quizRequests (World.page (run [ClicksNextWord] w)) = []
  ∧ Page.questionRequests (World.page (run [ClicksNextWord; ClicksNextWord] w))
    = [QuestionRequest.mk (Some (u16 "session-2")) 0;
       QuestionRequest.mk (Some (u16 "session-2")) 1]
  ∧ Page.quizRequests (World.page (run [ClicksNextWord; ClicksNextWord] w))
    = [QuizRequest.mk (u16 "greek_to_bulgarian") 2 5 [1%Z] None None
         (Some (QuizData.word_pairs sample_pair_data))].
Proof.
  intros w.
  destruct (X16_training_ends_with_one_exam_request 1 w eq_refl)
    as (Hbefore & Hexam & Hfetched & _).
  destruct (Hbefore 1%nat (le_n 1)) as (Hquiet & Hfetch & _).
  split; [exact Hfetch|]. split; [exact Hquiet|]. split; [exact Hfetched|exact Hexam].
Defined.

(** X17 on the sample exam with a tick and some typing before a summary of
    50 percent. *)
Lemma X17_witness_exam_mode_no_retake :
  Page.retakeSection_shown
    (World.page (showSummary_resolved (Summary.mk 50 0 1) sample_clock
                   (run [Types (u16 "x"); IntervalFires 1]
                      (handle (SessionArrives exam sample_data)
                         (World.mk sample_state sample_page))))) = false.
Proof.
  refine (proj1 (X17_retake_follows_training sample_data
                   [Types (u16 "x"); IntervalFires 1] (Summary.mk 50 0 1) sample_clock
                   (World.mk sample_state sample_page) _)).
  repeat constructor.
Defined.

(** X19 from the initial keyboard. *)
Lemma X19_witness_three_accents :
  Keyboard.exclusive
    (Keyboard.activeDiacritics
       (Keyboard.presses
          [Keyboard.PressDiacritic Keyboard.acute; Keyboard.PressDiacritic Keyboard.grave;
           Keyboard.PressDiacritic Keyboard.smoothBreathing;
           Keyboard.PressDiacritic Keyboard.circumflex] sample_keyboard)).
Proof.
  refine (X19_marks_stay_exclusive _ sample_keyboard _).
  split; vm_compute; lia.
Defined.

(** X20 on iota with diaeresis and acute: the plain iota comes out. *)
Lemma X20_witness_iota_diaeresis_acute :
  Keyboard.getCombinedCharacter 953
    (Keyboard.presses
       [Keyboard.PressDiacritic Keyboard.diaeresis; Keyboard.PressDiacritic Keyboard.acute]
       sample_keyboard)
  = [953].
Proof.
  refine (X20_diaeresis_combines_with_nothing 953
            (Keyboard.presses
               [Keyboard.PressDiacritic Keyboard.diaeresis;
                Keyboard.PressDiacritic Keyboard.acute] sample_keyboard) _ _).
  - reflexivity.
  - exists Keyboard.acute. split; [discriminate|reflexivity].
Defined.

(** X22 on [λογος] with [γο] selected. *)
Lemma X22_witness_replace_selection :
  Keyboard.value (Keyboard.insertGreek [945] sample_keyboard) = [955; 959; 945; 962]
  ∧ Keyboard.selectionStart (Keyboard.insertGreek [945] sample_keyboard) = 3%nat.
Proof.
  destruct (X22_insertions_compose [945] [946] sample_keyboard) as (Hv & Hs & _).
  - vm_compute. lia.
  - split; [exact Hv|exact Hs].
Defined.

(** X23 on three letter keys. *)
Lemma X23_witness_three_letters :
  Keyboard.value
    (Keyboard.presses
       [Keyboard.PressShift; Keyboard.PressLetter [945] [913];
        Keyboard.PressLetter [946] [914]; Keyboard.PressLetter [947] [915]]
       sample_keyboard)
  = [955; 959; 913; 946; 947; 962].
Proof.
  refine (f_equal Keyboard.value
            (X23_shift_lasts_one_letter [945] [913] [([946], [914]); ([947], [915])]
               (Keyboard.toggleShift sample_keyboard) _)).
  vm_compute. lia.
Defined.
